(** * CPA/TCPA collision detector: a shallow embedding of [index.js]

    The plugin's numbers are JavaScript Numbers, i.e. IEEE-754 binary64
    values; they are modelled by Rocq's primitive floats, whose arithmetic,
    comparisons and square root are the IEEE ones ([NaN] compares false with
    everything, [Infinity] is a value).

    The detector's two tables ([state.collisions], [state.previousPositions])
    are plain JavaScript objects indexed by vessel id.  Their own properties
    are modelled by [gmap string _]; what a read or an assignment does at a
    name the object inherits from [Object.prototype] is modelled with them
    (see "Plain objects used as tables").

    The detector is a closure over a mutable [state]; each of its functions
    is modelled as a function from the state before to the state after,
    together with the list of notifications it hands to [app.handleMessage].
    Debug logging has no effect on the state and is left out. *)

From Stdlib Require Import Floats ZArith NArith Bool List Ascii String.
From stdpp Require Import gmap strings fin_maps pretty.

#[local] Set Warnings "-inexact-float".
#[local] Open Scope float_scope.

(** ** JavaScript number operators *)

(** The relational operators of the source, in the argument order in which
    the source writes them. *)
Definition js_lt (a b : float) : bool := a <? b.
Definition js_gt (a b : float) : bool := b <? a.
Definition js_le (a b : float) : bool := a <=? b.
Definition js_ge (a b : float) : bool := b <=? a.

(** [isNaN(x)] on a Number. *)
Definition isNaN (x : float) : bool := is_nan x.

(** Truthiness of a Number: [0], [-0] and [NaN] are falsy. *)
Definition truthy (x : float) : bool := negb (is_nan x || (x =? 0)).

Definition Infinity : float := infinity.

(** [Math.PI] is the binary64 nearest to pi. *)
Definition Math_PI : float := 0x1.921fb54442d18p+1.

(** The host's transcendental functions.  ECMAScript leaves [Math.sin],
    [Math.cos] and [Math.atan2] implementation-approximated, so the embedding
    takes them as an interface of the host; [js_rem] is the [%] operator on
    Numbers.  [Math.sqrt] and [Math.abs] are exact and are the primitive
    [sqrt] and [abs]. *)
Class JSMath := {
  Math_sin : float -> float;
  Math_cos : float -> float;
  Math_atan2 : float -> float -> float;
  js_rem : float -> float -> float
}.

(** ** Geodetic and detection parameters *)

Module GEO.
Definition MEAN_RADIUS_M : float := 6371008.8.
Definition ANGLE_TO_RAD : float := Math_PI / 180.
Definition TO_DEGREES : float := 180 / Math_PI.
Definition KNOTS_TO_MPS : float := 0.5144.
Definition NM_TO_METERS : float := 1852.
End GEO.

Module DETECTION.
Definition RELATIVE_VELOCITY_FLOOR : float := 0.01.
Definition MAX_VESSEL_SPEED_MPS : float := 30.
Definition JUMP_SPEED_FACTOR : float := 1.5.
Definition LAT_BOUND : float := 90.
Definition LON_BOUND : float := 180.
Definition VESSEL_TRACKING_LIMIT : nat := 1000.
Definition CLEANUP_FREQUENCY : N := 100.
End DETECTION.

(** ** Data model *)

(** A coordinate is [Some x] when [typeof] of the field is ['number'] and
    [None] for any other value (missing, null, a string, ...). *)
Record Position := mkPosition {
  latitude : option float;
  longitude : option float
}.

(** The object built by [getVesselData].  [position] is [None] when the
    property is missing or null; [course] and [speed] are [None] when they
    are [undefined] or [null].  The [length] and [beam] fields are carried by
    the source but never read by the detector and are left out. *)
Record VesselData := mkVessel {
  position : option Position;
  course : option float;
  speed : option float;
  timestamp : float
}.

Record CPAResult := mkCPA {
  cpaDistance : float;
  tcpaSeconds : float;
  diverging : bool;
  relativeSpeed : float;
  parallelCourse : bool
}.

(** ** Pure utility functions *)

Section Geodesy.
Context {M : JSMath}.

Definition haversineDistance (from to : option Position) : float :=
  match from, to with
  | Some (mkPosition (Some lat1) (Some lon1)),
    Some (mkPosition (Some lat2) (Some lon2)) =>
      let lat1Rad := lat1 * GEO.ANGLE_TO_RAD in
      let lat2Rad := lat2 * GEO.ANGLE_TO_RAD in
      let deltaLat := (lat2 - lat1) * GEO.ANGLE_TO_RAD in
      let deltaLon := (lon2 - lon1) * GEO.ANGLE_TO_RAD in
      let halfDeltaLatSin := Math_sin (deltaLat / 2) in
      let halfDeltaLonSin := Math_sin (deltaLon / 2) in
      let haversineA := halfDeltaLatSin * halfDeltaLatSin +
                        Math_cos lat1Rad * Math_cos lat2Rad *
                        halfDeltaLonSin * halfDeltaLonSin in
      let angularDist := 2 * Math_atan2 (sqrt haversineA) (sqrt (1 - haversineA)) in
      GEO.MEAN_RADIUS_M * angularDist
  | _, _ => nan
  end.

Definition calculateDistance (from to : option Position) : option float :=
  match from, to with
  | Some _, Some _ =>
      let dist := haversineDistance from to in
      if isNaN dist then None else Some dist
  | _, _ => None
  end.

Definition computeForwardAzimuth (origin destination : option Position) : option float :=
  match origin, destination with
  | Some (mkPosition (Some olat) (Some olon)),
    Some (mkPosition (Some dlat) (Some dlon)) =>
      let originLatRad := olat * GEO.ANGLE_TO_RAD in
      let destLatRad := dlat * GEO.ANGLE_TO_RAD in
      let lonDiffRad := (dlon - olon) * GEO.ANGLE_TO_RAD in
      let sinLonDiff := Math_sin lonDiffRad in
      let cosLonDiff := Math_cos lonDiffRad in
      let sinOriginLat := Math_sin originLatRad in
      let cosOriginLat := Math_cos originLatRad in
      let sinDestLat := Math_sin destLatRad in
      let cosDestLat := Math_cos destLatRad in
      let eastComponent := sinLonDiff * cosDestLat in
      let northComponent := cosOriginLat * sinDestLat -
                            sinOriginLat * cosDestLat * cosLonDiff in
      let azimuthRad := Math_atan2 eastComponent northComponent in
      Some (js_rem (azimuthRad * GEO.TO_DEGREES + 360) 360)
  | _, _ => None
  end.

(** The numeric fields [calculateCPA] insists on: both positions with
    numeric, non-NaN coordinates, and both courses and speeds present and
    not NaN.  This is the sequence of early [return null] guards. *)
Definition cpaInputs (vessel1 vessel2 : VesselData)
    : option (float * float * float * float * (float * float * float * float)) :=
  match position vessel1, position vessel2 with
  | Some p1, Some p2 =>
      match course vessel1 with
      | Some c1 => if isNaN c1 then None else
      match course vessel2 with
      | Some c2 => if isNaN c2 then None else
      match speed vessel1 with
      | Some s1 => if isNaN s1 then None else
      match speed vessel2 with
      | Some s2 => if isNaN s2 then None else
      match latitude p1, longitude p1 with
      | Some lat1, Some lon1 =>
      match latitude p2, longitude p2 with
      | Some lat2, Some lon2 =>
          if isNaN lat1 || isNaN lon1 then None else
          if isNaN lat2 || isNaN lon2 then None else
          Some (c1, s1, lat1, lon1, (c2, s2, lat2, lon2))
      | _, _ => None end
      | _, _ => None end
      | None => None end
      | None => None end
      | None => None end
      | None => None end
  | _, _ => None
  end.

(** Relative velocity of vessel 2 in vessel 1's frame. *)
Definition relVelX (c1 s1 c2 s2 : float) : float :=
  s2 * Math_sin c2 - s1 * Math_sin c1.
Definition relVelY (c1 s1 c2 s2 : float) : float :=
  s2 * Math_cos c2 - s1 * Math_cos c1.
Definition relSpeed (c1 s1 c2 s2 : float) : float :=
  let vx := relVelX c1 s1 c2 s2 in
  let vy := relVelY c1 s1 c2 s2 in
  sqrt (vx * vx + vy * vy).

(** Relative position of vessel 2 from vessel 1 on the local tangent plane. *)
Definition relPosX (lat1 lon1 lat2 lon2 : float) : float :=
  let dLon := (lon2 - lon1) * GEO.ANGLE_TO_RAD in
  let avgLat := (lat1 + lat2) / 2 * GEO.ANGLE_TO_RAD in
  dLon * Math_cos avgLat * GEO.MEAN_RADIUS_M.
Definition relPosY (lat1 lon1 lat2 lon2 : float) : float :=
  let dLat := (lat2 - lat1) * GEO.ANGLE_TO_RAD in
  dLat * GEO.MEAN_RADIUS_M.

(** The raw time to CPA, before the divergence test. *)
Definition rawTcpa (px py vx vy : float) : float :=
  - (px * vx + py * vy) / (vx * vx + vy * vy).

Definition calculateCPA (vessel1 vessel2 : VesselData) : option CPAResult :=
  match cpaInputs vessel1 vessel2 with
  | None => None
  | Some (c1, s1, lat1, lon1, (c2, s2, lat2, lon2)) =>
      let vx := relVelX c1 s1 c2 s2 in
      let vy := relVelY c1 s1 c2 s2 in
      let rs := relSpeed c1 s1 c2 s2 in
      let px := relPosX lat1 lon1 lat2 lon2 in
      let py := relPosY lat1 lon1 lat2 lon2 in
      if js_lt rs DETECTION.RELATIVE_VELOCITY_FLOOR then
        let currentDist := sqrt (px * px + py * py) in
        Some {| cpaDistance := currentDist;
                tcpaSeconds := Infinity;
                diverging := false;
                relativeSpeed := 0;
                parallelCourse := true |}
      else
        let tcpa := rawTcpa px py vx vy in
        if js_lt tcpa 0 then
          Some {| cpaDistance := Infinity;
                  tcpaSeconds := 0;
                  diverging := true;
                  relativeSpeed := rs;
                  parallelCourse := false |}
        else
          let cpaX := px + vx * tcpa in
          let cpaY := py + vy * tcpa in
          Some {| cpaDistance := sqrt (cpaX * cpaX + cpaY * cpaY);
                  tcpaSeconds := tcpa;
                  diverging := false;
                  relativeSpeed := rs;
                  parallelCourse := false |}
  end.
End Geodesy.

(** ** Data validation *)

(** The messages pushed by [validateVesselUpdate], one constructor per
    message template, carrying the value the template interpolates. *)
Inductive Violation :=
| InvalidLatitude (lat : option float)      (* "Invalid latitude: ${lat}" *)
| LatitudeOutOfBounds (lat : float)         (* "Latitude out of bounds: ${lat}" *)
| InvalidLongitude (lon : option float)     (* "Invalid longitude: ${lon}" *)
| LongitudeOutOfBounds (lon : float)        (* "Longitude out of bounds: ${lon}" *)
| InvalidSpeedNaN                           (* "Invalid speed: NaN" *)
| NegativeSpeed (s : float)                 (* "Negative speed: ${speed}" *)
| InvalidCourseNaN                          (* "Invalid course: NaN" *)
| CourseOutOfRange (c : float).             (* "Course out of range: ${course} radians" *)

Record Validation := mkValidation {
  valid : bool;
  errors : list Violation
}.

Definition latitudeErrors (lat : option float) : list Violation :=
  match lat with
  | None => [InvalidLatitude lat]
  | Some x =>
      if isNaN x then [InvalidLatitude lat]
      else if js_gt (abs x) DETECTION.LAT_BOUND then [LatitudeOutOfBounds x]
      else []
  end.

Definition longitudeErrors (lon : option float) : list Violation :=
  match lon with
  | None => [InvalidLongitude lon]
  | Some x =>
      if isNaN x then [InvalidLongitude lon]
      else if js_gt (abs x) DETECTION.LON_BOUND then [LongitudeOutOfBounds x]
      else []
  end.

Definition positionErrors (p : option Position) : list Violation :=
  match p with
  | Some pos => latitudeErrors (latitude pos) ++ longitudeErrors (longitude pos)
  | None => []
  end.

Definition speedErrors (s : option float) : list Violation :=
  match s with
  | Some x =>
      if isNaN x then [InvalidSpeedNaN]
      else if js_lt x 0 then [NegativeSpeed x]
      else []
  | None => []
  end.

Definition courseErrors (c : option float) : list Violation :=
  match c with
  | Some x =>
      if isNaN x then [InvalidCourseNaN]
      else if js_lt x 0 || js_gt x (2 * Math_PI) then [CourseOutOfRange x]
      else []
  | None => []
  end.

Definition validateVesselUpdate (vesselData : VesselData) : Validation :=
  let errs := positionErrors (position vesselData)
              ++ speedErrors (speed vesselData)
              ++ courseErrors (course vesselData) in
  {| valid := Nat.eqb (length errs) 0; errors := errs |}.

(** An entry of [state.previousPositions]. *)
Record PreviousPosition := mkPrev {
  pp_position : option Position;
  pp_timestamp : float
}.

Inductive JumpCheck :=
| NoJump
| Jump (impliedSpeed maxAllowedSpeed distance timeDelta : float).

Definition jumped (j : JumpCheck) : bool :=
  match j with NoJump => false | Jump _ _ _ _ => true end.

Section Detection.
Context {M : JSMath}.

Definition detectPositionJump (vesselData : VesselData)
    (previousData : option PreviousPosition) : JumpCheck :=
  match previousData with
  | None => NoJump
  | Some prev =>
      match pp_position prev with
      | None => NoJump
      | Some _ =>
          if negb (truthy (pp_timestamp prev)) then NoJump else
          match position vesselData with
          | None => NoJump
          | Some _ =>
              if negb (truthy (timestamp vesselData)) then NoJump else
              let distance := haversineDistance (pp_position prev) (position vesselData) in
              if isNaN distance then NoJump else
              let timeDelta := (timestamp vesselData - pp_timestamp prev) / 1000 in
              if js_le timeDelta 0 then NoJump else
              let impliedSpeed := distance / timeDelta in
              let maxAllowedSpeed :=
                DETECTION.MAX_VESSEL_SPEED_MPS * DETECTION.JUMP_SPEED_FACTOR in
              if js_gt impliedSpeed maxAllowedSpeed
              then Jump impliedSpeed maxAllowedSpeed distance timeDelta
              else NoJump
          end
      end
  end.
End Detection.

(** ** Collision detection state *)

(** What [checkCPACollision] and [checkGeometricCollision] return when they
    find a risk. *)
Inductive Collision :=
| CPACollision (cpaDist tcpaMinutes relSpd : float) (parallel : bool)
    (bearing distance targetCourse targetSpeed : option float)
| GeometricCollision (distance : float) (bearing : option float)
    (reason : string).

Definition method (c : Collision) : string :=
  match c with
  | CPACollision _ _ _ _ _ _ _ _ => "CPA"
  | GeometricCollision _ _ _ => "GEOMETRIC"
  end.

(** An entry of [state.collisions]: the collision spread together with the
    vessel id and the target's position. *)
Record Threat := mkThreat {
  threat_collision : Collision;
  threat_vesselId : string;
  threat_position : option Position
}.

Record Stats := mkStats {
  checksPerformed : N;
  alarmsTriggered : N;
  positionJumpsDetected : N;
  cpaCalculations : N;
  geometricFallbacks : N;
  skippedStaleData : N;
  skippedOutOfRange : N;
  lastCleanup : float
}.

(** ** Plain objects used as tables

    [state.collisions] and [state.previousPositions] are created by [{}].
    [Object.keys], [delete] and the spread see their own properties only,
    and these are what the [gmap] holds.  A read [obj[k]] of a name that is
    not an own property goes on to the prototype, and an assignment
    [obj["__proto__"] = v], when ["__proto__"] is not an own property,
    reaches the setter of [Object.prototype] and replaces the prototype of
    [obj] by [v] instead of adding a property. *)

(** The properties of [Object.prototype]. *)
Definition objectPrototypeNames : list string :=
  ["constructor"; "__defineGetter__"; "__defineSetter__"; "hasOwnProperty";
   "__lookupGetter__"; "__lookupSetter__"; "isPrototypeOf";
   "propertyIsEnumerable"; "toString"; "valueOf"; "__proto__";
   "toLocaleString"]%string.

Definition inheritedName (k : string) : bool :=
  existsb (String.eqb k) objectPrototypeNames.

(** Whether [obj[k] = v] defines or overwrites an own property of [obj]. *)
Definition storesOwn {A} (m : gmap string A) (k : string) : bool :=
  bool_decide (is_Some (m !! k)) || negb (String.eqb k "__proto__").

(** The own properties of [obj] after [obj[k] = v]. *)
Definition assignOwn {A} (k : string) (v : A) (m : gmap string A) : gmap string A :=
  if storesOwn m k then <[k := v]> m else m.

(** The detector's [state] object (the logging timer is left out).  The
    counters are Numbers that only ever hold the count of calls made so far;
    they are modelled by [N].  [previousPositionsProto] is the entry that
    has replaced the prototype of [state.previousPositions], if any: a later
    read of the table can return it.  The prototype of [state.collisions] is
    not part of the state: apart from a debug message, the detector reads
    that table by name only in the guard of [removeCollision]. *)
Record State := mkState {
  selfContext : string;
  selfFullContext : string;
  alarmActive : bool;
  collisions : gmap string Threat;
  previousPositions : gmap string PreviousPosition;
  previousPositionsProto : option PreviousPosition;
  callCount : N;
  stats : Stats
}.

(** What a read [state.previousPositions[k]] returns: [undefined], an entry,
    or an inherited value of another kind (a method of [Object.prototype],
    [Object.prototype] itself, or the [position] or [timestamp] of the entry
    that replaced the prototype).  A value of the last kind has no
    [position] property; the detector only tests it for truthiness. *)
Inductive TableValue :=
| TVUndefined
| TVEntry (e : PreviousPosition)
| TVForeign (isTruthy : bool).

Definition valueTruthy (v : TableValue) : bool :=
  match v with
  | TVUndefined => false
  | TVEntry _ => true
  | TVForeign b => b
  end.

Definition readPrevious (s : State) (k : string) : TableValue :=
  match previousPositions s !! k with
  | Some e => TVEntry e
  | None =>
      match previousPositionsProto s with
      | Some e =>
          if String.eqb k "__proto__" then TVEntry e
          else if String.eqb k "position"
          then TVForeign (bool_decide (is_Some (pp_position e)))
          else if String.eqb k "timestamp" then TVForeign (truthy (pp_timestamp e))
          else if inheritedName k then TVForeign true
          else TVUndefined
      | None => if inheritedName k then TVForeign true else TVUndefined
      end
  end.

(** The merged configuration handed to [createCollisionDetector]. *)
Record Options := mkOptions {
  safePassingDistanceMeters : float;
  alarmHysteresisMeters : float;
  timeWindowMinutes : float;
  rangeMeters : float;
  PosFreshBefore : float
}.

(** What the detector reads from the server during one call: the clock
    ([Date.now()], the same reading throughout the call, which runs to
    completion) and the snapshot [getVesselData] assembles for a context
    from [app.getPath] ([None] when it returns [null]). *)
Record Host := mkHost {
  now : float;
  getVesselData : string -> option VesselData
}.

(** The value handed to [app.handleMessage] under
    [notifications.danger.collision]. *)
Inductive Notification :=
| AlarmNotification (threats : gmap string Threat)
| NormalNotification.

(** [String.prototype.includes('.')] and [split('.').pop()]. *)
Fixpoint includes_dot (s : string) : bool :=
  match s with
  | EmptyString => false
  | String c s' => Ascii.eqb c "."%char || includes_dot s'
  end.

Fixpoint split_pop (s : string) : string :=
  match s with
  | EmptyString => EmptyString
  | String c s' =>
      if includes_dot s' then split_pop s'
      else if Ascii.eqb c "."%char then s' else String c s'
  end.

Definition initialStats (t : float) : Stats :=
  {| checksPerformed := 0; alarmsTriggered := 0; positionJumpsDetected := 0;
     cpaCalculations := 0; geometricFallbacks := 0; skippedStaleData := 0;
     skippedOutOfRange := 0; lastCleanup := t |}.

(** The state [createCollisionDetector] starts from, once [setSelfContext]
    has named the own vessel. *)
Definition initialState (self fullSelf : string) (t : float) : State :=
  {| selfContext := self; selfFullContext := fullSelf; alarmActive := false;
     collisions := ∅; previousPositions := ∅; previousPositionsProto := None;
     callCount := 0; stats := initialStats t |}.

Definition set_alarmActive (b : bool) (s : State) : State :=
  {| selfContext := selfContext s; selfFullContext := selfFullContext s;
     alarmActive := b; collisions := collisions s;
     previousPositions := previousPositions s;
     previousPositionsProto := previousPositionsProto s; callCount := callCount s;
     stats := stats s |}.

Definition set_collisions (c : gmap string Threat) (s : State) : State :=
  {| selfContext := selfContext s; selfFullContext := selfFullContext s;
     alarmActive := alarmActive s; collisions := c;
     previousPositions := previousPositions s;
     previousPositionsProto := previousPositionsProto s; callCount := callCount s;
     stats := stats s |}.

Definition set_previousPositions (p : gmap string PreviousPosition) (s : State) : State :=
  {| selfContext := selfContext s; selfFullContext := selfFullContext s;
     alarmActive := alarmActive s; collisions := collisions s;
     previousPositions := p;
     previousPositionsProto := previousPositionsProto s; callCount := callCount s;
     stats := stats s |}.

Definition set_previousPositionsProto (e : option PreviousPosition) (s : State) : State :=
  {| selfContext := selfContext s; selfFullContext := selfFullContext s;
     alarmActive := alarmActive s; collisions := collisions s;
     previousPositions := previousPositions s;
     previousPositionsProto := e; callCount := callCount s;
     stats := stats s |}.

Definition set_callCount (n : N) (s : State) : State :=
  {| selfContext := selfContext s; selfFullContext := selfFullContext s;
     alarmActive := alarmActive s; collisions := collisions s;
     previousPositions := previousPositions s;
     previousPositionsProto := previousPositionsProto s; callCount := n;
     stats := stats s |}.

Definition set_stats (st : Stats) (s : State) : State :=
  {| selfContext := selfContext s; selfFullContext := selfFullContext s;
     alarmActive := alarmActive s; collisions := collisions s;
     previousPositions := previousPositions s;
     previousPositionsProto := previousPositionsProto s; callCount := callCount s;
     stats := st |}.

Definition bump_checksPerformed (st : Stats) : Stats :=
  {| checksPerformed := checksPerformed st + 1; alarmsTriggered := alarmsTriggered st;
     positionJumpsDetected := positionJumpsDetected st;
     cpaCalculations := cpaCalculations st; geometricFallbacks := geometricFallbacks st;
     skippedStaleData := skippedStaleData st; skippedOutOfRange := skippedOutOfRange st;
     lastCleanup := lastCleanup st |}.

Definition bump_alarmsTriggered (st : Stats) : Stats :=
  {| checksPerformed := checksPerformed st; alarmsTriggered := alarmsTriggered st + 1;
     positionJumpsDetected := positionJumpsDetected st;
     cpaCalculations := cpaCalculations st; geometricFallbacks := geometricFallbacks st;
     skippedStaleData := skippedStaleData st; skippedOutOfRange := skippedOutOfRange st;
     lastCleanup := lastCleanup st |}.

Definition bump_positionJumpsDetected (st : Stats) : Stats :=
  {| checksPerformed := checksPerformed st; alarmsTriggered := alarmsTriggered st;
     positionJumpsDetected := positionJumpsDetected st + 1;
     cpaCalculations := cpaCalculations st; geometricFallbacks := geometricFallbacks st;
     skippedStaleData := skippedStaleData st; skippedOutOfRange := skippedOutOfRange st;
     lastCleanup := lastCleanup st |}.

Definition bump_cpaCalculations (st : Stats) : Stats :=
  {| checksPerformed := checksPerformed st; alarmsTriggered := alarmsTriggered st;
     positionJumpsDetected := positionJumpsDetected st;
     cpaCalculations := cpaCalculations st + 1; geometricFallbacks := geometricFallbacks st;
     skippedStaleData := skippedStaleData st; skippedOutOfRange := skippedOutOfRange st;
     lastCleanup := lastCleanup st |}.

Definition bump_geometricFallbacks (st : Stats) : Stats :=
  {| checksPerformed := checksPerformed st; alarmsTriggered := alarmsTriggered st;
     positionJumpsDetected := positionJumpsDetected st;
     cpaCalculations := cpaCalculations st; geometricFallbacks := geometricFallbacks st + 1;
     skippedStaleData := skippedStaleData st; skippedOutOfRange := skippedOutOfRange st;
     lastCleanup := lastCleanup st |}.

Definition bump_skippedStaleData (st : Stats) : Stats :=
  {| checksPerformed := checksPerformed st; alarmsTriggered := alarmsTriggered st;
     positionJumpsDetected := positionJumpsDetected st;
     cpaCalculations := cpaCalculations st; geometricFallbacks := geometricFallbacks st;
     skippedStaleData := skippedStaleData st + 1; skippedOutOfRange := skippedOutOfRange st;
     lastCleanup := lastCleanup st |}.

Definition bump_skippedOutOfRange (st : Stats) : Stats :=
  {| checksPerformed := checksPerformed st; alarmsTriggered := alarmsTriggered st;
     positionJumpsDetected := positionJumpsDetected st;
     cpaCalculations := cpaCalculations st; geometricFallbacks := geometricFallbacks st;
     skippedStaleData := skippedStaleData st; skippedOutOfRange := skippedOutOfRange st + 1;
     lastCleanup := lastCleanup st |}.

Definition set_lastCleanup (t : float) (st : Stats) : Stats :=
  {| checksPerformed := checksPerformed st; alarmsTriggered := alarmsTriggered st;
     positionJumpsDetected := positionJumpsDetected st;
     cpaCalculations := cpaCalculations st; geometricFallbacks := geometricFallbacks st;
     skippedStaleData := skippedStaleData st; skippedOutOfRange := skippedOutOfRange st;
     lastCleanup := t |}.

(** The return paths of [checkCollisionForVessel].  The source returns
    [undefined] on every path; the label records which [return] was taken. *)
Inductive Outcome :=
| InvalidContext
| SelfNoData
| SelfStale
| SelfInvalid
| TargetNoData
| TargetStale
| TargetInvalid
| Jumped
| OutOfRange
| Evaluated (collision : option Collision).

Section Detector.
Context {M : JSMath}.
Variable options : Options.

Definition isDataFresh (h : Host) (vesselData : option VesselData) : bool :=
  match vesselData with
  | None => false
  | Some v =>
      if negb (truthy (timestamp v)) then false else
      let age := (now h - timestamp v) / 1000 in
      js_ge age (-60) && js_le age (PosFreshBefore options)
  end.

Definition validateVesselData (vesselData : option VesselData) : bool :=
  match vesselData with
  | None => false
  | Some v =>
      match position v with
      | None => false
      | Some _ => valid (validateVesselUpdate v)
      end
  end.

(** The test of the loop body of [cleanupStalePositions]. *)
Definition positionIsStale (h : Host) (data : PreviousPosition) : bool :=
  let maxAge := PosFreshBefore options * 1000 * 2 in
  truthy (pp_timestamp data) && js_gt (now h - pp_timestamp data) maxAge.

Definition cleanupStalePositions (h : Host) (s : State) : State :=
  let kept := filter (fun kv => positionIsStale h kv.2 = false) (previousPositions s) in
  let cleaned := (size (previousPositions s) - size kept)%nat in
  let s1 := set_previousPositions kept s in
  if Nat.ltb 0 cleaned then set_stats (set_lastCleanup (now h) (stats s1)) s1 else s1.

(** [state.previousPositions[vesselId] = entry]. *)
Definition storePrevious (vesselId : string) (entry : PreviousPosition) (s : State)
    : State :=
  if storesOwn (previousPositions s) vesselId
  then set_previousPositions (<[vesselId := entry]> (previousPositions s)) s
  else set_previousPositionsProto (Some entry) s.

(** [previousData] is whatever the read returns.  When it is truthy but not
    an entry, [detectPositionJump] finds no [position] on it and answers at
    its first guard; when it is truthy at all, the vessel does not count as
    new at the limit. *)
Definition checkPositionJump (h : Host) (vesselId : string)
    (currentData : option VesselData) (s : State) : bool * State :=
  let previousData := readPrevious s vesselId in
  let jump :=
    match previousData, currentData with
    | TVEntry prev, Some cur => jumped (detectPositionJump cur (Some prev))
    | _, _ => false
    end in
  if jump then (true, set_stats (bump_positionJumpsDetected (stats s)) s) else
  match currentData with
  | Some cur =>
      match position cur with
      | Some _ =>
          let entry := {| pp_position := position cur; pp_timestamp := timestamp cur |} in
          let trackedCount := size (previousPositions s) in
          if Nat.leb DETECTION.VESSEL_TRACKING_LIMIT trackedCount
             && negb (valueTruthy (readPrevious s vesselId))
          then
            let s1 := cleanupStalePositions h s in
            if Nat.leb DETECTION.VESSEL_TRACKING_LIMIT (size (previousPositions s1))
            then (false, s1)
            else (false, storePrevious vesselId entry s1)
          else (false, storePrevious vesselId entry s)
      | None => (false, s)
      end
  | None => (false, s)
  end.

(** The threshold both classifiers start from: widened by the hysteresis
    margin while the alarm is active. *)
Definition cpaThreshold (s : State) : float :=
  if alarmActive s
  then safePassingDistanceMeters options + alarmHysteresisMeters options
  else safePassingDistanceMeters options.

Definition checkCPACollision (selfVessel targetVessel : VesselData) (s : State)
    : option Collision * State :=
  let cpaResult := calculateCPA selfVessel targetVessel in
  let s1 := set_stats (bump_cpaCalculations (stats s)) s in
  match cpaResult with
  | None => (None, s1)
  | Some r =>
      if diverging r then (None, s1) else
      let threshold := cpaThreshold s1 in
      let tcpaMinutes := tcpaSeconds r / 60 in
      if js_gt (cpaDistance r) threshold then (None, s1) else
      if js_gt tcpaMinutes (timeWindowMinutes options) && negb (parallelCourse r)
      then (None, s1) else
      (Some (CPACollision (cpaDistance r) tcpaMinutes (relativeSpeed r)
               (parallelCourse r || false)
               (computeForwardAzimuth (position selfVessel) (position targetVessel))
               (calculateDistance (position selfVessel) (position targetVessel))
               (option_map (fun c => c * GEO.TO_DEGREES) (course targetVessel))
               (speed targetVessel)),
       s1)
  end.

(** [course != null && !isNaN(course) && speed != null && !isNaN(speed)]. *)
Definition hasCourse (v : VesselData) : bool :=
  match course v, speed v with
  | Some c, Some sp => negb (isNaN c) && negb (isNaN sp)
  | _, _ => false
  end.

Definition geometricThreshold (s : State) : float :=
  if alarmActive s
  then safePassingDistanceMeters options * 2 + alarmHysteresisMeters options
  else safePassingDistanceMeters options * 2.

Definition checkGeometricCollision (selfVessel : option VesselData)
    (targetVessel : VesselData) (s : State) : option Collision * State :=
  match selfVessel with
  | None => (None, s)
  | Some sv =>
      match position sv, position targetVessel with
      | Some _, Some _ =>
          let selfHasCourse := hasCourse sv in
          let targetHasCourse := hasCourse targetVessel in
          if selfHasCourse && targetHasCourse then (None, s) else
          let s1 := set_stats (bump_geometricFallbacks (stats s)) s in
          let distance := calculateDistance (position sv) (position targetVessel) in
          let threshold := geometricThreshold s1 in
          let reason := if negb selfHasCourse
                        then "own vessel missing COG/SOG"%string
                        else "target missing COG/SOG"%string in
          match distance with
          | Some d =>
              if js_lt d threshold then
                (Some (GeometricCollision d
                         (computeForwardAzimuth (position sv) (position targetVessel))
                         ("Missing course/speed data (" +:+ reason +:+
                          ") - using conservative proximity check")),
                 s1)
              else (None, s1)
          | None => (None, s1)
          end
      | _, _ => (None, s)
      end
  end.

Definition publishCollisionNotification (isActive : bool) (s : State)
    : State * list Notification :=
  if isActive
  then (set_stats (bump_alarmsTriggered (stats s)) s,
        [AlarmNotification (collisions s)])
  else (s, [NormalNotification]).

Definition updateAlarmState (shouldBeActive : bool) (s : State)
    : State * list Notification :=
  if shouldBeActive && negb (alarmActive s) then
    publishCollisionNotification true (set_alarmActive true s)
  else if negb shouldBeActive && alarmActive s then
    publishCollisionNotification false (set_alarmActive false s)
  else (s, []).

(** [Object.keys(state.collisions).length > 0]. *)
Definition hasCollisions (s : State) : bool := Nat.ltb 0 (size (collisions s)).

(** The guard [state.collisions[vesselId]] is read as a test for an own
    property.  At a name the table only inherits, the source goes on to a
    [delete] that removes nothing and to [updateAlarmState], which changes
    nothing when the alarm agrees with the table, as it does in every
    state a run reaches. *)
Definition removeCollision (vesselId : string) (s : State)
    : State * list Notification :=
  match collisions s !! vesselId with
  | Some _ =>
      let s1 := set_collisions (delete vesselId (collisions s)) s in
      updateAlarmState (hasCollisions s1) s1
  | None => (s, [])
  end.

(** The test of the loop body of [cleanupStaleCollisions]: the entry is
    kept when its vessel still has fresh data. *)
Definition collisionIsStale (h : Host) (vesselId : string) : bool :=
  let vesselData := getVesselData h ("vessels." +:+ vesselId) in
  match vesselData with
  | None => true
  | Some _ => negb (isDataFresh h vesselData)
  end.

Definition cleanupStaleCollisions (h : Host) (s : State)
    : State * list Notification :=
  let kept := filter (fun kv => collisionIsStale h kv.1 = false) (collisions s) in
  let cleaned := (size (collisions s) - size kept)%nat in
  let s1 := set_collisions kept s in
  if Nat.ltb 0 cleaned then updateAlarmState (hasCollisions s1) s1 else (s1, []).

(** The head of [checkCollisionForVessel]: the call counters and the
    cleanup that runs on every [CLEANUP_FREQUENCY]-th call. *)
Definition cleanupDue (s : State) : bool :=
  N.eqb (N.modulo (callCount s + 1) DETECTION.CLEANUP_FREQUENCY) 0.

Definition trackAndCleanup (h : Host) (s : State) : State * list Notification :=
  let s1 := set_callCount (callCount s + 1) s in
  let s2 := set_stats (bump_checksPerformed (stats s1)) s1 in
  if N.eqb (N.modulo (callCount s2) DETECTION.CLEANUP_FREQUENCY) 0 then
    cleanupStaleCollisions h (cleanupStalePositions h s2)
  else (s2, []).

(** The tail of [checkCollisionForVessel]: both classifiers, the update of
    [state.collisions] and of the alarm.  For the id ["__proto__"] the
    assignment adds no property: the table and its key count stay as they
    are. *)
Definition classifyAndRecord (vesselId : string) (selfVessel targetVessel : VesselData)
    (s : State) : Outcome * State * list Notification :=
  let '(collision, s1) := checkCPACollision selfVessel targetVessel s in
  let '(collision, s2) :=
    match collision with
    | Some _ => (collision, s1)
    | None => checkGeometricCollision (Some selfVessel) targetVessel s1
    end in
  let s3 :=
    match collision with
    | Some c =>
        set_collisions
          (assignOwn vesselId
             {| threat_collision := c; threat_vesselId := vesselId;
                threat_position := position targetVessel |} (collisions s2)) s2
    | None => set_collisions (delete vesselId (collisions s2)) s2
    end in
  let '(s4, ev) := updateAlarmState (hasCollisions s3) s3 in
  (Evaluated collision, s4, ev).

Definition checkCollisionForVessel (h : Host) (targetVesselContext : string) (s : State)
    : Outcome * State * list Notification :=
  if String.eqb targetVesselContext EmptyString || negb (includes_dot targetVesselContext)
  then (InvalidContext, s, []) else
  let vesselId := split_pop targetVesselContext in
  if String.eqb vesselId EmptyString || String.eqb vesselId "vessels"
  then (InvalidContext, s, []) else
  let '(s1, ev1) := trackAndCleanup h s in
  let selfVessel := getVesselData h (selfFullContext s1) in
  match selfVessel with
  | None => (SelfNoData, s1, ev1)
  | Some sv =>
      if negb (isDataFresh h selfVessel) then (SelfStale, s1, ev1) else
      if negb (validateVesselData selfVessel) then (SelfInvalid, s1, ev1) else
      let targetVessel := getVesselData h targetVesselContext in
      match targetVessel with
      | None =>
          let '(s2, ev2) := removeCollision vesselId s1 in
          (TargetNoData, s2, ev1 ++ ev2)
      | Some tv =>
          if negb (isDataFresh h targetVessel) then
            let s2 := set_stats (bump_skippedStaleData (stats s1)) s1 in
            let '(s3, ev2) := removeCollision vesselId s2 in
            (TargetStale, s3, ev1 ++ ev2)
          else if negb (validateVesselData targetVessel) then
            let '(s2, ev2) := removeCollision vesselId s1 in
            (TargetInvalid, s2, ev1 ++ ev2)
          else
            let '(jump, s2) := checkPositionJump h vesselId targetVessel s1 in
            if jump then (Jumped, s2, ev1) else
            let distance := calculateDistance (position sv) (position tv) in
            let outOfRange :=
              match distance with
              | None => true
              | Some d => js_gt d (rangeMeters options)
              end in
            if outOfRange then
              let s3 := set_stats (bump_skippedOutOfRange (stats s2)) s2 in
              let '(s4, ev2) := removeCollision vesselId s3 in
              (OutOfRange, s4, ev1 ++ ev2)
            else
              let '(o, s3, ev2) := classifyAndRecord vesselId sv tv s2 in
              (o, s3, ev1 ++ ev2)
      end
  end.

Definition reset (h : Host) (s : State) : State :=
  {| selfContext := selfContext s; selfFullContext := selfFullContext s;
     alarmActive := false; collisions := ∅; previousPositions := ∅;
     previousPositionsProto := None; callCount := 0; stats := initialStats (now h) |}.

(** A run of the detector: [processDeltaMessage] hands each position delta's
    context to [checkCollisionForVessel], one call after the other; each call
    sees the server as it is at that moment. *)
Fixpoint runChecks (calls : list (Host * string)) (s : State)
    : State * list Notification :=
  match calls with
  | [] => (s, [])
  | (h, ctx) :: rest =>
      let '(_, s1, ev1) := checkCollisionForVessel h ctx s in
      let '(s2, ev2) := runChecks rest s1 in
      (s2, ev1 ++ ev2)
  end.
End Detector.

(** ** Configuration validation *)

(** A configuration property as [validateOptions] sees it: undefined (or
    absent), a number, or a value whose [typeof] is not ['number'] (null, a
    string, ...). *)
Inductive ConfigValue :=
| CfgUndefined
| CfgNumber (x : float)
| CfgOther.

(** The options object handed to [plugin.start]; [raw_PosFreshBefore] is
    [options.timeouts?.PosFreshBefore]. *)
Record RawOptions := mkRawOptions {
  raw_safePassingDistanceMeters : ConfigValue;
  raw_alarmHysteresisMeters : ConfigValue;
  raw_timeWindowMinutes : ConfigValue;
  raw_rangeNauticalMiles : ConfigValue;
  raw_PosFreshBefore : ConfigValue
}.

Record OptionsValidation := mkOptionsValidation {
  ov_errors : list string;
  ov_warnings : list string;
  ov_valid : bool
}.

(** The five blocks of [validateOptions]; each yields the errors and the
    warnings it pushes. *)
Definition checkSafePassingDistance (v : ConfigValue) : list string * list string :=
  match v with
  | CfgUndefined => ([], [])
  | CfgOther => (["safePassingDistanceMeters must be a positive number"%string], [])
  | CfgNumber x =>
      if isNaN x || js_le x 0
      then (["safePassingDistanceMeters must be a positive number"%string], [])
      else if js_lt x 50
      then ([], ["safePassingDistanceMeters < 50m is very aggressive"%string])
      else ([], [])
  end.

Definition checkAlarmHysteresis (v : ConfigValue) : list string * list string :=
  match v with
  | CfgUndefined => ([], [])
  | CfgOther => (["alarmHysteresisMeters must be a non-negative number"%string], [])
  | CfgNumber x =>
      if isNaN x || js_lt x 0
      then (["alarmHysteresisMeters must be a non-negative number"%string], [])
      else ([], [])
  end.

Definition checkTimeWindow (v : ConfigValue) : list string * list string :=
  match v with
  | CfgUndefined => ([], [])
  | CfgOther => (["timeWindowMinutes must be a positive number"%string], [])
  | CfgNumber x =>
      if isNaN x || js_le x 0
      then (["timeWindowMinutes must be a positive number"%string], [])
      else if js_gt x 60
      then ([], ["timeWindowMinutes > 60 may cause excessive alerts"%string])
      else ([], [])
  end.

Definition checkRange (v : ConfigValue) : list string * list string :=
  match v with
  | CfgUndefined => ([], [])
  | CfgOther => (["rangeNauticalMiles must be a positive number"%string], [])
  | CfgNumber x =>
      if isNaN x || js_le x 0
      then (["rangeNauticalMiles must be a positive number"%string], [])
      else if js_gt x 50
      then ([], ["rangeNauticalMiles > 50 may impact performance with many AIS targets"%string])
      else ([], [])
  end.

Definition checkPosFreshBefore (v : ConfigValue) : list string * list string :=
  match v with
  | CfgUndefined => ([], [])
  | CfgOther => (["timeouts.PosFreshBefore must be a positive number"%string], [])
  | CfgNumber x =>
      if isNaN x || js_le x 0
      then (["timeouts.PosFreshBefore must be a positive number"%string], [])
      else ([], [])
  end.

Definition validateOptions (options : RawOptions) : OptionsValidation :=
  let checks :=
    [checkSafePassingDistance (raw_safePassingDistanceMeters options);
     checkAlarmHysteresis (raw_alarmHysteresisMeters options);
     checkTimeWindow (raw_timeWindowMinutes options);
     checkRange (raw_rangeNauticalMiles options);
     checkPosFreshBefore (raw_PosFreshBefore options)] in
  let errs := List.concat (List.map fst checks) in
  let warns := List.concat (List.map snd checks) in
  {| ov_errors := errs; ov_warnings := warns; ov_valid := Nat.eqb (length errs) 0 |}.

(** ** Plugin lifecycle *)

(** [x ?? d] on a property that validation accepted, which is then either
    undefined or a number. *)
Definition nullish (v : ConfigValue) (d : float) : float :=
  match v with
  | CfgNumber x => x
  | _ => d
  end.

(** The [mergedConfig] of [plugin.start] (its [debug] part is left out with
    the logging). *)
Definition mergedConfig (options : RawOptions) : Options :=
  {| safePassingDistanceMeters := nullish (raw_safePassingDistanceMeters options) 500;
     alarmHysteresisMeters := nullish (raw_alarmHysteresisMeters options) 200;
     timeWindowMinutes := nullish (raw_timeWindowMinutes options) 10;
     rangeMeters := nullish (raw_rangeNauticalMiles options) 10 * 1852;
     PosFreshBefore := nullish (raw_PosFreshBefore options) 600 |}.

(** The module-level variables [detector] and [ownVesselId]; the detector is
    its configuration and its state. *)
Record Plugin := mkPlugin {
  detector : option (Options * State);
  ownVesselId : option string
}.

Definition stoppedPlugin : Plugin := {| detector := None; ownVesselId := None |}.

(** [plugin.start]: returns the plugin and the message given to [app.error]
    and [app.setPluginError], if any.  [selfId] is [app.selfId]. *)
Definition plugin_start (h : Host) (selfId : option string) (options : RawOptions)
    (p : Plugin) : Plugin * option string :=
  let validation := validateOptions options in
  if negb (ov_valid validation) then
    (p, Some ("Configuration errors: " +:+ String.concat ", " (ov_errors validation)))
  else
    let own := match selfId with
               | Some id => if String.eqb id EmptyString then "self"%string else id
               | None => "self"%string
               end in
    ({| detector := Some (mergedConfig options,
                          initialState own ("vessels." +:+ own) (now h));
        ownVesselId := Some own |}, None).

(** [plugin.stop]: the flag tells whether the "Plugin stopped" notification,
    which sets the collision notification back to normal, was sent. *)
Definition plugin_stop (p : Plugin) : Plugin * bool :=
  match detector p with
  | Some (_, s) => (stoppedPlugin, alarmActive s)
  | None => (stoppedPlugin, false)
  end.

(** [getStatus] of the detector. *)
Record Status := mkStatus {
  st_alarmActive : bool;
  st_activeCollisions : nat;
  st_trackedVessels : nat;
  st_stats : Stats;
  st_collisionDetails : gmap string Threat
}.

Definition getStatus (s : State) : Status :=
  {| st_alarmActive := alarmActive s;
     st_activeCollisions := size (collisions s);
     st_trackedVessels := size (previousPositions s);
     st_stats := stats s;
     st_collisionDetails := collisions s |}.

(** [plugin.statusMessage]; the counts are integers and print in decimal. *)
Definition statusMessage (p : Plugin) : string :=
  match detector p with
  | None => "Not running"
  | Some (_, s) =>
      let status := getStatus s in
      if st_alarmActive status then
        "ALARM: " +:+ pretty (st_activeCollisions status) +:+ " collision(s) detected"
      else
        "Monitoring " +:+ pretty (st_trackedVessels status) +:+ " vessel(s), "
          +:+ pretty (checksPerformed (st_stats status)) +:+ " checks performed"
  end.

(** A SignalK delta, as far as [processDeltaMessage] reads it. *)
Record PathValue := mkPathValue { pv_path : string }.
Record Update := mkUpdate { upd_values : option (list PathValue) }.
Record Delta := mkDelta {
  delta_context : option string;
  delta_updates : option (list Update)
}.

Definition isOwnVessel (own : option string) (sourceContext : string) : bool :=
  let sourceVesselId := split_pop sourceContext in
  String.eqb sourceVesselId "self"
  || match own with
     | Some id => String.eqb sourceVesselId id
     | None => false
     end
  || String.eqb sourceContext
       ("vessels." +:+ match own with Some id => id | None => "null"%string end).

Definition containsPosition (updates : list Update) : bool :=
  existsb (fun update =>
             match upd_values update with
             | Some vs => existsb (fun v => String.eqb (pv_path v) "navigation.position") vs
             | None => false
             end) updates.

Section Lifecycle.
Context {M : JSMath}.

Definition processDeltaMessage (h : Host) (delta : Delta) (p : Plugin)
    : Plugin * list Notification :=
  match detector p, delta_updates delta with
  | Some (o, s), Some updates =>
      match delta_context delta with
      | None => (p, [])
      | Some sourceContext =>
          if String.eqb sourceContext EmptyString then (p, []) else
          if isOwnVessel (ownVesselId p) sourceContext then (p, []) else
          if negb (containsPosition updates) then (p, []) else
          let '(_, s', ev) := checkCollisionForVessel o h sourceContext s in
          ({| detector := Some (o, s'); ownVesselId := ownVesselId p |}, ev)
      end
  | _, _ => (p, [])
  end.

(** The deltas the subscription delivers, one after the other. *)
Fixpoint runDeltas (deltas : list (Host * Delta)) (p : Plugin)
    : Plugin * list Notification :=
  match deltas with
  | [] => (p, [])
  | (h, delta) :: rest =>
      let '(p1, ev1) := processDeltaMessage h delta p in
      let '(p2, ev2) := runDeltas rest p1 in
      (p2, ev1 ++ ev2)
  end.
End Lifecycle.

(** ** The gates of an evaluation, as a relation

    [gateStep h ctx s1 o s' ev] reads the body of [checkCollisionForVessel]
    after its head, one constructor per [return]: from the state [s1] the
    head leaves, the call ends with the outcome [o] in the state [s'] after
    emitting [ev]. *)
Section GateRelation.
Context {M : JSMath}.
Variable options : Options.
Variable h : Host.
Variable ctx : string.

(** The own snapshot passed its three gates. *)
Definition selfReady (s1 : State) (sv : VesselData) : Prop :=
  getVesselData h (selfFullContext s1) = Some sv /\
  isDataFresh options h (Some sv) = true /\
  validateVesselData (Some sv) = true.

(** The target snapshot passed its three gates. *)
Definition targetReady (tv : VesselData) : Prop :=
  getVesselData h ctx = Some tv /\
  isDataFresh options h (Some tv) = true /\
  validateVesselData (Some tv) = true.

(** The range pre-filter: no distance, or a distance beyond the range. *)
Definition beyondRange (sv tv : VesselData) : bool :=
  match calculateDistance (position sv) (position tv) with
  | None => true
  | Some d => js_gt d (rangeMeters options)
  end.

Inductive gateStep (s1 : State) : Outcome -> State -> list Notification -> Prop :=
| gate_self_no_data :
    getVesselData h (selfFullContext s1) = None ->
    gateStep s1 SelfNoData s1 []
| gate_self_stale sv :
    getVesselData h (selfFullContext s1) = Some sv ->
    isDataFresh options h (Some sv) = false ->
    gateStep s1 SelfStale s1 []
| gate_self_invalid sv :
    getVesselData h (selfFullContext s1) = Some sv ->
    isDataFresh options h (Some sv) = true ->
    validateVesselData (Some sv) = false ->
    gateStep s1 SelfInvalid s1 []
| gate_target_no_data sv :
    selfReady s1 sv ->
    getVesselData h ctx = None ->
    gateStep s1 TargetNoData
      (fst (removeCollision (split_pop ctx) s1))
      (snd (removeCollision (split_pop ctx) s1))
| gate_target_stale sv tv :
    selfReady s1 sv ->
    getVesselData h ctx = Some tv ->
    isDataFresh options h (Some tv) = false ->
    gateStep s1 TargetStale
      (fst (removeCollision (split_pop ctx)
              (set_stats (bump_skippedStaleData (stats s1)) s1)))
      (snd (removeCollision (split_pop ctx)
              (set_stats (bump_skippedStaleData (stats s1)) s1)))
| gate_target_invalid sv tv :
    selfReady s1 sv ->
    getVesselData h ctx = Some tv ->
    isDataFresh options h (Some tv) = true ->
    validateVesselData (Some tv) = false ->
    gateStep s1 TargetInvalid
      (fst (removeCollision (split_pop ctx) s1))
      (snd (removeCollision (split_pop ctx) s1))
| gate_jumped sv tv s2 :
    selfReady s1 sv ->
    targetReady tv ->
    checkPositionJump options h (split_pop ctx) (Some tv) s1 = (true, s2) ->
    gateStep s1 Jumped s2 []
| gate_out_of_range sv tv s2 :
    selfReady s1 sv ->
    targetReady tv ->
    checkPositionJump options h (split_pop ctx) (Some tv) s1 = (false, s2) ->
    beyondRange sv tv = true ->
    gateStep s1 OutOfRange
      (fst (removeCollision (split_pop ctx)
              (set_stats (bump_skippedOutOfRange (stats s2)) s2)))
      (snd (removeCollision (split_pop ctx)
              (set_stats (bump_skippedOutOfRange (stats s2)) s2)))
| gate_evaluated sv tv s2 o s3 ev :
    selfReady s1 sv ->
    targetReady tv ->
    checkPositionJump options h (split_pop ctx) (Some tv) s1 = (false, s2) ->
    beyondRange sv tv = false ->
    classifyAndRecord options (split_pop ctx) sv tv s2 = (o, s3, ev) ->
    gateStep s1 o s3 ev.
End GateRelation.

(** ** A software [Math] for running the model

    The theorems below hold for every implementation of the host functions.
    To evaluate the model on concrete vessels an implementation is needed;
    this one reduces the argument by quadrants and sums the Taylor series,
    and agrees with the usual libm results to within a few units in the last
    place on the ranges used here. *)
Module RefMath.
(** Round to the nearest integer, for magnitudes below 2^51. *)
Definition magic : float := 0x1.8p+52.
Definition rint (x : float) : float := (x + magic) - magic.

(** pi/2 split in two parts. *)
Definition pio2_hi : float := 0x1.921fb54442d18p+0.
Definition pio2_lo : float := 0x1.1a62633145c07p-54.

Fixpoint horner (cs : list float) (z : float) : float :=
  match cs with
  | nil => 0
  | c :: cs' => c + z * horner cs' z
  end.

Definition sin_coeffs : list float :=
  [1; -1/6; 1/120; -1/5040; 1/362880; -1/39916800; 1/6227020800;
   -1/1307674368000; 1/355687428096000].
Definition cos_coeffs : list float :=
  [1; -1/2; 1/24; -1/720; 1/40320; -1/3628800; 1/479001600;
   -1/87178291200; 1/20922789888000; -1/6402373705728000].

Definition ksin (r : float) : float := r * horner sin_coeffs (r * r).
Definition kcos (r : float) : float := horner cos_coeffs (r * r).

(** [x = n * pi/2 + r] with [r] in [-pi/4, pi/4]; returns [n mod 4]
    (in [-2, 2]) and [r]. *)
Definition quadrant (x : float) : float * float :=
  let n := rint (x / pio2_hi) in
  let r := (x - n * pio2_hi) - n * pio2_lo in
  let q := n - 4 * rint (n / 4) in
  (q, r).

Definition sin (x : float) : float :=
  if negb (is_finite x) then nan else
  let '(q, r) := quadrant x in
  if q =? 0 then ksin r
  else if q =? 1 then kcos r
  else if q =? -1 then - kcos r
  else - ksin r.

Definition cos (x : float) : float :=
  if negb (is_finite x) then nan else
  let '(q, r) := quadrant x in
  if q =? 0 then kcos r
  else if q =? 1 then - ksin r
  else if q =? -1 then ksin r
  else - kcos r.

Definition atan_coeffs : list float :=
  [1; -1/3; 1/5; -1/7; 1/9; -1/11; 1/13; -1/15; 1/17; -1/19; 1/21; -1/23;
   1/25; -1/27; 1/29].
Definition halve (z : float) : float := z / (1 + sqrt (1 + z * z)).

(** Arc tangent on [-1, 1]: two angle halvings, then the series. *)
Definition katan (z : float) : float :=
  let w := halve (halve z) in
  4 * (w * horner atan_coeffs (w * w)).

Definition atan (z : float) : float :=
  if is_nan z then nan
  else if 1 <? z then Math_PI / 2 - katan (1 / z)
  else if z <? -1 then - (Math_PI / 2) - katan (1 / z)
  else katan z.

Definition atan2 (y x : float) : float :=
  if is_nan y || is_nan x then nan
  else if 0 <? x then atan (y / x)
  else if x <? 0 then
    (if y <? 0 then atan (y / x) - Math_PI else atan (y / x) + Math_PI)
  else if 0 <? y then Math_PI / 2
  else if y <? 0 then - (Math_PI / 2)
  else y.

(** The remainder by binary long division; every subtraction is exact. *)
Fixpoint scale (fuel : nat) (x d : float) : float :=
  match fuel with
  | O => d
  | S f => if (d * 2 <=? x) && is_finite (d * 2) then scale f x (d * 2) else d
  end.

Fixpoint rem_loop (fuel : nat) (x d y : float) : float :=
  match fuel with
  | O => x
  | S f =>
      let x' := if d <=? x then x - d else x in
      if d <=? y then x' else rem_loop f x' (d / 2) y
  end.

Definition rem (x y : float) : float :=
  if is_nan x || is_nan y || is_infinity x || (y =? 0) then nan
  else if is_infinity y then x
  else
    let ax := abs x in
    let ay := abs y in
    let r := if ax <? ay then ax else rem_loop 2100 ax (scale 2100 ax ay) ay in
    if x <? 0 then - r else if x =? 0 then x else r.

Definition refMath : JSMath :=
  {| Math_sin := sin; Math_cos := cos; Math_atan2 := atan2; js_rem := rem |}.
End RefMath.

(** ** Vocabulary for the statements *)

(** A snapshot whose position, course and speed are all present. *)
Definition vesselAt (lat lon crs spd ts : float) : VesselData :=
  {| position := Some {| latitude := Some lat; longitude := Some lon |};
     course := Some crs; speed := Some spd; timestamp := ts |}.

Section Vocabulary.
Context {M : JSMath}.

(** The record [checkCPACollision] builds when it finds a risk. *)
Definition cpaThreat (selfVessel targetVessel : VesselData) (r : CPAResult) : Collision :=
  CPACollision (cpaDistance r) (tcpaSeconds r / 60) (relativeSpeed r)
    (parallelCourse r || false)
    (computeForwardAzimuth (position selfVessel) (position targetVessel))
    (calculateDistance (position selfVessel) (position targetVessel))
    (option_map (fun c => c * GEO.TO_DEGREES) (course targetVessel))
    (speed targetVessel).

End Vocabulary.

(** The configuration [plugin.start] builds when the user sets nothing. *)
Definition defaultOptions : Options :=
  {| safePassingDistanceMeters := 500;
     alarmHysteresisMeters := 200;
     timeWindowMinutes := 10;
     rangeMeters := 10 * 1852;
     PosFreshBefore := 600 |}.

Definition isThreat (c : option Collision) : bool :=
  match c with Some _ => true | None => false end.

(** The alarm agrees with the threat table. *)
Definition alarmConsistent (s : State) : Prop :=
  alarmActive s = hasCollisions s.

(** The two course messages of [validateVesselUpdate]. *)
Definition isCourseViolation (v : Violation) : bool :=
  match v with
  | InvalidCourseNaN | CourseOutOfRange _ => true
  | _ => false
  end.

(** The half-open interval [0, 2 pi) of the data model. *)
Definition inCourseRange (c : float) : bool :=
  js_le 0 c && js_lt c (2 * Math_PI).

(** The contexts [checkCollisionForVessel] accepts: non-empty, with a dot,
    and with a last segment that is neither empty nor ["vessels"]. *)
Definition validContext (ctx : string) : bool :=
  negb (String.eqb ctx EmptyString || negb (includes_dot ctx)) &&
  negb (String.eqb (split_pop ctx) EmptyString || String.eqb (split_pop ctx) "vessels").

(** The tracking table is within the limit. *)
Definition boundedTracking (s : State) : Prop :=
  (size (previousPositions s) <= DETECTION.VESSEL_TRACKING_LIMIT)%nat.

(** The tracking table is within the limit and still has the prototype it
    was created with. *)
Definition plainTracking (s : State) : Prop :=
  boundedTracking s /\ previousPositionsProto s = None.

(** The contexts whose vessel id is not the name of a property of
    [Object.prototype]. *)
Definition ownNameContext (ctx : string) : bool :=
  negb (inheritedName (split_pop ctx)).

(** A field that is present and not NaN. *)
Definition reportsNumber (x : option float) : bool :=
  match x with
  | Some f => negb (isNaN f)
  | None => false
  end.

(** A snapshot with everything [calculateCPA] needs: a position with numeric
    coordinates, a course and a speed. *)
Definition cpaComplete (v : VesselData) : bool :=
  match position v with
  | Some p => reportsNumber (latitude p) && reportsNumber (longitude p)
  | None => false
  end && reportsNumber (course v) && reportsNumber (speed v).

Definition answered (r : option CPAResult) : bool :=
  match r with Some _ => true | None => false end.

Definition hasPosition (v : VesselData) : bool :=
  match position v with Some _ => true | None => false end.

(** A coordinate that is a number, not NaN, and within the bound. *)
Definition coordinateOk (bound : float) (x : option float) : bool :=
  match x with
  | Some f => negb (isNaN f) && negb (js_gt (abs f) bound)
  | None => false
  end.

Definition positionOk (p : option Position) : bool :=
  match p with
  | Some pos => coordinateOk DETECTION.LAT_BOUND (latitude pos) &&
                coordinateOk DETECTION.LON_BOUND (longitude pos)
  | None => true
  end.

Definition speedOk (sp : option float) : bool :=
  match sp with
  | Some x => negb (isNaN x) && negb (js_lt x 0)
  | None => true
  end.

Definition courseOk (c : option float) : bool :=
  match c with
  | Some x => negb (isNaN x) && negb (js_lt x 0 || js_gt x (2 * Math_PI))
  | None => true
  end.

(** Replaying the notifications from an alarm that is on or off: an alarm
    notification is only possible while it is off and turns it on, a normal
    notification is only possible while it is on and turns it off. *)
Fixpoint replayAlarm (active : bool) (ev : list Notification) : option bool :=
  match ev with
  | [] => Some active
  | AlarmNotification _ :: rest => if active then None else replayAlarm true rest
  | NormalNotification :: rest => if active then replayAlarm false rest else None
  end.

(** An alarm notification with at least one threat in its payload. *)
Definition carriesThreats (n : Notification) : bool :=
  match n with
  | AlarmNotification threats => Nat.ltb 0 (size threats)
  | NormalNotification => true
  end.

Fixpoint countAlarms (ev : list Notification) : N :=
  match ev with
  | [] => 0
  | AlarmNotification _ :: rest => 1 + countAlarms rest
  | NormalNotification :: rest => countAlarms rest
  end.

(** What the notifications emitted between two states have to do with the
    states. *)
Definition faithfulTrace (s : State) (ev : list Notification) (s' : State) : Prop :=
  replayAlarm (alarmActive s) ev = Some (alarmActive s') /\
  forallb carriesThreats ev = true /\
  alarmsTriggered (stats s') = (alarmsTriggered (stats s) + countAlarms ev)%N.

(** Every record is filed under its own vessel id. *)
Definition keyedById (s : State) : Prop :=
  forall k t, collisions s !! k = Some t -> threat_vesselId t = k.

(** Every tracked entry has a position and a timestamp that is not 0 or
    NaN. *)
Definition trackedWellFormed (s : State) : Prop :=
  forall k e, previousPositions s !! k = Some e ->
              is_Some (pp_position e) /\ truthy (pp_timestamp e) = true.



(** The context a delta makes [processDeltaMessage] hand to the detector,
    if any. *)
Definition acceptedCall (own : option string) (delta : Delta) : option string :=
  match delta_updates delta, delta_context delta with
  | Some updates, Some sourceContext =>
      if String.eqb sourceContext EmptyString then None
      else if isOwnVessel own sourceContext then None
      else if containsPosition updates then Some sourceContext
      else None
  | _, _ => None
  end.

Fixpoint acceptedCalls (own : option string) (deltas : list (Host * Delta))
    : list (Host * string) :=
  match deltas with
  | [] => []
  | (h, delta) :: rest =>
      match acceptedCall own delta with
      | Some ctx => (h, ctx) :: acceptedCalls own rest
      | None => acceptedCalls own rest
      end
  end.

(** The deltas about a vessel whose id is not the name of a property of
    [Object.prototype] (and the deltas without a context). *)
Definition ownNameDelta (delta : Delta) : bool :=
  match delta_context delta with
  | Some ctx => ownNameContext ctx
  | None => true
  end.

(** The state of the running detector, if there is one. *)
Definition detectorState (p : Plugin) : option State :=
  match detector p with
  | Some (_, s) => Some s
  | None => None
  end.

(** *** Concrete vessels and states for the examples *)

Module Examples.
#[local] Existing Instance RefMath.refMath.

(** A clock reading, in milliseconds since the epoch. *)
Definition t0 : float := 1700000000000.

(** Own vessel at 60N 24E, northbound at 5 m/s. *)
Definition ownVessel : VesselData := vesselAt 60 24 0 5 t0.

(** A southbound target 1.2 nm ahead whose track passes about 600 m to the
    east: CPA distance about 600 m, TCPA about 3.7 minutes. *)
Definition passingTarget : VesselData := vesselAt 60.02 24.0108 Math_PI 5 t0.

Definition passingCPA : CPAResult :=
  match calculateCPA ownVessel passingTarget with
  | Some r => r
  | None => {| cpaDistance := nan; tcpaSeconds := nan; diverging := false;
               relativeSpeed := nan; parallelCourse := false |}
  end.

(** A target whose reported speed, 1e308 m/s, passes [validateVesselUpdate]
    and overflows the relative-velocity arithmetic. *)
Definition overflowTarget : VesselData := vesselAt 60.01 24.01 1 1e308 t0.

Definition quietState : State := initialState "self" "vessels.self" t0.

(** A state in which the target is already a recorded threat and the alarm
    is on. *)
Definition alarmedState (vesselId : string) (tv : VesselData) : State :=
  set_alarmActive true
    (set_collisions
       {[ vesselId := {| threat_collision := GeometricCollision 100 None EmptyString;
                         threat_vesselId := vesselId;
                         threat_position := position tv |} ]}
       quietState).

(** A server holding the given snapshots, read at clock time [t]. *)
Fixpoint lookupVessel (l : list (string * VesselData)) (ctx : string)
    : option VesselData :=
  match l with
  | [] => None
  | (k, v) :: l' => if String.eqb k ctx then Some v else lookupVessel l' ctx
  end.

Definition server (t : float) (l : list (string * VesselData)) : Host :=
  {| now := t; getVesselData := lookupVessel l |}.

(** 1000 s after [t0]: the own snapshot, taken at [t0], is older than the
    600 s freshness limit; the target's snapshot is current. *)
Definition staleSelfHost : Host :=
  server (t0 + 1000000)
    [("vessels.self", ownVessel);
     ("vessels.230099999", vesselAt 60.02 24.0108 Math_PI 5 (t0 + 1000000))].

(** 1000 s after [t0]: the own snapshot is current, the target's is the one
    taken at [t0]. *)
Definition staleTargetHost : Host :=
  server (t0 + 1000000)
    [("vessels.self", vesselAt 60 24 0 5 (t0 + 1000000));
     ("vessels.230099999", passingTarget)].

(** At [t0] both snapshots are current. *)
Definition freshHost : Host :=
  server t0 [("vessels.self", ownVessel); ("vessels.230099999", passingTarget)].

(** The target was last seen one degree of latitude further south one second
    before its current snapshot: an implied speed of over 100 km/s. *)
Definition jumpedFrom : PreviousPosition :=
  {| pp_position := Some {| latitude := Some 59; longitude := Some 24 |};
     pp_timestamp := t0 - 1000 |}.


(** The 100th call is next; the only recorded threat is a vessel the server
    no longer knows; the target's last tracked position is [jumpedFrom]. *)
Definition sweepDueState : State :=
  set_callCount 99
    (set_previousPositions {[ "230099999" := jumpedFrom ]}
       (alarmedState "111000111" passingTarget)).

(** Test 3.3 of the plugin's suite: a target 0.6 nm astern, heading away. *)
Definition divergingTarget : VesselData := vesselAt 59.99 24 Math_PI 5.144 t0.

(** A target 600 m to the north that reports neither course nor speed. *)
Definition anchoredTarget : VesselData :=
  {| position := Some {| latitude := Some 60.0054; longitude := Some 24 |};
     course := None; speed := None; timestamp := t0 |}.

(** An empty configuration: every property is left to its default. *)
Definition noOptions : RawOptions :=
  {| raw_safePassingDistanceMeters := CfgUndefined;
     raw_alarmHysteresisMeters := CfgUndefined;
     raw_timeWindowMinutes := CfgUndefined;
     raw_rangeNauticalMiles := CfgUndefined;
     raw_PosFreshBefore := CfgUndefined |}.

(** A position delta of the vessel at [ctx]. *)
Definition positionDelta (ctx : string) : Delta :=
  {| delta_context := Some ctx;
     delta_updates := Some [ {| upd_values := Some [ {| pv_path := "navigation.position" |} ] |} ] |}.

(** The own vessel and the anchored target both on the server. *)
Definition anchorageHost : Host :=
  server t0 [("vessels.self", ownVessel); ("vessels.230099999", anchoredTarget)].

(** A busy server: at [t0] it has the own vessel and, under every other
    context, a vessel at the passing target's position. *)
Definition busyHost : Host :=
  {| now := t0;
     getVesselData := fun ctx =>
       if String.eqb ctx "vessels.self" then Some ownVessel else Some passingTarget |}.

(** Position updates of the vessels [vessels.0] to [vessels.999]. *)
Definition fleet : list (Host * string) :=
  map (fun n : nat => (busyHost, "vessels." +:+ pretty n))
      (seq 0 DETECTION.VESSEL_TRACKING_LIMIT).

(** A server that knows nobody. *)
Definition emptyHost : Host := {| now := t0; getVesselData := fun _ => None |}.

(** A tracking table at the limit: vessels "0" to "999", all last seen at
    time [ts] at the own vessel's position. *)
Definition fullTable (ts : float) : gmap string PreviousPosition :=
  list_to_map
    (map (fun n : nat => (pretty n, {| pp_position := position ownVessel;
                                       pp_timestamp := ts |}))
         (seq 0 DETECTION.VESSEL_TRACKING_LIMIT)).

Definition fullState (ts : float) : State :=
  set_previousPositions (fullTable ts) quietState.
End Examples.

(** ** Order facts about IEEE comparisons *)

Lemma SFcompare_antisym (x y : spec_float) :
  SFcompare y x = option_map CompOpp (SFcompare x y).
Proof.
  destruct x as [sx|sx| |sx mx ex], y as [sy|sy| |sy my ey]; simpl;
    try reflexivity;
    try (destruct sx; reflexivity);
    try (destruct sy; reflexivity);
    try (destruct sx, sy; reflexivity).
  assert (Hm : Pos.compare_cont Eq my mx = CompOpp (Pos.compare_cont Eq mx my))
    by (rewrite Pos.compare_cont_antisym; reflexivity).
  destruct sx, sy; simpl; try reflexivity;
    rewrite (Z.compare_antisym ex ey);
    destruct (ex ?= ey)%Z; simpl; try reflexivity;
    rewrite Hm; reflexivity.
Qed.

Lemma ltb_asym (a b : float) : (a <? b) = true -> (b <? a) = false.
Proof.
  rewrite !FloatAxioms.ltb_spec. unfold SFltb.
  rewrite (SFcompare_antisym (Prim2SF a) (Prim2SF b)).
  destruct (SFcompare (Prim2SF a) (Prim2SF b)) as [[]|]; simpl; congruence.
Qed.

Lemma leb_not_gt (a b : float) : (a <=? b) = true -> (b <? a) = false.
Proof.
  rewrite FloatAxioms.ltb_spec, FloatAxioms.leb_spec. unfold SFltb, SFleb.
  rewrite (SFcompare_antisym (Prim2SF a) (Prim2SF b)).
  destruct (SFcompare (Prim2SF a) (Prim2SF b)) as [[]|]; simpl; congruence.
Qed.

Lemma ltb_not_eqb (a b : float) : (a <? b) = true -> (b =? a) = false.
Proof.
  rewrite FloatAxioms.ltb_spec, FloatAxioms.eqb_spec. unfold SFltb, SFeqb.
  rewrite (SFcompare_antisym (Prim2SF a) (Prim2SF b)).
  destruct (SFcompare (Prim2SF a) (Prim2SF b)) as [[]|]; simpl; congruence.
Qed.

(** Off NaN the order is total: "not greater" is "at most". *)
Lemma not_gt_leb (a b : float) :
  is_nan a = false -> is_nan b = false -> (b <? a) = false -> (a <=? b) = true.
Proof.
  unfold is_nan. rewrite !FloatAxioms.eqb_spec, FloatAxioms.ltb_spec, FloatAxioms.leb_spec.
  unfold SFeqb, SFltb, SFleb.
  rewrite (SFcompare_antisym (Prim2SF a) (Prim2SF b)).
  destruct (Prim2SF a) as [sa|sa| |sa ma ea], (Prim2SF b) as [sb|sb| |sb mb eb];
    simpl; try discriminate; try reflexivity;
    try (destruct sa; simpl; congruence);
    try (destruct sb; simpl; congruence);
    try (destruct sa, sb; simpl; congruence).
  intros _ _.
  destruct sa, sb; simpl; try congruence;
    destruct (ea ?= eb)%Z; simpl; try congruence;
    destruct (Pos.compare_cont Eq ma mb); simpl; congruence.
Qed.

(** ** CPA geometry: the three branches of [calculateCPA] *)

Lemma is_finite_not_nan (x : float) : is_finite x = true -> isNaN x = false.
Proof.
  unfold is_finite, isNaN. destruct (is_nan x); simpl; [discriminate | reflexivity].
Qed.

Section CPABranches.
Context {M : JSMath}.
Variables lat1 lon1 c1 s1 t1 lat2 lon2 c2 s2 t2 : float.
Hypothesis Hlat1 : is_finite lat1 = true.
Hypothesis Hlon1 : is_finite lon1 = true.
Hypothesis Hc1 : is_finite c1 = true.
Hypothesis Hs1 : is_finite s1 = true.
Hypothesis Hlat2 : is_finite lat2 = true.
Hypothesis Hlon2 : is_finite lon2 = true.
Hypothesis Hc2 : is_finite c2 = true.
Hypothesis Hs2 : is_finite s2 = true.

Lemma cpaInputs_vesselAt :
  cpaInputs (vesselAt lat1 lon1 c1 s1 t1) (vesselAt lat2 lon2 c2 s2 t2) = Some (c1, s1, lat1, lon1, (c2, s2, lat2, lon2)).
Proof.
  unfold cpaInputs, vesselAt; simpl.
  rewrite !is_finite_not_nan by assumption. reflexivity.
Qed.

(** C1. A pair whose relative speed is at or above the floor and whose raw
    TCPA is negative is reported as diverging, with an infinite CPA
    distance and the TCPA clamped to 0. *)
Theorem calculateCPA_diverging :
  js_ge (relSpeed c1 s1 c2 s2) DETECTION.RELATIVE_VELOCITY_FLOOR = true ->
  js_lt (rawTcpa (relPosX lat1 lon1 lat2 lon2) (relPosY lat1 lon1 lat2 lon2)
                 (relVelX c1 s1 c2 s2) (relVelY c1 s1 c2 s2)) 0 = true ->
  calculateCPA (vesselAt lat1 lon1 c1 s1 t1) (vesselAt lat2 lon2 c2 s2 t2) =
    Some {| cpaDistance := Infinity;
            tcpaSeconds := 0;
            diverging := true;
            relativeSpeed := relSpeed c1 s1 c2 s2;
            parallelCourse := false |}.
Proof.
  intros Hfloor Htcpa.
  unfold calculateCPA. rewrite cpaInputs_vesselAt.
  unfold js_ge in Hfloor. apply leb_not_gt in Hfloor.
  unfold js_lt in *. cbv zeta. rewrite Hfloor, Htcpa. reflexivity.
Qed.

(** The same-velocity branch: below the relative-velocity floor the pair is
    reported as a parallel course that is not diverging, with an infinite
    TCPA, and with the separation [calculateCPA] has computed as the CPA
    distance. *)
Lemma calculateCPA_parallel :
  js_lt (relSpeed c1 s1 c2 s2) DETECTION.RELATIVE_VELOCITY_FLOOR = true ->
  exists r,
    calculateCPA (vesselAt lat1 lon1 c1 s1 t1) (vesselAt lat2 lon2 c2 s2 t2) = Some r /\
    parallelCourse r = true /\
    diverging r = false /\
    tcpaSeconds r = Infinity /\
    cpaDistance r =
      sqrt (relPosX lat1 lon1 lat2 lon2 * relPosX lat1 lon1 lat2 lon2 +
            relPosY lat1 lon1 lat2 lon2 * relPosY lat1 lon1 lat2 lon2).
Proof.
  intros Hlow. unfold calculateCPA. rewrite cpaInputs_vesselAt.
  cbv zeta. rewrite Hlow. eexists. split; [reflexivity|]. simpl. auto.
Qed.

(** C10. In the same-velocity branch the reported relative speed is exactly
    0 even when the computed relative speed is strictly positive: the
    reported value is then strictly below the computed magnitude. *)
Theorem calculateCPA_parallel_reports_zero_speed :
  js_gt (relSpeed c1 s1 c2 s2) 0 = true ->
  js_lt (relSpeed c1 s1 c2 s2) DETECTION.RELATIVE_VELOCITY_FLOOR = true ->
  exists r,
    calculateCPA (vesselAt lat1 lon1 c1 s1 t1) (vesselAt lat2 lon2 c2 s2 t2) = Some r /\
    parallelCourse r = true /\
    relativeSpeed r = 0 /\
    js_lt (relativeSpeed r) (relSpeed c1 s1 c2 s2) = true /\
    (relativeSpeed r =? relSpeed c1 s1 c2 s2) = false.
Proof.
  intros Hpos Hlow. unfold calculateCPA. rewrite cpaInputs_vesselAt.
  cbv zeta. rewrite Hlow. eexists. split; [reflexivity|]. simpl.
  unfold js_gt, js_lt in *. repeat split; auto.
  destruct (0 =? relSpeed c1 s1 c2 s2) eqn:E; [|reflexivity].
  pose proof (ltb_not_eqb _ _ Hpos) as Hne.
  rewrite FloatAxioms.eqb_spec in E, Hne. unfold SFeqb in *.
  rewrite SFcompare_antisym in Hne.
  destruct (SFcompare (Prim2SF 0) (Prim2SF (relSpeed c1 s1 c2 s2))) as [[]|];
    simpl in *; congruence.
Qed.
End CPABranches.

(** *** The branches on concrete vessels *)

(** Test 3.3 of the plugin's suite: own vessel northbound, target 0.6 nm to
    the south and southbound, both at 10 knots. *)
Lemma calculateCPA_diverging_witness :
  calculateCPA (M := RefMath.refMath)
    (vesselAt 60 24 0 5.144 0) (vesselAt 59.99 24 Math_PI 5.144 0) =
  Some {| cpaDistance := Infinity; tcpaSeconds := 0; diverging := true;
          relativeSpeed := relSpeed (M := RefMath.refMath) 0 5.144 Math_PI 5.144;
          parallelCourse := false |}.
Proof.
  apply (calculateCPA_diverging (M := RefMath.refMath)); vm_compute; reflexivity.
Defined.

(** Test 3.2 of the plugin's suite: two vessels 0.6 nm apart, both eastbound
    at 10 knots. *)
Lemma calculateCPA_parallel_witness :
  exists r,
    calculateCPA (M := RefMath.refMath)
      (vesselAt 60 24 (90 * GEO.ANGLE_TO_RAD) 5.144 0)
      (vesselAt 60.01 24 (90 * GEO.ANGLE_TO_RAD) 5.144 0) = Some r /\
    parallelCourse r = true /\
    diverging r = false /\
    tcpaSeconds r = Infinity /\
    cpaDistance r =
      sqrt (relPosX (M := RefMath.refMath) 60 24 60.01 24 *
            relPosX (M := RefMath.refMath) 60 24 60.01 24 +
            relPosY 60 24 60.01 24 * relPosY 60 24 60.01 24).
Proof.
  apply (calculateCPA_parallel (M := RefMath.refMath)); vm_compute; reflexivity.
Defined.

(** There the tangent-plane magnitude is within a metre of the haversine
    distance, as the suite expects (its tolerance is 50 m). *)
Example calculateCPA_parallel_near_haversine :
  match calculateCPA (M := RefMath.refMath)
          (vesselAt 60 24 (90 * GEO.ANGLE_TO_RAD) 5.144 0)
          (vesselAt 60.01 24 (90 * GEO.ANGLE_TO_RAD) 5.144 0) with
  | Some r =>
      js_lt (abs (cpaDistance r -
                  haversineDistance (M := RefMath.refMath)
                    (Some (mkPosition (Some 60) (Some 24)))
                    (Some (mkPosition (Some 60.01) (Some 24))))) 1
  | None => false
  end = true.
Proof. vm_compute. reflexivity. Qed.

(** C2, at the failing input.  Two vessels on the same course at the same
    speed, 0.002 degrees of longitude apart on either side of the
    antimeridian at 60N.  Both snapshots are valid and the haversine
    distance between them is 111 m.  [calculateCPA] reports the parallel
    course, not diverging, with an infinite TCPA, as the claim says, but a
    CPA distance of over 20000 km: the longitude difference enters the
    relative position as it is, -359.998 degrees, where [haversineDistance]
    is periodic in it.  The evaluation of the target, with a safe passing
    distance of 500 m, finds no threat. *)
Lemma calculateCPA_parallel_across_antimeridian :
  let own := vesselAt 60 179.999 0 5 Examples.t0 in
  let target := vesselAt 60 (-179.999) 0 5 Examples.t0 in
  validateVesselData (Some own) && validateVesselData (Some target) = true /\
  js_lt (haversineDistance (M := RefMath.refMath) (position own) (position target)) 112
    = true /\
  match calculateCPA (M := RefMath.refMath) own target with
  | Some r =>
      parallelCourse r && negb (diverging r) && (tcpaSeconds r =? Infinity) &&
      js_gt (cpaDistance r) 20000000
  | None => false
  end = true /\
  fst (fst (checkCollisionForVessel (M := RefMath.refMath) defaultOptions
              (Examples.server Examples.t0
                 [("vessels.self", own); ("vessels.230099999", target)])
              "vessels.230099999" Examples.quietState)) = Evaluated None.
Proof. vm_compute. auto. Qed.

(** Own vessel and target on the same course, the target 0.005 m/s faster:
    the computed relative speed is positive, the reported one is 0. *)
Lemma calculateCPA_parallel_reports_zero_speed_witness :
  exists r,
    calculateCPA (M := RefMath.refMath)
      (vesselAt 60 24 0 5 0) (vesselAt 60.01 24 0 5.005 0) = Some r /\
    parallelCourse r = true /\
    relativeSpeed r = 0 /\
    js_lt (relativeSpeed r) (relSpeed (M := RefMath.refMath) 0 5 0 5.005) = true /\
    (relativeSpeed r =? relSpeed (M := RefMath.refMath) 0 5 0 5.005) = false.
Proof.
  apply (calculateCPA_parallel_reports_zero_speed (M := RefMath.refMath));
    vm_compute; reflexivity.
Defined.

(** ** Primary classification: [checkCPACollision] *)

Section Classification.
Context {M : JSMath}.
Variable options : Options.

Lemma cpaThreshold_set_stats (st : Stats) (s : State) :
  cpaThreshold options (set_stats st s) = cpaThreshold options s.
Proof. reflexivity. Qed.

Lemma checkCPACollision_state (sv tv : VesselData) (s : State) :
  snd (checkCPACollision options sv tv s) =
  set_stats (bump_cpaCalculations (stats s)) s.
Proof.
  unfold checkCPACollision.
  destruct (calculateCPA sv tv) as [r|]; [|reflexivity].
  destruct (diverging r); [reflexivity|].
  destruct (js_gt (cpaDistance r) _); [reflexivity|].
  destruct (js_gt (tcpaSeconds r / 60) _ && _); reflexivity.
Qed.

Lemma checkCPACollision_no_result (sv tv : VesselData) (s : State) :
  calculateCPA sv tv = None ->
  fst (checkCPACollision options sv tv s) = None.
Proof. intros H. unfold checkCPACollision. rewrite H. reflexivity. Qed.

Lemma checkCPACollision_diverging (sv tv : VesselData) (s : State) (r : CPAResult) :
  calculateCPA sv tv = Some r -> diverging r = true ->
  fst (checkCPACollision options sv tv s) = None.
Proof. intros H Hd. unfold checkCPACollision. rewrite H, Hd. reflexivity. Qed.

Lemma checkCPACollision_beyond_threshold (sv tv : VesselData) (s : State) (r : CPAResult) :
  calculateCPA sv tv = Some r -> diverging r = false ->
  js_gt (cpaDistance r) (cpaThreshold options s) = true ->
  fst (checkCPACollision options sv tv s) = None.
Proof.
  intros H Hd Hgt. unfold checkCPACollision.
  rewrite H, Hd, cpaThreshold_set_stats, Hgt. reflexivity.
Qed.

Lemma checkCPACollision_beyond_window (sv tv : VesselData) (s : State) (r : CPAResult) :
  calculateCPA sv tv = Some r -> diverging r = false ->
  js_gt (cpaDistance r) (cpaThreshold options s) = false ->
  js_gt (tcpaSeconds r / 60) (timeWindowMinutes options) = true ->
  parallelCourse r = false ->
  fst (checkCPACollision options sv tv s) = None.
Proof.
  intros H Hd Hgt Hw Hp. unfold checkCPACollision.
  rewrite H, Hd, cpaThreshold_set_stats, Hgt, Hw, Hp. reflexivity.
Qed.

Lemma checkCPACollision_threat (sv tv : VesselData) (s : State) (r : CPAResult) :
  calculateCPA sv tv = Some r -> diverging r = false ->
  js_gt (cpaDistance r) (cpaThreshold options s) = false ->
  js_gt (tcpaSeconds r / 60) (timeWindowMinutes options) = false \/
    parallelCourse r = true ->
  fst (checkCPACollision options sv tv s) = Some (cpaThreat sv tv r).
Proof.
  intros H Hd Hgt Hw. unfold checkCPACollision.
  rewrite H, Hd, cpaThreshold_set_stats, Hgt.
  unfold cpaThreat.
  destruct Hw as [Hw|Hp]; [rewrite Hw | rewrite Hp, andb_false_r]; reflexivity.
Qed.

(** What the code decides, for every non-diverging result: beyond the active
    threshold the target is safe; otherwise it is a threat exactly when the
    TCPA in minutes is not greater than the time window or the pair is on a
    parallel course. *)
Lemma checkCPACollision_decision (sv tv : VesselData) (s : State) (r : CPAResult) :
  calculateCPA sv tv = Some r -> diverging r = false ->
  (js_gt (cpaDistance r) (cpaThreshold options s) = true ->
     fst (checkCPACollision options sv tv s) = None) /\
  (js_gt (cpaDistance r) (cpaThreshold options s) = false ->
     (is_Some (fst (checkCPACollision options sv tv s)) <->
      js_gt (tcpaSeconds r / 60) (timeWindowMinutes options) = false \/
      parallelCourse r = true)).
Proof.
  intros H Hd. split; [apply checkCPACollision_beyond_threshold; assumption|].
  intros Hgt. split.
  - intros Hs.
    destruct (js_gt (tcpaSeconds r / 60) (timeWindowMinutes options)) eqn:Hw; [|now left].
    destruct (parallelCourse r) eqn:Hp; [now right|].
    rewrite (checkCPACollision_beyond_window sv tv s r) in Hs by assumption.
    destruct Hs as [? Hs]. discriminate Hs.
  - intros Hw. rewrite (checkCPACollision_threat sv tv s r) by assumption. eauto.
Qed.

(** For a TCPA and a time window that are numbers, "not greater than the
    window" is "at most the window", and the decision reads as the
    specification words it. *)
Lemma checkCPACollision_decision_numeric (sv tv : VesselData) (s : State) (r : CPAResult) :
  calculateCPA sv tv = Some r -> diverging r = false ->
  isNaN (tcpaSeconds r / 60) = false ->
  isNaN (timeWindowMinutes options) = false ->
  js_gt (cpaDistance r) (cpaThreshold options s) = false ->
  (is_Some (fst (checkCPACollision options sv tv s)) <->
   js_le (tcpaSeconds r / 60) (timeWindowMinutes options) = true \/
   parallelCourse r = true).
Proof.
  intros H Hd Hn1 Hn2 Hgt.
  rewrite (proj2 (checkCPACollision_decision sv tv s r H Hd) Hgt).
  unfold js_gt, js_le, isNaN in *. split; (intros [Hw|Hp]; [left|right; assumption]).
  - apply not_gt_leb; assumption.
  - apply leb_not_gt; assumption.
Qed.
End Classification.

(** ** The alarm state machine: [updateAlarmState] *)

Section AlarmFacts.

Lemma updateAlarmState_alarmActive (b : bool) (s : State) :
  alarmActive (fst (updateAlarmState b s)) = b.
Proof. unfold updateAlarmState. destruct b, (alarmActive s) eqn:E; simpl; auto. Qed.

Lemma updateAlarmState_collisions (b : bool) (s : State) :
  collisions (fst (updateAlarmState b s)) = collisions s.
Proof. unfold updateAlarmState. destruct b, (alarmActive s); reflexivity. Qed.

Lemma updateAlarmState_hasCollisions (b : bool) (s : State) :
  hasCollisions (fst (updateAlarmState b s)) = hasCollisions s.
Proof. unfold hasCollisions. rewrite updateAlarmState_collisions. reflexivity. Qed.

Lemma updateAlarmState_previousPositions (b : bool) (s : State) :
  previousPositions (fst (updateAlarmState b s)) = previousPositions s.
Proof. unfold updateAlarmState. destruct b, (alarmActive s); reflexivity. Qed.

Lemma updateAlarmState_events (b : bool) (s : State) :
  snd (updateAlarmState b s) =
  match alarmActive s, b with
  | false, true => [AlarmNotification (collisions s)]
  | true, false => [NormalNotification]
  | _, _ => []
  end.
Proof. unfold updateAlarmState. destruct b, (alarmActive s); reflexivity. Qed.

Lemma updateAlarmState_same (b : bool) (s : State) :
  alarmActive s = b -> updateAlarmState b s = (s, []).
Proof. intros <-. unfold updateAlarmState. destruct (alarmActive s); reflexivity. Qed.

Lemma hasCollisions_set_collisions (c : gmap string Threat) (s : State) :
  hasCollisions (set_collisions c s) = Nat.ltb 0 (size c).
Proof. reflexivity. Qed.

Lemma size_insert_pos {A} (k : string) (v : A) (m : gmap string A) :
  Nat.ltb 0 (size (<[k := v]> m)) = true.
Proof.
  apply Nat.ltb_lt.
  destruct (m !! k) eqn:E.
  - rewrite map_size_insert_Some by eauto.
    assert (size m <> 0%nat); [|lia].
    apply map_size_non_empty_iff. intros ->. rewrite lookup_empty in E. discriminate.
  - rewrite map_size_insert_None by assumption. lia.
Qed.

Lemma size_insert_le {A} (k : string) (v : A) (m : gmap string A) :
  (size (<[k := v]> m) <= S (size m))%nat.
Proof. rewrite map_size_insert. destruct (m !! k); simpl; lia. Qed.

Lemma size_empty_ltb {A} (m : gmap string A) :
  Nat.ltb 0 (size m) = false -> m = ∅.
Proof.
  intros H. apply Nat.ltb_ge in H. apply map_size_empty_iff. lia.
Qed.

(** *** Assignments to a table *)

Lemma storesOwn_other {A} (m : gmap string A) (k : string) :
  k <> "__proto__"%string -> storesOwn m k = true.
Proof.
  intros Hk. unfold storesOwn. apply String.eqb_neq in Hk. rewrite Hk.
  apply orb_true_r.
Qed.

Lemma assignOwn_other {A} (k : string) (v : A) (m : gmap string A) :
  k <> "__proto__"%string -> assignOwn k v m = <[k := v]> m.
Proof. intros Hk. unfold assignOwn. rewrite storesOwn_other by exact Hk. reflexivity. Qed.

Lemma assignOwn_lookup {A} (k : string) (v : A) (m : gmap string A) :
  assignOwn k v m !! k = if storesOwn m k then Some v else None.
Proof.
  unfold assignOwn. destruct (storesOwn m k) eqn:E; [apply lookup_insert_eq|].
  unfold storesOwn in E. apply orb_false_elim in E as [E _].
  apply bool_decide_eq_false in E. destruct (m !! k); [|reflexivity].
  exfalso. apply E. eauto.
Qed.

Lemma assignOwn_lookup_ne {A} (k w : string) (v : A) (m : gmap string A) :
  k <> w -> assignOwn k v m !! w = m !! w.
Proof.
  intros Hne. unfold assignOwn. destruct (storesOwn m k); [|reflexivity].
  apply lookup_insert_ne. exact Hne.
Qed.

Lemma assignOwn_size_pos {A} (k : string) (v : A) (m : gmap string A) :
  Nat.ltb 0 (size m) = true \/ storesOwn m k = true ->
  Nat.ltb 0 (size (assignOwn k v m)) = true.
Proof.
  unfold assignOwn. intros [H|H].
  - destruct (storesOwn m k); [apply size_insert_pos | exact H].
  - rewrite H. apply size_insert_pos.
Qed.

End AlarmFacts.

(** ** Hysteresis at the threshold *)

Section Hysteresis.
Context {M : JSMath}.
Variable options : Options.

(** [calculateCPA] only answers for vessels that report course and speed,
    which are the vessels the geometric fallback declines. *)
Lemma calculateCPA_Some_hasCourse (sv tv : VesselData) (r : CPAResult) :
  calculateCPA sv tv = Some r -> hasCourse sv = true /\ hasCourse tv = true.
Proof.
  unfold calculateCPA, cpaInputs, hasCourse.
  destruct (position sv), (position tv); try discriminate.
  destruct (course sv) as [c1|]; [|discriminate].
  destruct (isNaN c1); [discriminate|].
  destruct (course tv) as [c2|]; [|discriminate].
  destruct (isNaN c2); [discriminate|].
  destruct (speed sv) as [s1|]; [|discriminate].
  destruct (isNaN s1); [discriminate|].
  destruct (speed tv) as [s2|]; [|discriminate].
  destruct (isNaN s2); [discriminate|].
  auto.
Qed.

Lemma checkGeometricCollision_has_course (sv tv : VesselData) (s : State) :
  hasCourse sv = true -> hasCourse tv = true ->
  checkGeometricCollision options (Some sv) tv s = (None, s).
Proof.
  intros H1 H2. unfold checkGeometricCollision. rewrite H1, H2.
  destruct (position sv), (position tv); reflexivity.
Qed.

(** The tail of the evaluation when the CPA check finds a risk. *)
Lemma classifyAndRecord_threat (vesselId : string) (sv tv : VesselData) (s : State)
    (c : Collision) :
  fst (checkCPACollision options sv tv s) = Some c ->
  let s1 := set_stats (bump_cpaCalculations (stats s)) s in
  let s3 := set_collisions
              (assignOwn vesselId
                 {| threat_collision := c; threat_vesselId := vesselId;
                    threat_position := position tv |} (collisions s1)) s1 in
  classifyAndRecord options vesselId sv tv s =
    (Evaluated (Some c), fst (updateAlarmState (hasCollisions s3) s3),
     snd (updateAlarmState (hasCollisions s3) s3)).
Proof.
  intros Hc. pose proof (checkCPACollision_state options sv tv s) as Hs.
  unfold classifyAndRecord.
  destruct (checkCPACollision options sv tv s) as [c' s1']. simpl in Hc, Hs. subst.
  cbv zeta. destruct (updateAlarmState _ _). reflexivity.
Qed.

(** The tail of the evaluation when the CPA check answers for the pair and
    finds no risk: the fallback declines and the vessel leaves the table. *)
Lemma classifyAndRecord_safe (vesselId : string) (sv tv : VesselData) (s : State)
    (r : CPAResult) :
  calculateCPA sv tv = Some r ->
  fst (checkCPACollision options sv tv s) = None ->
  let s1 := set_stats (bump_cpaCalculations (stats s)) s in
  let s3 := set_collisions (delete vesselId (collisions s1)) s1 in
  classifyAndRecord options vesselId sv tv s =
    (Evaluated None, fst (updateAlarmState (hasCollisions s3) s3),
     snd (updateAlarmState (hasCollisions s3) s3)).
Proof.
  intros Hr Hc. pose proof (checkCPACollision_state options sv tv s) as Hs.
  destruct (calculateCPA_Some_hasCourse sv tv r Hr) as [H1 H2].
  unfold classifyAndRecord.
  destruct (checkCPACollision options sv tv s) as [c' s1']. simpl in Hc, Hs. subst.
  rewrite checkGeometricCollision_has_course by assumption.
  cbv zeta. destruct (updateAlarmState _ _). reflexivity.
Qed.

(** C4. The CPA threshold is the safe passing distance plus the hysteresis
    margin while the alarm is active and the safe passing distance alone
    while it is not, and it is against this threshold that
    [checkCPACollision] decides: a result that is not diverging is a threat
    exactly when its CPA distance is not beyond the threshold and its TCPA
    is not beyond the time window or the course is parallel.  Hence a
    converging target whose CPA distance lies strictly between the two
    thresholds and whose TCPA is within the time window stays a threat when
    it is evaluated with the alarm active (the alarm stays on, nothing is
    emitted, and the vessel's record is the new one), and the same
    evaluation with the alarm inactive does not classify it as a threat
    (and, the table being empty then, raises no alarm). *)
Theorem hysteresis_between_thresholds
    (vesselId : string) (sv tv : VesselData) (s : State) (r : CPAResult) :
  calculateCPA sv tv = Some r ->
  diverging r = false ->
  alarmConsistent s ->
  let safe := safePassingDistanceMeters options in
  let margin := alarmHysteresisMeters options in
  cpaThreshold options s = (if alarmActive s then safe + margin else safe) /\
  isThreat (fst (checkCPACollision options sv tv s)) =
    negb (js_gt (cpaDistance r) (if alarmActive s then safe + margin else safe)) &&
    (negb (js_gt (tcpaSeconds r / 60) (timeWindowMinutes options)) || parallelCourse r) /\
  (js_gt (cpaDistance r) safe = true ->
   js_lt (cpaDistance r) (safe + margin) = true ->
   js_le (tcpaSeconds r / 60) (timeWindowMinutes options) = true ->
   (alarmActive s = true ->
      exists s',
        classifyAndRecord options vesselId sv tv s =
          (Evaluated (Some (cpaThreat sv tv r)), s', []) /\
        (vesselId <> "__proto__"%string ->
         collisions s' !! vesselId =
           Some {| threat_collision := cpaThreat sv tv r; threat_vesselId := vesselId;
                   threat_position := position tv |}) /\
        alarmActive s' = true) /\
   (alarmActive s = false ->
      exists s',
        fst (checkCPACollision options sv tv s) = None /\
        classifyAndRecord options vesselId sv tv s = (Evaluated None, s', []) /\
        collisions s' !! vesselId = None /\
        alarmActive s' = false)).
Proof.
  intros Hr Hd Hinv safe margin. split; [reflexivity|]. split.
  - change (if alarmActive s then safe + margin else safe) with (cpaThreshold options s).
    destruct (js_gt (cpaDistance r) (cpaThreshold options s)) eqn:Hgt; cbn [negb andb].
    { rewrite (checkCPACollision_beyond_threshold options sv tv s r Hr Hd Hgt).
      reflexivity. }
    destruct (js_gt (tcpaSeconds r / 60) (timeWindowMinutes options)) eqn:Hw;
      destruct (parallelCourse r) eqn:Hp; cbn [negb orb].
    2: { rewrite (checkCPACollision_beyond_window options sv tv s r Hr Hd Hgt Hw Hp).
         reflexivity. }
    all: rewrite (checkCPACollision_threat options sv tv s r Hr Hd Hgt) by auto;
      reflexivity.
  - intros Hlo Hhi Hw. split; intros Ha.
    + assert (Hc : fst (checkCPACollision options sv tv s) = Some (cpaThreat sv tv r)).
      { apply checkCPACollision_threat; try assumption.
        - unfold cpaThreshold. rewrite Ha. apply ltb_asym. exact Hhi.
        - left. apply leb_not_gt. exact Hw. }
      rewrite (classifyAndRecord_threat vesselId sv tv s _ Hc). cbv zeta.
      rewrite hasCollisions_set_collisions.
      rewrite assignOwn_size_pos.
      2: { left. unfold alarmConsistent, hasCollisions in Hinv.
           cbn [collisions set_stats]. rewrite <- Hinv. exact Ha. }
      rewrite updateAlarmState_same by exact Ha. cbn [fst snd].
      eexists. split; [reflexivity|]. split; [|exact Ha].
      intros Hown. cbn [collisions set_collisions set_stats].
      rewrite assignOwn_other by exact Hown. apply lookup_insert_eq.
    + assert (Hc : fst (checkCPACollision options sv tv s) = None).
      { apply (checkCPACollision_beyond_threshold options sv tv s r); try assumption.
        unfold cpaThreshold. rewrite Ha. exact Hlo. }
      rewrite (classifyAndRecord_safe vesselId sv tv s r Hr Hc). cbv zeta.
      assert (He : collisions s = ∅).
      { apply size_empty_ltb. unfold alarmConsistent, hasCollisions in Hinv.
        rewrite <- Hinv. exact Ha. }
      rewrite hasCollisions_set_collisions. simpl collisions. rewrite He, delete_empty.
      rewrite map_size_empty. simpl Nat.ltb.
      unfold updateAlarmState. simpl. rewrite Ha. simpl.
      eexists. split; [exact Hc|]. split; [reflexivity|]. simpl.
      rewrite lookup_empty. auto.
Qed.
End Hysteresis.

(** The passing target in both alarm states: with the alarm on it stays a
    recorded threat (CPA about 600 m is below 500 + 200), with the alarm off
    it is not one (600 m is above 500). *)
Lemma hysteresis_between_thresholds_witness :
  (exists s',
     classifyAndRecord (M := RefMath.refMath) defaultOptions "230099999"
       Examples.ownVessel Examples.passingTarget
       (Examples.alarmedState "230099999" Examples.passingTarget) =
       (Evaluated (Some (cpaThreat (M := RefMath.refMath) Examples.ownVessel
                           Examples.passingTarget Examples.passingCPA)), s', []) /\
     collisions s' !! "230099999" =
       Some {| threat_collision :=
                 cpaThreat (M := RefMath.refMath) Examples.ownVessel
                   Examples.passingTarget Examples.passingCPA;
               threat_vesselId := "230099999";
               threat_position := position Examples.passingTarget |} /\
     alarmActive s' = true) /\
  (exists s',
     classifyAndRecord (M := RefMath.refMath) defaultOptions "230099999"
       Examples.ownVessel Examples.passingTarget Examples.quietState =
       (Evaluated None, s', []) /\
     collisions s' !! "230099999" = None /\
     alarmActive s' = false).
Proof.
  split.
  - destruct (hysteresis_between_thresholds (M := RefMath.refMath) defaultOptions
                "230099999" Examples.ownVessel Examples.passingTarget
                (Examples.alarmedState "230099999" Examples.passingTarget)
                Examples.passingCPA)
      as (_ & _ & Hband); try (vm_compute; reflexivity).
    destruct Hband as [Hon _]; try (vm_compute; reflexivity).
    destruct (Hon eq_refl) as (s' & H1 & H2 & H3). exists s'.
    split; [exact H1|]. split; [|exact H3]. apply H2. discriminate.
  - destruct (hysteresis_between_thresholds (M := RefMath.refMath) defaultOptions
                "230099999" Examples.ownVessel Examples.passingTarget
                Examples.quietState Examples.passingCPA)
      as (_ & _ & Hband); try (vm_compute; reflexivity).
    destruct Hband as [_ Hoff]; try (vm_compute; reflexivity).
    destruct (Hoff eq_refl) as (s' & _ & H2 & H3 & H4). exists s'. auto.
Defined.

(** C3, at the failing input.  The overflowing target passes validation;
    [calculateCPA] answers for it with a result that is not diverging, not a
    parallel course, and whose CPA distance and TCPA are NaN.  NaN is not
    greater than the threshold and not greater than the time window, so
    [checkCPACollision] records a threat although the TCPA is not at most the
    time window. *)
Lemma checkCPACollision_nan_tcpa_is_threat :
  validateVesselData (Some Examples.overflowTarget) = true /\
  match calculateCPA (M := RefMath.refMath) Examples.ownVessel Examples.overflowTarget with
  | Some r =>
      negb (diverging r) && negb (parallelCourse r) &&
      isNaN (cpaDistance r) && isNaN (tcpaSeconds r) &&
      negb (js_gt (cpaDistance r) (cpaThreshold defaultOptions Examples.quietState)) &&
      negb (js_le (tcpaSeconds r / 60) (timeWindowMinutes defaultOptions))
  | None => false
  end = true /\
  isThreat (fst (checkCPACollision (M := RefMath.refMath) defaultOptions
                   Examples.ownVessel Examples.overflowTarget Examples.quietState)) = true.
Proof. vm_compute. auto. Qed.

(** ** Alarm transitions *)

(** C5. Every alarm update in the detector has the shape "store the new
    threat table, then call [updateAlarmState] with its non-emptiness".
    From a state in which the alarm agrees with the table, such an update
    emits exactly one alarm notification when the table goes from empty to
    non-empty, exactly one normal notification when it goes from non-empty
    to empty, and nothing otherwise; afterwards the alarm is on exactly when
    the table is non-empty. *)
Theorem updateAlarmState_transitions (s : State) (c' : gmap string Threat) :
  alarmConsistent s ->
  let s1 := set_collisions c' s in
  let s' := fst (updateAlarmState (hasCollisions s1) s1) in
  let ev := snd (updateAlarmState (hasCollisions s1) s1) in
  collisions s' = c' /\
  alarmActive s' = hasCollisions s' /\
  (alarmActive s' = true <-> c' <> ∅) /\
  ev = match hasCollisions s, hasCollisions s1 with
       | false, true => [AlarmNotification c']
       | true, false => [NormalNotification]
       | _, _ => []
       end.
Proof.
  intros Hinv s1 s' ev. subst s' ev.
  assert (Hc : collisions (fst (updateAlarmState (hasCollisions s1) s1)) = c')
    by (rewrite updateAlarmState_collisions; reflexivity).
  assert (Ha : alarmActive (fst (updateAlarmState (hasCollisions s1) s1)) =
               hasCollisions s1) by apply updateAlarmState_alarmActive.
  split; [exact Hc|]. split; [|split].
  - rewrite Ha, updateAlarmState_hasCollisions. reflexivity.
  - rewrite Ha. unfold hasCollisions, s1. simpl. rewrite Nat.ltb_lt.
    rewrite <- map_size_non_empty_iff. lia.
  - rewrite updateAlarmState_events. unfold alarmConsistent in Hinv.
    change (alarmActive s1) with (alarmActive s). rewrite Hinv. reflexivity.
Qed.

(** An empty table receives its first threat: one alarm notification; the
    table is emptied again: one normal notification. *)
Lemma updateAlarmState_transitions_witness :
  snd (updateAlarmState
         (hasCollisions (Examples.alarmedState "230099999" Examples.passingTarget))
         (set_collisions
            (collisions (Examples.alarmedState "230099999" Examples.passingTarget))
            Examples.quietState)) =
    [AlarmNotification
       (collisions (Examples.alarmedState "230099999" Examples.passingTarget))] /\
  snd (updateAlarmState (hasCollisions (set_collisions ∅
         (Examples.alarmedState "230099999" Examples.passingTarget)))
         (set_collisions ∅ (Examples.alarmedState "230099999" Examples.passingTarget))) =
    [NormalNotification].
Proof.
  split.
  - exact (proj2 (proj2 (proj2 (updateAlarmState_transitions Examples.quietState
             (collisions (Examples.alarmedState "230099999" Examples.passingTarget))
             eq_refl)))).
  - exact (proj2 (proj2 (proj2 (updateAlarmState_transitions
             (Examples.alarmedState "230099999" Examples.passingTarget) ∅ eq_refl)))).
Defined.

(** ** Course validation *)

Lemma positionErrors_no_course (p : option Position) :
  existsb isCourseViolation (positionErrors p) = false.
Proof.
  destruct p as [[lat lon]|]; [|reflexivity]. unfold positionErrors. simpl.
  rewrite existsb_app.
  assert (H1 : existsb isCourseViolation (latitudeErrors lat) = false).
  { unfold latitudeErrors. destruct lat as [x|]; [|reflexivity].
    destruct (isNaN x); [reflexivity|]. destruct (js_gt _ _); reflexivity. }
  assert (H2 : existsb isCourseViolation (longitudeErrors lon) = false).
  { unfold longitudeErrors. destruct lon as [x|]; [|reflexivity].
    destruct (isNaN x); [reflexivity|]. destruct (js_gt _ _); reflexivity. }
  rewrite H1, H2. reflexivity.
Qed.

Lemma speedErrors_no_course (sp : option float) :
  existsb isCourseViolation (speedErrors sp) = false.
Proof.
  unfold speedErrors. destruct sp as [x|]; [|reflexivity].
  destruct (isNaN x); [reflexivity|]. destruct (js_lt _ _); reflexivity.
Qed.

(** C8 (amended). For a snapshot that carries a course, [validateVesselUpdate]
    reports a course violation exactly when the course is NaN, below 0, or
    above 2 pi: the accepted range is the closed interval from 0 to 2 pi. *)
Theorem validateVesselUpdate_course (v : VesselData) (c : float) :
  course v = Some c ->
  existsb isCourseViolation (errors (validateVesselUpdate v)) =
    isNaN c || js_lt c 0 || js_gt c (2 * Math_PI).
Proof.
  intros Hc. unfold validateVesselUpdate. cbn [errors].
  rewrite !existsb_app, positionErrors_no_course, speedErrors_no_course, Hc.
  unfold courseErrors. cbn [existsb app orb].
  destruct (isNaN c); [reflexivity|]. cbn [orb].
  destruct (js_lt c 0 || js_gt c (2 * Math_PI)); reflexivity.
Qed.

(** A course of 7 rad is reported. *)
Lemma validateVesselUpdate_course_witness :
  existsb isCourseViolation
    (errors (validateVesselUpdate (vesselAt 60 24 7 5 Examples.t0))) = true.
Proof.
  exact (validateVesselUpdate_course (vesselAt 60 24 7 5 Examples.t0) 7 eq_refl).
Defined.

(** The claim C8 as stated fails: a course of exactly 2 pi lies outside
    [0, 2 pi) and yet the snapshot validates without any violation. *)
Lemma validateVesselUpdate_accepts_two_pi :
  inCourseRange (2 * Math_PI) = false /\
  validateVesselUpdate (vesselAt 60 24 (2 * Math_PI) 5 Examples.t0) =
    {| valid := true; errors := [] |}.
Proof. vm_compute. auto. Qed.

(** ** The bounded tracking table *)

Section Tracking.
Context {M : JSMath}.
Variable options : Options.

Lemma cleanupStalePositions_previousPositions (h : Host) (s : State) :
  previousPositions (cleanupStalePositions options h s) =
  filter (fun kv => positionIsStale options h kv.2 = false) (previousPositions s).
Proof.
  unfold cleanupStalePositions. cbv zeta. destruct (Nat.ltb 0 _); reflexivity.
Qed.

Lemma cleanupStalePositions_collisions (h : Host) (s : State) :
  collisions (cleanupStalePositions options h s) = collisions s.
Proof.
  unfold cleanupStalePositions. cbv zeta. destruct (Nat.ltb 0 _); reflexivity.
Qed.

Lemma cleanupStalePositions_alarmActive (h : Host) (s : State) :
  alarmActive (cleanupStalePositions options h s) = alarmActive s.
Proof.
  unfold cleanupStalePositions. cbv zeta. destruct (Nat.ltb 0 _); reflexivity.
Qed.

Lemma cleanupStalePositions_selfFullContext (h : Host) (s : State) :
  selfFullContext (cleanupStalePositions options h s) = selfFullContext s.
Proof.
  unfold cleanupStalePositions. cbv zeta. destruct (Nat.ltb 0 _); reflexivity.
Qed.

Lemma cleanupStalePositions_size (h : Host) (s : State) :
  (size (previousPositions (cleanupStalePositions options h s))
   <= size (previousPositions s))%nat.
Proof.
  rewrite cleanupStalePositions_previousPositions.
  apply map_subseteq_size, map_filter_subseteq.
Qed.

Lemma cleanupStalePositions_bounded (h : Host) (s : State) :
  boundedTracking s -> boundedTracking (cleanupStalePositions options h s).
Proof.
  unfold boundedTracking. pose proof (cleanupStalePositions_size h s). lia.
Qed.

Lemma cleanupStalePositions_proto (h : Host) (s : State) :
  previousPositionsProto (cleanupStalePositions options h s) = previousPositionsProto s.
Proof.
  unfold cleanupStalePositions. cbv zeta. destruct (Nat.ltb 0 _); reflexivity.
Qed.

Lemma inheritedName_not_proto (k : string) :
  inheritedName k = false -> k <> "__proto__"%string.
Proof. intros H ->. discriminate H. Qed.

(** At a name the table does not inherit a read is a lookup among the own
    properties. *)
Lemma readPrevious_own_name (s : State) (k : string) :
  inheritedName k = false ->
  previousPositionsProto s = None ->
  readPrevious s k =
    match previousPositions s !! k with
    | Some e => TVEntry e
    | None => TVUndefined
    end.
Proof.
  intros Hk Hp. unfold readPrevious. rewrite Hp, Hk. reflexivity.
Qed.

Lemma storePrevious_other (vesselId : string) (e : PreviousPosition) (s : State) :
  vesselId <> "__proto__"%string ->
  storePrevious vesselId e s =
    set_previousPositions (<[vesselId := e]> (previousPositions s)) s.
Proof.
  intros Hk. unfold storePrevious. rewrite storesOwn_other by exact Hk. reflexivity.
Qed.

Lemma storePrevious_size (vesselId : string) (e : PreviousPosition) (s : State) :
  (size (previousPositions (storePrevious vesselId e s))
   <= S (size (previousPositions s)))%nat.
Proof.
  unfold storePrevious. destruct (storesOwn _ _);
    cbn [previousPositions set_previousPositions set_previousPositionsProto];
    [apply size_insert_le | lia].
Qed.

(** What [checkPositionJump] can do to the state: count a jump, nothing,
    the sweep, or a store into the table as it is or as the sweep left it. *)
Lemma checkPositionJump_effect (h : Host) (vesselId : string)
    (cur : option VesselData) (s : State) :
  let r := checkPositionJump options h vesselId cur s in
  (fst r = true /\ snd r = set_stats (bump_positionJumpsDetected (stats s)) s) \/
  (fst r = false /\
   (snd r = s \/
    snd r = cleanupStalePositions options h s \/
    exists c,
      cur = Some c /\ is_Some (position c) /\
      let entry := {| pp_position := position c; pp_timestamp := timestamp c |} in
      (snd r = storePrevious vesselId entry s /\
       ((size (previousPositions s) < DETECTION.VESSEL_TRACKING_LIMIT)%nat \/
        valueTruthy (readPrevious s vesselId) = true)) \/
      (snd r = storePrevious vesselId entry (cleanupStalePositions options h s) /\
       (size (previousPositions (cleanupStalePositions options h s))
        < DETECTION.VESSEL_TRACKING_LIMIT)%nat))).
Proof.
  unfold checkPositionJump. cbv zeta.
  destruct (match readPrevious s vesselId with
            | TVEntry _ => _ | _ => _ end); [left; auto|].
  right. split.
  { destruct cur as [c|]; [|reflexivity]. destruct (position c); [|reflexivity].
    destruct (_ && _); [|reflexivity]. destruct (Nat.leb _ _); reflexivity. }
  destruct cur as [c|]; [|left; reflexivity].
  destruct (position c) as [p|] eqn:Hp; [|left; reflexivity].
  destruct (Nat.leb DETECTION.VESSEL_TRACKING_LIMIT (size (previousPositions s))) eqn:Hfull;
    cbn [andb].
  - destruct (valueTruthy (readPrevious s vesselId)) eqn:Hknown; cbn [negb].
    + right. right. exists c. split; [reflexivity|]. split; [rewrite Hp; eauto|].
      left. rewrite Hp. split; [reflexivity | right; reflexivity].
    + destruct (Nat.leb DETECTION.VESSEL_TRACKING_LIMIT
                  (size (previousPositions (cleanupStalePositions options h s)))) eqn:Hstill.
      * right. left. reflexivity.
      * right. right. exists c. split; [reflexivity|]. split; [rewrite Hp; eauto|].
        right. rewrite Hp. split; [reflexivity|]. apply Nat.leb_gt. exact Hstill.
  - right. right. exists c. split; [reflexivity|]. split; [rewrite Hp; eauto|].
    left. rewrite Hp. split; [reflexivity|]. left. apply Nat.leb_gt. exact Hfull.
Qed.

(** For a vessel id other than ["__proto__"] the prototype of the table is
    left alone. *)
Lemma checkPositionJump_proto (h : Host) (vesselId : string)
    (cur : option VesselData) (s : State) :
  vesselId <> "__proto__"%string ->
  previousPositionsProto (snd (checkPositionJump options h vesselId cur s)) =
  previousPositionsProto s.
Proof.
  intros Hk.
  destruct (checkPositionJump_effect h vesselId cur s)
    as [[_ ->] | [_ [-> | [-> | (c & _ & _ & [[-> _] | [-> _]])]]]];
    rewrite ?storePrevious_other by exact Hk;
    cbn [previousPositionsProto set_stats set_previousPositions];
    rewrite ?cleanupStalePositions_proto; reflexivity.
Qed.

(** One call of [checkPositionJump] for a vessel id that the table does not
    inherit keeps the table within the limit. *)
Lemma checkPositionJump_bounded (h : Host) (vesselId : string)
    (cur : option VesselData) (s : State) :
  inheritedName vesselId = false ->
  plainTracking s ->
  plainTracking (snd (checkPositionJump options h vesselId cur s)).
Proof.
  intros Hk [Hb Hp]. split.
  2: { rewrite checkPositionJump_proto by (apply inheritedName_not_proto; exact Hk).
       exact Hp. }
  pose proof (cleanupStalePositions_bounded h s Hb) as Hb1.
  unfold boundedTracking in *.
  destruct (checkPositionJump_effect h vesselId cur s)
    as [[_ ->] | [_ [-> | [-> | (c & _ & _ & [[-> Hroom] | [-> Hroom]])]]]];
    try assumption.
  - destruct Hroom as [Hlt|Hknown].
    + etransitivity; [apply storePrevious_size | lia].
    + rewrite (readPrevious_own_name s vesselId Hk Hp) in Hknown.
      destruct (previousPositions s !! vesselId) as [e|] eqn:E; [|discriminate].
      rewrite storePrevious_other by (apply inheritedName_not_proto; exact Hk).
      cbn [previousPositions set_previousPositions].
      rewrite map_size_insert_Some by eauto. exact Hb.
  - etransitivity; [apply storePrevious_size | lia].
Qed.
End Tracking.

(** ** Properties kept by a whole evaluation *)

Section Evaluation.
Context {M : JSMath}.
Variable options : Options.

(** [checkCollisionForVessel] changes the state only through its parts: a
    property kept by each of them is kept by the call. *)
Lemma checkCollisionForVessel_preserves (P : State -> Prop) :
  (forall s st, P s -> P (set_stats st s)) ->
  (forall s n, P s -> P (set_callCount n s)) ->
  (forall h s, P s -> P (cleanupStalePositions options h s)) ->
  (forall h s, P s -> P (fst (cleanupStaleCollisions options h s))) ->
  (forall vid s, P s -> P (fst (removeCollision vid s))) ->
  (forall h vid cur s, P s -> P (snd (checkPositionJump options h vid cur s))) ->
  (forall vid sv tv s, P s -> P (snd (fst (classifyAndRecord options vid sv tv s)))) ->
  forall h ctx s, P s -> P (snd (fst (checkCollisionForVessel options h ctx s))).
Proof.
  intros Hst Hcc Hcp Hcl Hrm Hpj Hcr h ctx s Hs.
  unfold checkCollisionForVessel.
  destruct (String.eqb ctx EmptyString || negb (includes_dot ctx)); [exact Hs|].
  destruct (String.eqb (split_pop ctx) EmptyString || String.eqb (split_pop ctx) "vessels");
    [exact Hs|].
  assert (H1 : P (fst (trackAndCleanup options h s))).
  { unfold trackAndCleanup. cbv zeta.
    destruct (N.eqb _ 0); [apply Hcl, Hcp|]; apply Hst, Hcc, Hs. }
  destruct (trackAndCleanup options h s) as [s1 ev1]. cbn [fst] in H1.
  destruct (getVesselData h (selfFullContext s1)) as [sv|]; [|exact H1].
  destruct (negb (isDataFresh options h (Some sv))); [exact H1|].
  destruct (negb (validateVesselData (Some sv))); [exact H1|].
  destruct (getVesselData h ctx) as [tv|].
  - destruct (negb (isDataFresh options h (Some tv))).
    { specialize (Hrm (split_pop ctx) _ (Hst s1 (bump_skippedStaleData (stats s1)) H1)).
      destruct (removeCollision _ _). exact Hrm. }
    destruct (negb (validateVesselData (Some tv))).
    { specialize (Hrm (split_pop ctx) _ H1). destruct (removeCollision _ _). exact Hrm. }
    specialize (Hpj h (split_pop ctx) (Some tv) _ H1).
    destruct (checkPositionJump options h (split_pop ctx) (Some tv) s1) as [jump s2].
    cbn [snd] in Hpj. destruct jump; [exact Hpj|].
    destruct (match calculateDistance (position sv) (position tv) with
              | Some d => js_gt d (rangeMeters options) | None => true end).
    { specialize (Hrm (split_pop ctx) _ (Hst s2 (bump_skippedOutOfRange (stats s2)) Hpj)).
      destruct (removeCollision _ _). exact Hrm. }
    specialize (Hcr (split_pop ctx) sv tv _ Hpj).
    destruct (classifyAndRecord options (split_pop ctx) sv tv s2) as [[o s3] ev2].
    exact Hcr.
  - specialize (Hrm (split_pop ctx) _ H1). destruct (removeCollision _ _). exact Hrm.
Qed.

Lemma removeCollision_previousPositions (vid : string) (s : State) :
  previousPositions (fst (removeCollision vid s)) = previousPositions s.
Proof.
  unfold removeCollision. destruct (collisions s !! vid); [|reflexivity].
  rewrite updateAlarmState_previousPositions. reflexivity.
Qed.

Lemma cleanupStaleCollisions_previousPositions (h : Host) (s : State) :
  previousPositions (fst (cleanupStaleCollisions options h s)) = previousPositions s.
Proof.
  unfold cleanupStaleCollisions. cbv zeta. destruct (Nat.ltb 0 _); [|reflexivity].
  rewrite updateAlarmState_previousPositions. reflexivity.
Qed.

Lemma checkGeometricCollision_state (sv : option VesselData) (tv : VesselData) (s : State) :
  exists st, snd (checkGeometricCollision options sv tv s) = set_stats st s.
Proof.
  assert (Hid : s = set_stats (stats s) s) by (destruct s; reflexivity).
  unfold checkGeometricCollision.
  destruct sv as [sv|]; [|exists (stats s); exact Hid].
  destruct (position sv), (position tv); try (exists (stats s); exact Hid).
  destruct (hasCourse sv && hasCourse tv); [exists (stats s); exact Hid|].
  cbv zeta. destruct (calculateDistance _ _) as [d|]; [|eexists; reflexivity].
  destruct (js_lt d _); eexists; reflexivity.
Qed.

(** The tail of the evaluation replaces the table entry of the vessel and
    re-derives the alarm; the tracking table is not touched. *)
Lemma classifyAndRecord_shape (vid : string) (sv tv : VesselData) (s : State) :
  exists (c : option Collision) (st : Stats),
    let s2 := set_stats st s in
    let s3 := match c with
              | Some x =>
                  set_collisions
                    (assignOwn vid
                       {| threat_collision := x; threat_vesselId := vid;
                          threat_position := position tv |} (collisions s2)) s2
              | None => set_collisions (delete vid (collisions s2)) s2
              end in
    classifyAndRecord options vid sv tv s =
      (Evaluated c, fst (updateAlarmState (hasCollisions s3) s3),
       snd (updateAlarmState (hasCollisions s3) s3)).
Proof.
  pose proof (checkCPACollision_state options sv tv s) as Hs1.
  unfold classifyAndRecord.
  destruct (checkCPACollision options sv tv s) as [c s1]. cbn [snd] in Hs1. subst s1.
  destruct c as [c|].
  - exists (Some c), (bump_cpaCalculations (stats s)). cbv zeta.
    destruct (updateAlarmState _ _). reflexivity.
  - destruct (checkGeometricCollision_state (Some sv) tv
                (set_stats (bump_cpaCalculations (stats s)) s)) as [st Hst].
    destruct (checkGeometricCollision options (Some sv) tv _) as [c s2].
    cbn [snd] in Hst. subst s2. exists c, st. cbv zeta.
    destruct c; destruct (updateAlarmState _ _); reflexivity.
Qed.

Lemma classifyAndRecord_previousPositions (vid : string) (sv tv : VesselData) (s : State) :
  previousPositions (snd (fst (classifyAndRecord options vid sv tv s))) =
  previousPositions s.
Proof.
  destruct (classifyAndRecord_shape vid sv tv s) as (c & st & H). cbv zeta in H.
  rewrite H. cbn [fst snd]. rewrite updateAlarmState_previousPositions.
  destruct c; reflexivity.
Qed.

Lemma classifyAndRecord_proto (vid : string) (sv tv : VesselData) (s : State) :
  previousPositionsProto (snd (fst (classifyAndRecord options vid sv tv s))) =
  previousPositionsProto s.
Proof.
  destruct (classifyAndRecord_shape vid sv tv s) as (c & st & H). cbv zeta in H.
  rewrite H. cbn [fst snd]. unfold updateAlarmState.
  destruct c; destruct (hasCollisions _), (alarmActive _); reflexivity.
Qed.

Lemma removeCollision_proto (vid : string) (s : State) :
  previousPositionsProto (fst (removeCollision vid s)) = previousPositionsProto s.
Proof.
  unfold removeCollision. destruct (collisions s !! vid); [|reflexivity].
  unfold updateAlarmState. destruct (hasCollisions _), (alarmActive _); reflexivity.
Qed.

Lemma cleanupStaleCollisions_proto (h : Host) (s : State) :
  previousPositionsProto (fst (cleanupStaleCollisions options h s)) =
  previousPositionsProto s.
Proof.
  unfold cleanupStaleCollisions. cbv zeta. destruct (Nat.ltb 0 _); [|reflexivity].
  unfold updateAlarmState. destruct (hasCollisions _), (alarmActive _); reflexivity.
Qed.

(** The same as [checkCollisionForVessel_preserves], for a property that
    depends on the vessel the call is about. *)
Lemma checkCollisionForVessel_preserves_at (P : State -> Prop) (h : Host) (ctx : string) :
  (forall s st, P s -> P (set_stats st s)) ->
  (forall s n, P s -> P (set_callCount n s)) ->
  (forall s, P s -> P (cleanupStalePositions options h s)) ->
  (forall s, P s -> P (fst (cleanupStaleCollisions options h s))) ->
  (forall s, P s -> P (fst (removeCollision (split_pop ctx) s))) ->
  (forall cur s, P s -> P (snd (checkPositionJump options h (split_pop ctx) cur s))) ->
  (forall sv tv s, P s -> P (snd (fst (classifyAndRecord options (split_pop ctx) sv tv s)))) ->
  forall s, P s -> P (snd (fst (checkCollisionForVessel options h ctx s))).
Proof.
  intros Hst Hcc Hcp Hcl Hrm Hpj Hcr s Hs.
  unfold checkCollisionForVessel.
  destruct (String.eqb ctx EmptyString || negb (includes_dot ctx)); [exact Hs|].
  destruct (String.eqb (split_pop ctx) EmptyString || String.eqb (split_pop ctx) "vessels");
    [exact Hs|].
  assert (H1 : P (fst (trackAndCleanup options h s))).
  { unfold trackAndCleanup. cbv zeta.
    destruct (N.eqb _ 0); [apply Hcl, Hcp|]; apply Hst, Hcc, Hs. }
  destruct (trackAndCleanup options h s) as [s1 ev1]. cbn [fst] in H1.
  destruct (getVesselData h (selfFullContext s1)) as [sv|]; [|exact H1].
  destruct (negb (isDataFresh options h (Some sv))); [exact H1|].
  destruct (negb (validateVesselData (Some sv))); [exact H1|].
  destruct (getVesselData h ctx) as [tv|].
  - destruct (negb (isDataFresh options h (Some tv))).
    { specialize (Hrm _ (Hst s1 (bump_skippedStaleData (stats s1)) H1)).
      destruct (removeCollision _ _). exact Hrm. }
    destruct (negb (validateVesselData (Some tv))).
    { specialize (Hrm _ H1). destruct (removeCollision _ _). exact Hrm. }
    specialize (Hpj (Some tv) _ H1).
    destruct (checkPositionJump options h (split_pop ctx) (Some tv) s1) as [jump s2].
    cbn [snd] in Hpj. destruct jump; [exact Hpj|].
    destruct (match calculateDistance (position sv) (position tv) with
              | Some d => js_gt d (rangeMeters options) | None => true end).
    { specialize (Hrm _ (Hst s2 (bump_skippedOutOfRange (stats s2)) Hpj)).
      destruct (removeCollision _ _). exact Hrm. }
    specialize (Hcr sv tv _ Hpj).
    destruct (classifyAndRecord options (split_pop ctx) sv tv s2) as [[o s3] ev2].
    exact Hcr.
  - specialize (Hrm _ H1). destruct (removeCollision _ _). exact Hrm.
Qed.

(** One evaluation of a vessel whose id the table does not inherit keeps the
    tracking table within the limit. *)
Lemma checkCollisionForVessel_bounded (h : Host) (ctx : string) (s : State) :
  ownNameContext ctx = true ->
  plainTracking s ->
  plainTracking (snd (fst (checkCollisionForVessel options h ctx s))).
Proof.
  intros Hctx. apply negb_true_iff in Hctx.
  apply (checkCollisionForVessel_preserves_at plainTracking); unfold plainTracking.
  - intros s0 st H. exact H.
  - intros s0 n H. exact H.
  - intros s0 [H Hp]. split; [apply cleanupStalePositions_bounded; exact H|].
    rewrite cleanupStalePositions_proto. exact Hp.
  - intros s0 [H Hp]. unfold boundedTracking.
    rewrite cleanupStaleCollisions_previousPositions, cleanupStaleCollisions_proto. auto.
  - intros s0 [H Hp]. unfold boundedTracking.
    rewrite removeCollision_previousPositions, removeCollision_proto. auto.
  - intros cur s0 H. apply checkPositionJump_bounded; assumption.
  - intros sv tv s0 [H Hp]. unfold boundedTracking.
    rewrite classifyAndRecord_previousPositions, classifyAndRecord_proto. auto.
Qed.

Lemma runChecks_bounded (calls : list (Host * string)) (s : State) :
  Forall (fun c => ownNameContext c.2 = true) calls ->
  plainTracking s -> plainTracking (fst (runChecks options calls s)).
Proof.
  revert s. induction calls as [|[h ctx] rest IH]; intros s Hall Hs; [exact Hs|].
  apply Forall_cons in Hall as [Hctx Hall]. cbn [snd] in Hctx.
  cbn [runChecks].
  pose proof (checkCollisionForVessel_bounded h ctx s Hctx Hs) as H1.
  destruct (checkCollisionForVessel options h ctx s) as [[o s1] ev1]. cbn [fst snd] in H1.
  specialize (IH s1 Hall H1). destruct (runChecks options rest s1) as [s2 ev2]. exact IH.
Qed.

Lemma initialState_plainTracking (self full : string) (t : float) :
  plainTracking (initialState self full t).
Proof.
  split; [|reflexivity]. unfold boundedTracking. cbn [previousPositions initialState].
  rewrite map_size_empty. lia.
Qed.
End Evaluation.

(** The bound the code aims at holds for the vessels whose id is not the
    name of a property of [Object.prototype]: over any run about such
    vessels the tracking table never exceeds the limit.  When the table is
    at the limit and the vessel is new, [checkPositionJump] first runs
    [cleanupStalePositions], which drops the entries older than twice the
    freshness limit; if the table is still at the limit the vessel is not
    recorded, otherwise it is recorded in the swept table.  Either way the
    answer is "no jump", so the evaluation goes on to classify the vessel. *)
Lemma tracking_limit_own_names {M : JSMath} (options : Options) :
  (forall (self full : string) (t : float) (calls : list (Host * string)),
     Forall (fun c => ownNameContext c.2 = true) calls ->
     boundedTracking (fst (runChecks options calls (initialState self full t)))) /\
  (forall (h : Host) (vesselId : string) (cur : VesselData) (s : State),
     (DETECTION.VESSEL_TRACKING_LIMIT <= size (previousPositions s))%nat ->
     inheritedName vesselId = false ->
     previousPositionsProto s = None ->
     previousPositions s !! vesselId = None ->
     is_Some (position cur) ->
     let s1 := cleanupStalePositions options h s in
     previousPositions s1 =
       filter (fun kv =>
                 (truthy (pp_timestamp kv.2) &&
                  js_gt (now h - pp_timestamp kv.2) (PosFreshBefore options * 1000 * 2))
                 = false)
              (previousPositions s) /\
     checkPositionJump options h vesselId (Some cur) s =
       (false,
        if Nat.leb DETECTION.VESSEL_TRACKING_LIMIT (size (previousPositions s1))
        then s1
        else set_previousPositions
               (<[vesselId := {| pp_position := position cur;
                                 pp_timestamp := timestamp cur |}]>
                  (previousPositions s1)) s1)).
Proof.
  split.
  - intros self full t calls Hall.
    apply (runChecks_bounded options calls _ Hall (initialState_plainTracking self full t)).
  - intros h vesselId cur s Hfull Hk Hproto Hnew [p Hp] s1. split.
    + apply cleanupStalePositions_previousPositions.
    + unfold checkPositionJump.
      rewrite (readPrevious_own_name s vesselId Hk Hproto), Hnew, Hp. cbv zeta.
      apply Nat.leb_le in Hfull. rewrite Hfull.
      cbn [andb negb valueTruthy]. fold s1.
      destruct (Nat.leb DETECTION.VESSEL_TRACKING_LIMIT (size (previousPositions s1)));
        [reflexivity|].
      rewrite storePrevious_other by (apply inheritedName_not_proto; exact Hk).
      reflexivity.
Qed.

(** C9, at the failing input.  From the initial state the detector
    processes position updates of 1000 vessels; the tracking table is then
    at the limit and every entry is fresh.  A further update, of a new
    vessel with an ordinary id, is not recorded and the table stays at 1000,
    as the claim says.  A further update of the vessel
    [vessels.constructor] is recorded: the read of the table under that id
    returns the method the table inherits from [Object.prototype], so the
    vessel does not count as new, no sweep runs, and the table grows to
    1001 entries. *)
Lemma tracking_limit_exceeded_at_inherited_name :
  let tracked calls :=
    previousPositions
      (fst (runChecks (M := RefMath.refMath) defaultOptions calls
              (initialState "self" "vessels.self" Examples.t0))) in
  let entry := {| pp_position := position Examples.passingTarget;
                  pp_timestamp := Examples.t0 |} in
  size (tracked Examples.fleet) = DETECTION.VESSEL_TRACKING_LIMIT /\
  (size (tracked (Examples.fleet ++ [(Examples.busyHost, "vessels.newcomer")])),
   tracked (Examples.fleet ++ [(Examples.busyHost, "vessels.newcomer")]) !! "newcomer") =
    (1000%nat, None) /\
  (size (tracked (Examples.fleet ++ [(Examples.busyHost, "vessels.constructor")])),
   tracked (Examples.fleet ++ [(Examples.busyHost, "vessels.constructor")])
     !! "constructor") =
    (1001%nat, Some entry).
Proof. vm_compute. auto. Qed.

(** With every tracked vessel fresh the sweep frees nothing and the newcomer
    is not recorded; with every tracked vessel long gone the sweep empties
    the table and the newcomer is its only entry. *)
Example full_table_fresh_skips_newcomer :
  let r := checkPositionJump (M := RefMath.refMath) defaultOptions Examples.emptyHost
             "newcomer" (Some Examples.ownVessel) (Examples.fullState Examples.t0) in
  (fst r, size (previousPositions (snd r)), previousPositions (snd r) !! "newcomer") =
  (false, DETECTION.VESSEL_TRACKING_LIMIT, None).
Proof. vm_compute. reflexivity. Qed.

Example full_table_stale_records_newcomer :
  let r := checkPositionJump (M := RefMath.refMath) defaultOptions Examples.emptyHost
             "newcomer" (Some Examples.ownVessel) (Examples.fullState 1) in
  (fst r, size (previousPositions (snd r)),
   match previousPositions (snd r) !! "newcomer" with
   | Some e => pp_timestamp e =? Examples.t0
   | None => false
   end) = (false, 1%nat, true).
Proof. vm_compute. reflexivity. Qed.

(** The vessel [vessels.__proto__], 600 m from the own vessel and without
    course or speed: the evaluation finds a threat, but neither table gets a
    key and no alarm is raised; the snapshot becomes the prototype of the
    tracking table.  The next update of that vessel, a degree of latitude
    away one second later, is compared with it and ends at the jump gate. *)
Example proto_id_is_not_recorded :
  let first :=
    checkCollisionForVessel (M := RefMath.refMath) defaultOptions
      (Examples.server Examples.t0
         [("vessels.self", Examples.ownVessel);
          ("vessels.__proto__", Examples.anchoredTarget)])
      "vessels.__proto__" Examples.quietState in
  let second :=
    checkCollisionForVessel (M := RefMath.refMath) defaultOptions
      (Examples.server (Examples.t0 + 1000)
         [("vessels.self", vesselAt 60 24 0 5 (Examples.t0 + 1000));
          ("vessels.__proto__", vesselAt 61 24 0 5 (Examples.t0 + 1000))])
      "vessels.__proto__" (snd (fst first)) in
  (match fst (fst first) with Evaluated c => isThreat c | _ => false end,
   snd first, alarmActive (snd (fst first)),
   size (collisions (snd (fst first))), size (previousPositions (snd (fst first)))) =
    (true, [], false, 0%nat, 0%nat) /\
  previousPositionsProto (snd (fst first)) =
    Some {| pp_position := position Examples.anchoredTarget;
            pp_timestamp := Examples.t0 |} /\
  fst (fst second) = Jumped.
Proof. vm_compute. auto. Qed.

(** ** The gates of [checkCollisionForVessel] *)

Section Gates.
Context {M : JSMath}.
Variable options : Options.

Lemma updateAlarmState_selfFullContext (b : bool) (s : State) :
  selfFullContext (fst (updateAlarmState b s)) = selfFullContext s.
Proof. unfold updateAlarmState. destruct b, (alarmActive s); reflexivity. Qed.

Lemma cleanupStaleCollisions_collisions (h : Host) (s : State) :
  collisions (fst (cleanupStaleCollisions options h s)) =
  filter (fun kv => collisionIsStale options h kv.1 = false) (collisions s).
Proof.
  unfold cleanupStaleCollisions. cbv zeta. destruct (Nat.ltb 0 _); [|reflexivity].
  rewrite updateAlarmState_collisions. reflexivity.
Qed.

Lemma cleanupStaleCollisions_selfFullContext (h : Host) (s : State) :
  selfFullContext (fst (cleanupStaleCollisions options h s)) = selfFullContext s.
Proof.
  unfold cleanupStaleCollisions. cbv zeta. destruct (Nat.ltb 0 _); [|reflexivity].
  rewrite updateAlarmState_selfFullContext. reflexivity.
Qed.

Lemma trackAndCleanup_selfFullContext (h : Host) (s : State) :
  selfFullContext (fst (trackAndCleanup options h s)) = selfFullContext s.
Proof.
  unfold trackAndCleanup. cbv zeta. destruct (N.eqb _ 0); [|reflexivity].
  rewrite cleanupStaleCollisions_selfFullContext, cleanupStalePositions_selfFullContext.
  reflexivity.
Qed.


(** On the cadence it sweeps the threats whose vessel has no fresh data. *)
Lemma trackAndCleanup_collisions (h : Host) (s : State) :
  collisions (fst (trackAndCleanup options h s)) =
  if cleanupDue s
  then filter (fun kv => collisionIsStale options h kv.1 = false) (collisions s)
  else collisions s.
Proof.
  unfold cleanupDue, trackAndCleanup. cbv zeta. cbn [callCount set_stats set_callCount].
  destruct (N.eqb _ 0); [|reflexivity].
  rewrite cleanupStaleCollisions_collisions, cleanupStalePositions_collisions.
  reflexivity.
Qed.

Lemma removeCollision_collisions (vid : string) (s : State) :
  collisions (fst (removeCollision vid s)) = delete vid (collisions s).
Proof.
  unfold removeCollision. destruct (collisions s !! vid) eqn:E.
  - rewrite updateAlarmState_collisions. reflexivity.
  - cbn [fst]. symmetry. apply delete_id. exact E.
Qed.

Lemma validContext_guards (ctx : string) :
  validContext ctx = true ->
  String.eqb ctx EmptyString || negb (includes_dot ctx) = false /\
  String.eqb (split_pop ctx) EmptyString || String.eqb (split_pop ctx) "vessels" = false.
Proof.
  unfold validContext. intros Hv. apply andb_prop in Hv as [H1 H2].
  apply negb_true_iff in H1, H2. auto.
Qed.

(** C6 (amended). The freshness gate is applied to the own vessel first and
    then to the target.  When the own snapshot is stale the evaluation ends
    there and leaves the state exactly as the head of the evaluation left
    it: the target's threat record is not touched.  When the own snapshot is
    available, fresh and valid and the target's snapshot is stale, the
    evaluation ends with the stale-target outcome, counts it, and the
    target's threat record is cleared. *)
Theorem freshness_gates (h : Host) (ctx : string) (s : State) (sv : VesselData) :
  validContext ctx = true ->
  getVesselData h (selfFullContext s) = Some sv ->
  (isDataFresh options h (Some sv) = false ->
     checkCollisionForVessel options h ctx s =
       (SelfStale, fst (trackAndCleanup options h s),
        snd (trackAndCleanup options h s))) /\
  (forall tv : VesselData,
     isDataFresh options h (Some sv) = true ->
     validateVesselData (Some sv) = true ->
     getVesselData h ctx = Some tv ->
     isDataFresh options h (Some tv) = false ->
     exists s' ev,
       checkCollisionForVessel options h ctx s = (TargetStale, s', ev) /\
       collisions s' =
         delete (split_pop ctx) (collisions (fst (trackAndCleanup options h s))) /\
       collisions s' !! split_pop ctx = None /\
       skippedStaleData (stats s') =
         (skippedStaleData (stats (fst (trackAndCleanup options h s))) + 1)%N).
Proof.
  intros Hv Hself.
  destruct (validContext_guards ctx Hv) as [Hc1 Hc2].
  pose proof (trackAndCleanup_selfFullContext h s) as Hctx.
  unfold checkCollisionForVessel. rewrite Hc1, Hc2.
  destruct (trackAndCleanup options h s) as [s1 ev1]. cbn [fst snd] in *.
  rewrite Hctx, Hself. split.
  - intros Hstale. rewrite Hstale. reflexivity.
  - intros tv Hfresh Hvalid Htarget Hstale.
    rewrite Hfresh, Hvalid, Htarget, Hstale. cbn [negb].
    pose proof (removeCollision_collisions (split_pop ctx)
                  (set_stats (bump_skippedStaleData (stats s1)) s1)) as Hrm.
    assert (Hst : stats (fst (removeCollision (split_pop ctx)
                    (set_stats (bump_skippedStaleData (stats s1)) s1))) =
                  bump_skippedStaleData (stats s1) \/
                  stats (fst (removeCollision (split_pop ctx)
                    (set_stats (bump_skippedStaleData (stats s1)) s1))) =
                  bump_alarmsTriggered (bump_skippedStaleData (stats s1))).
    { unfold removeCollision.
      destruct (collisions _ !! split_pop ctx); [|left; reflexivity].
      unfold updateAlarmState.
      destruct (hasCollisions _), (alarmActive _); cbn; auto. }
    destruct (removeCollision (split_pop ctx) _) as [s3 ev2]. cbn [fst] in Hrm, Hst.
    exists s3, (ev1 ++ ev2). split; [reflexivity|]. split; [exact Hrm|]. split.
    + rewrite Hrm. apply lookup_delete_eq.
    + destruct Hst as [-> | ->]; reflexivity.
Qed.
End Gates.

(** Both halves on the passing target, already a recorded threat: with the
    own snapshot stale the call ends at the own-vessel gate; with the own
    snapshot current and the target's stale the target's record is gone. *)
Lemma freshness_gates_witness :
  checkCollisionForVessel (M := RefMath.refMath) defaultOptions Examples.staleSelfHost
    "vessels.230099999" (Examples.alarmedState "230099999" Examples.passingTarget) =
    (SelfStale,
     fst (trackAndCleanup defaultOptions Examples.staleSelfHost
            (Examples.alarmedState "230099999" Examples.passingTarget)),
     snd (trackAndCleanup defaultOptions Examples.staleSelfHost
            (Examples.alarmedState "230099999" Examples.passingTarget))) /\
  exists s' ev,
    checkCollisionForVessel (M := RefMath.refMath) defaultOptions Examples.staleTargetHost
      "vessels.230099999" (Examples.alarmedState "230099999" Examples.passingTarget) =
      (TargetStale, s', ev) /\
    collisions s' !! "230099999" = None.
Proof.
  split.
  - exact (proj1 (freshness_gates (M := RefMath.refMath) defaultOptions
                    Examples.staleSelfHost "vessels.230099999"
                    (Examples.alarmedState "230099999" Examples.passingTarget)
                    Examples.ownVessel eq_refl eq_refl) eq_refl).
  - destruct (proj2 (freshness_gates (M := RefMath.refMath) defaultOptions
                       Examples.staleTargetHost "vessels.230099999"
                       (Examples.alarmedState "230099999" Examples.passingTarget)
                       (vesselAt 60 24 0 5 (Examples.t0 + 1000000)) eq_refl eq_refl)
                Examples.passingTarget eq_refl eq_refl eq_refl eq_refl)
      as (s' & ev & H1 & _ & H3 & _).
    exists s', ev. split; assumption.
Defined.

(** The claim C6 as stated fails: the own snapshot is stale, the target is a
    recorded threat, and after the evaluation the target's record and the
    alarm are still there. *)
Lemma stale_self_keeps_target_threat :
  let s := Examples.alarmedState "230099999" Examples.passingTarget in
  let r := checkCollisionForVessel (M := RefMath.refMath) defaultOptions
             Examples.staleSelfHost "vessels.230099999" s in
  isDataFresh defaultOptions Examples.staleSelfHost
    (getVesselData Examples.staleSelfHost "vessels.self") = false /\
  fst (fst r) = SelfStale /\
  isThreat (threat_collision <$> collisions s !! "230099999") = true /\
  collisions (snd (fst r)) !! "230099999" = collisions s !! "230099999" /\
  alarmActive (snd (fst r)) = true.
Proof. vm_compute. auto 10. Qed.

(** ** The position-jump gate *)

Section JumpGate.
Context {M : JSMath}.
Variable options : Options.



(** The sweep keeps the record of a vessel whose data is fresh. *)
Lemma sweep_keeps_fresh (h : Host) (vid : string) (m : gmap string Threat) :
  collisionIsStale options h vid = false ->
  filter (fun kv => collisionIsStale options h kv.1 = false) m !! vid = m !! vid.
Proof.
  intros Hkeep. destruct (m !! vid) as [x|] eqn:E.
  - apply map_lookup_filter_Some_2; [exact E | exact Hkeep].
  - apply map_lookup_filter_None_2. left. exact E.
Qed.

End JumpGate.



(** ** The alarm agrees with the threat table in every reachable state *)

Section AlarmInvariant.
Context {M : JSMath}.
Variable options : Options.

Lemma updateAlarmState_consistent (s : State) :
  alarmConsistent (fst (updateAlarmState (hasCollisions s) s)).
Proof.
  unfold alarmConsistent.
  rewrite updateAlarmState_alarmActive, updateAlarmState_hasCollisions. reflexivity.
Qed.

Lemma checkPositionJump_collisions (h : Host) (vid : string) (cur : option VesselData)
    (s : State) :
  collisions (snd (checkPositionJump options h vid cur s)) = collisions s /\
  alarmActive (snd (checkPositionJump options h vid cur s)) = alarmActive s.
Proof.
  assert (Hstore : forall e s0,
            collisions (storePrevious vid e s0) = collisions s0 /\
            alarmActive (storePrevious vid e s0) = alarmActive s0).
  { intros e s0. unfold storePrevious. destruct (storesOwn _ _); auto. }
  destruct (checkPositionJump_effect options h vid cur s)
    as [[_ ->] | [_ [-> | [-> | (c & _ & _ & [[-> _] | [-> _]])]]]];
    rewrite ?(proj1 (Hstore _ _)), ?(proj2 (Hstore _ _)),
            ?cleanupStalePositions_collisions, ?cleanupStalePositions_alarmActive; auto.
Qed.

Lemma cleanupStaleCollisions_consistent (h : Host) (s : State) :
  alarmConsistent s -> alarmConsistent (fst (cleanupStaleCollisions options h s)).
Proof.
  intros Hs. unfold cleanupStaleCollisions. cbv zeta.
  destruct (Nat.ltb 0 _) eqn:Hcleaned; [apply updateAlarmState_consistent|].
  cbn [fst]. apply Nat.ltb_ge in Hcleaned.
  assert (Hsame : filter (fun kv => collisionIsStale options h kv.1 = false) (collisions s)
                  = collisions s).
  { apply map_subseteq_size_eq; [apply map_filter_subseteq | lia]. }
  rewrite Hsame. unfold alarmConsistent in *. exact Hs.
Qed.

Lemma removeCollision_consistent (vid : string) (s : State) :
  alarmConsistent s -> alarmConsistent (fst (removeCollision vid s)).
Proof.
  intros Hs. unfold removeCollision.
  destruct (collisions s !! vid); [apply updateAlarmState_consistent | exact Hs].
Qed.

Lemma classifyAndRecord_consistent (vid : string) (sv tv : VesselData) (s : State) :
  alarmConsistent (snd (fst (classifyAndRecord options vid sv tv s))).
Proof.
  destruct (classifyAndRecord_shape options vid sv tv s) as (c & st & H).
  cbv zeta in H. rewrite H. cbn [fst snd]. apply updateAlarmState_consistent.
Qed.

Lemma checkCollisionForVessel_consistent (h : Host) (ctx : string) (s : State) :
  alarmConsistent s ->
  alarmConsistent (snd (fst (checkCollisionForVessel options h ctx s))).
Proof.
  apply (checkCollisionForVessel_preserves options alarmConsistent).
  - intros s0 st H. exact H.
  - intros s0 n H. exact H.
  - intros h0 s0 H. unfold alarmConsistent, hasCollisions in *.
    rewrite cleanupStalePositions_alarmActive, cleanupStalePositions_collisions. exact H.
  - intros h0 s0 H. apply cleanupStaleCollisions_consistent. exact H.
  - intros vid s0 H. apply removeCollision_consistent. exact H.
  - intros h0 vid cur s0 H. unfold alarmConsistent, hasCollisions in *.
    destruct (checkPositionJump_collisions h0 vid cur s0) as [-> ->]. exact H.
  - intros vid sv tv s0 _. apply classifyAndRecord_consistent.
Qed.

(** From the initial state on, the alarm is on exactly when the table holds
    a threat. *)
Lemma runChecks_consistent (calls : list (Host * string)) (s : State) :
  alarmConsistent s -> alarmConsistent (fst (runChecks options calls s)).
Proof.
  revert s. induction calls as [|[h ctx] rest IH]; intros s Hs; [exact Hs|].
  cbn [runChecks].
  pose proof (checkCollisionForVessel_consistent h ctx s Hs) as H1.
  destruct (checkCollisionForVessel options h ctx s) as [[o s1] ev1]. cbn [fst snd] in H1.
  specialize (IH s1 H1). destruct (runChecks options rest s1) as [s2 ev2]. exact IH.
Qed.

Lemma initialState_consistent (self full : string) (t : float) :
  alarmConsistent (initialState self full t).
Proof. reflexivity. Qed.
End AlarmInvariant.

(** * Further properties of the detector *)

(** ** When [calculateCPA] answers, and what its answers look like *)

Section CPAAnswers.
Context {M : JSMath}.

(** X1. [calculateCPA] answers exactly for pairs in which both snapshots
    carry a position with numeric coordinates, a course and a speed, none of
    them NaN; for every other pair it returns null. *)
Theorem calculateCPA_answers_iff_complete (v1 v2 : VesselData) :
  answered (calculateCPA v1 v2) = cpaComplete v1 && cpaComplete v2.
Proof.
  unfold calculateCPA, cpaInputs, cpaComplete, reportsNumber, answered.
  repeat match goal with
         | |- context [isNaN ?x] =>
             destruct (isNaN x); cbn [andb orb negb];
             rewrite ?andb_false_r, ?andb_true_r
         | |- context [match ?x with _ => _ end] =>
             lazymatch x with
             | context [match _ with _ => _ end] => fail
             | _ => idtac
             end;
             destruct x; cbn [andb orb negb latitude longitude];
             rewrite ?andb_false_r, ?andb_true_r
         end; reflexivity.
Qed.

(** X2. Every answer of [calculateCPA] is well formed: the reported TCPA is
    never negative; a diverging answer is not a parallel course and has an
    infinite CPA distance and a TCPA of 0; a parallel-course answer is not
    diverging and has an infinite TCPA and a relative speed of 0; and the
    reported relative speed is either 0 or not below the floor. *)
Theorem calculateCPA_answer_well_formed (v1 v2 : VesselData) (r : CPAResult) :
  calculateCPA v1 v2 = Some r ->
  js_lt (tcpaSeconds r) 0 = false /\
  (diverging r = true ->
     parallelCourse r = false /\ cpaDistance r = Infinity /\ tcpaSeconds r = 0) /\
  (parallelCourse r = true ->
     diverging r = false /\ tcpaSeconds r = Infinity /\ relativeSpeed r = 0) /\
  (relativeSpeed r = 0 \/
   js_lt (relativeSpeed r) DETECTION.RELATIVE_VELOCITY_FLOOR = false).
Proof.
  unfold calculateCPA.
  destruct (cpaInputs v1 v2) as [[[[[c1 s1] lat1] lon1] [[[c2 s2] lat2] lon2]]|];
    [|discriminate].
  cbv zeta.
  destruct (js_lt (relSpeed c1 s1 c2 s2) DETECTION.RELATIVE_VELOCITY_FLOOR) eqn:Hfloor.
  - intros [= <-]. cbn. repeat split; auto; discriminate.
  - destruct (js_lt (rawTcpa _ _ _ _) 0) eqn:Htcpa; intros [= <-]; cbn.
    + repeat split; auto; discriminate.
    + repeat split; auto; discriminate.
Qed.
End CPAAnswers.

(** The diverging pair of test 3.3 gives a well-formed answer. *)
Lemma calculateCPA_answer_well_formed_witness :
  exists r,
    calculateCPA (M := RefMath.refMath) Examples.ownVessel Examples.divergingTarget
      = Some r /\
    js_lt (tcpaSeconds r) 0 = false /\ diverging r = true /\ parallelCourse r = false.
Proof.
  eexists. split; [vm_compute; reflexivity|].
  split; [|split; [reflexivity|]].
  - refine (proj1 (calculateCPA_answer_well_formed (M := RefMath.refMath)
              Examples.ownVessel Examples.divergingTarget _ _)).
    vm_compute. reflexivity.
  - reflexivity.
Defined.

(** ** The two classifiers together *)

Section Classifiers.
Context {M : JSMath}.
Variable options : Options.

Lemma hasCourse_false_no_answer (sv tv : VesselData) :
  hasCourse sv && hasCourse tv = false -> calculateCPA sv tv = None.
Proof.
  intros H. destruct (calculateCPA sv tv) as [r|] eqn:E; [|reflexivity].
  destruct (calculateCPA_Some_hasCourse sv tv r E) as [H1 H2].
  rewrite H1, H2 in H. discriminate.
Qed.

Lemma geometricThreshold_set_stats (st : Stats) (s : State) :
  geometricThreshold options (set_stats st s) = geometricThreshold options s.
Proof. reflexivity. Qed.

(** The fallback, when one of the vessels lacks course or speed. *)
Lemma checkGeometricCollision_decision (sv tv : VesselData) (s : State) :
  hasCourse sv && hasCourse tv = false ->
  isThreat (fst (checkGeometricCollision options (Some sv) tv s)) =
    match calculateDistance (position sv) (position tv) with
    | Some d => js_lt d (geometricThreshold options s)
    | None => false
    end /\
  (forall c, fst (checkGeometricCollision options (Some sv) tv s) = Some c ->
             method c = "GEOMETRIC"%string).
Proof.
  intros H. unfold checkGeometricCollision. rewrite H.
  destruct (position sv) as [ps|]; [|split; [reflexivity | discriminate]].
  destruct (position tv) as [pt|].
  2: { split; [|discriminate]. cbn. reflexivity. }
  cbv zeta. rewrite geometricThreshold_set_stats.
  destruct (calculateDistance (Some ps) (Some pt)) as [d|];
    [|split; [reflexivity | discriminate]].
  destruct (js_lt d (geometricThreshold options s)); split;
    try reflexivity; try discriminate.
  intros c [= <-]. reflexivity.
Qed.

(** X3. A diverging pair is never classified as a threat, however close the
    vessels are: the CPA check declines, the fallback declines because both
    vessels report course and speed, and the vessel's record is removed
    from the threat table. *)
Theorem diverging_pair_is_never_a_threat
    (vesselId : string) (sv tv : VesselData) (s : State) (r : CPAResult) :
  calculateCPA sv tv = Some r ->
  diverging r = true ->
  fst (fst (classifyAndRecord options vesselId sv tv s)) = Evaluated None /\
  collisions (snd (fst (classifyAndRecord options vesselId sv tv s))) !! vesselId = None.
Proof.
  intros Hr Hd.
  rewrite (classifyAndRecord_safe options vesselId sv tv s r Hr
             (checkCPACollision_diverging options sv tv s r Hr Hd)).
  cbn [fst snd]. split; [reflexivity|].
  rewrite updateAlarmState_collisions. cbn [collisions set_collisions set_stats].
  apply lookup_delete_eq.
Qed.

(** X4. When a vessel lacks course or speed, the pair is classified by
    distance alone: it is a threat exactly when the distance between the two
    positions can be computed and is below the geometric threshold (twice
    the safe passing distance, plus the hysteresis margin while the alarm is
    active), and the record then carries the method GEOMETRIC. *)
Theorem missing_course_is_classified_by_distance
    (vesselId : string) (sv tv : VesselData) (s : State) :
  hasCourse sv && hasCourse tv = false ->
  exists c,
    fst (fst (classifyAndRecord options vesselId sv tv s)) = Evaluated c /\
    isThreat c =
      match calculateDistance (position sv) (position tv) with
      | Some d => js_lt d (geometricThreshold options s)
      | None => false
      end /\
    (forall x, c = Some x -> method x = "GEOMETRIC"%string) /\
    geometricThreshold options s =
      (if alarmActive s
       then safePassingDistanceMeters options * 2 + alarmHysteresisMeters options
       else safePassingDistanceMeters options * 2).
Proof.
  intros H.
  pose proof (checkCPACollision_no_result options sv tv s
                (hasCourse_false_no_answer sv tv H)) as Hc.
  pose proof (checkCPACollision_state options sv tv s) as Hs.
  destruct (checkGeometricCollision_decision sv tv
              (set_stats (bump_cpaCalculations (stats s)) s) H) as [Hd Hm].
  rewrite geometricThreshold_set_stats in Hd.
  unfold classifyAndRecord.
  destruct (checkCPACollision options sv tv s) as [c' s1]. cbn [fst snd] in Hc, Hs.
  subst c' s1.
  destruct (checkGeometricCollision options (Some sv) tv _) as [c s2].
  cbn [fst] in Hd, Hm. exists c.
  destruct c; destruct (updateAlarmState _ _); cbn [fst]; auto.
Qed.

(** X5. Every threat the evaluation records is justified by one of the two
    classifiers.  A CPA record comes from an answer of [calculateCPA] that
    is not diverging, whose CPA distance is not beyond the active threshold
    and whose TCPA is not beyond the time window unless the pair is on a
    parallel course.  A GEOMETRIC record is only made when a vessel lacks
    course or speed, for a distance below the geometric threshold. *)
Theorem recorded_threat_is_justified
    (vesselId : string) (sv tv : VesselData) (s s' : State) (c : Collision)
    (ev : list Notification) :
  classifyAndRecord options vesselId sv tv s = (Evaluated (Some c), s', ev) ->
  (exists r,
     calculateCPA sv tv = Some r /\ c = cpaThreat sv tv r /\
     diverging r = false /\
     js_gt (cpaDistance r) (cpaThreshold options s) = false /\
     (js_gt (tcpaSeconds r / 60) (timeWindowMinutes options) = false \/
      parallelCourse r = true)) \/
  (hasCourse sv && hasCourse tv = false /\
   exists d bearing reason,
     c = GeometricCollision d bearing reason /\
     calculateDistance (position sv) (position tv) = Some d /\
     js_lt d (geometricThreshold options s) = true).
Proof.
  unfold classifyAndRecord, checkCPACollision.
  destruct (calculateCPA sv tv) as [r|] eqn:Hr.
  - destruct (calculateCPA_Some_hasCourse sv tv r Hr) as [H1 H2].
    destruct (diverging r) eqn:Hd.
    { rewrite checkGeometricCollision_has_course by assumption.
      destruct (updateAlarmState _ _). discriminate. }
    rewrite cpaThreshold_set_stats.
    destruct (js_gt (cpaDistance r) (cpaThreshold options s)) eqn:Hgt.
    { rewrite checkGeometricCollision_has_course by assumption.
      destruct (updateAlarmState _ _). discriminate. }
    destruct (js_gt (tcpaSeconds r / 60) (timeWindowMinutes options)) eqn:Hw;
      destruct (parallelCourse r) eqn:Hp; cbn [andb negb].
    2: { rewrite checkGeometricCollision_has_course by assumption.
         destruct (updateAlarmState _ _). discriminate. }
    all: destruct (updateAlarmState _ _); intros [= <- _ _]; left; exists r;
      unfold cpaThreat; rewrite Hp; auto 10.
  - unfold checkGeometricCollision.
    destruct (position sv) as [ps|]; [|destruct (updateAlarmState _ _); discriminate].
    destruct (position tv) as [pt|]; [|destruct (updateAlarmState _ _); discriminate].
    destruct (hasCourse sv && hasCourse tv) eqn:Hc;
      [destruct (updateAlarmState _ _); discriminate|].
    cbv zeta. rewrite geometricThreshold_set_stats, geometricThreshold_set_stats.
    destruct (calculateDistance (Some ps) (Some pt)) as [d|];
      [|destruct (updateAlarmState _ _); discriminate].
    destruct (js_lt d (geometricThreshold options s)) eqn:Hlt;
      [|destruct (updateAlarmState _ _); discriminate].
    destruct (updateAlarmState _ _). intros [= <- _ _]. right.
    split; [reflexivity|]. eauto 10.
Qed.
End Classifiers.

(** The diverging target of test 3.3, already a recorded threat, is dropped
    by the evaluation. *)
Lemma diverging_pair_is_never_a_threat_witness :
  let r := classifyAndRecord (M := RefMath.refMath) defaultOptions "230099999"
             Examples.ownVessel Examples.divergingTarget
             (Examples.alarmedState "230099999" Examples.divergingTarget) in
  fst (fst r) = Evaluated None /\ collisions (snd (fst r)) !! "230099999" = None.
Proof.
  refine (diverging_pair_is_never_a_threat (M := RefMath.refMath) defaultOptions
            "230099999" Examples.ownVessel Examples.divergingTarget
            (Examples.alarmedState "230099999" Examples.divergingTarget) _ _ _).
  - vm_compute. reflexivity.
  - reflexivity.
Defined.

(** A target without course and speed, 600 m away: a threat against the
    geometric threshold of 1000 m. *)
Lemma missing_course_is_classified_by_distance_witness :
  exists c,
    fst (fst (classifyAndRecord (M := RefMath.refMath) defaultOptions "230099999"
                Examples.ownVessel Examples.anchoredTarget Examples.quietState))
      = Evaluated c /\
    isThreat c = true.
Proof.
  destruct (missing_course_is_classified_by_distance (M := RefMath.refMath)
              defaultOptions "230099999" Examples.ownVessel Examples.anchoredTarget
              Examples.quietState eq_refl) as (c & H1 & H2 & _).
  exists c. split; [exact H1|]. rewrite H2. vm_compute. reflexivity.
Defined.

(** The passing target with the alarm on: the record made is the CPA record
    of the answer of [calculateCPA]. *)
Lemma recorded_threat_is_justified_witness :
  (exists r,
     calculateCPA (M := RefMath.refMath) Examples.ownVessel Examples.passingTarget
       = Some r /\
     cpaThreat (M := RefMath.refMath) Examples.ownVessel Examples.passingTarget
       Examples.passingCPA =
       cpaThreat (M := RefMath.refMath) Examples.ownVessel Examples.passingTarget r /\
     diverging r = false /\
     js_gt (cpaDistance r)
       (cpaThreshold defaultOptions
          (Examples.alarmedState "230099999" Examples.passingTarget)) = false /\
     (js_gt (tcpaSeconds r / 60) (timeWindowMinutes defaultOptions) = false \/
      parallelCourse r = true)) \/
  (hasCourse Examples.ownVessel && hasCourse Examples.passingTarget = false /\
   exists d bearing reason,
     cpaThreat (M := RefMath.refMath) Examples.ownVessel Examples.passingTarget
       Examples.passingCPA = GeometricCollision d bearing reason /\
     calculateDistance (M := RefMath.refMath) (position Examples.ownVessel)
       (position Examples.passingTarget) = Some d /\
     js_lt d (geometricThreshold defaultOptions
                (Examples.alarmedState "230099999" Examples.passingTarget)) = true).
Proof.
  refine (recorded_threat_is_justified (M := RefMath.refMath) defaultOptions
            "230099999" Examples.ownVessel Examples.passingTarget
            (Examples.alarmedState "230099999" Examples.passingTarget) _ _ _ _).
  vm_compute. reflexivity.
Defined.

(** ** Validation of a whole snapshot *)

(** X6. [validateVesselUpdate] accepts a snapshot exactly when its position,
    if present, has numeric coordinates within 90 and 180 degrees, its
    speed, if present, is a number that is not negative, and its course, if
    present, is a number from 0 to 2 pi; it reports at most one violation
    per field, four in all.  [validateVesselData] accepts a snapshot exactly
    when it has a position and [validateVesselUpdate] accepts it. *)
Theorem validateVesselUpdate_accepts_iff (v : VesselData) :
  valid (validateVesselUpdate v) =
    positionOk (position v) && speedOk (speed v) && courseOk (course v) /\
  (length (errors (validateVesselUpdate v)) <= 4)%nat /\
  validateVesselData (Some v) =
    hasPosition v && positionOk (position v) && speedOk (speed v) &&
    courseOk (course v).
Proof.
  assert (Hpos : exists n, length (positionErrors (position v)) = n /\ (n <= 2)%nat /\
                           Nat.eqb n 0 = positionOk (position v)).
  { unfold positionErrors, positionOk, latitudeErrors, longitudeErrors, coordinateOk.
    destruct (position v) as [[lat lon]|]; cbn [latitude longitude];
      [|exists 0%nat; auto].
    destruct lat as [x|], lon as [y|];
      repeat match goal with
             | |- context [isNaN ?z] => destruct (isNaN z); cbn [negb andb]
             | |- context [js_gt ?a ?b] => destruct (js_gt a b); cbn [negb andb]
             end; eexists; (split; [reflexivity|]); cbn; auto. }
  assert (Hsp : exists n, length (speedErrors (speed v)) = n /\ (n <= 1)%nat /\
                          Nat.eqb n 0 = speedOk (speed v)).
  { unfold speedErrors, speedOk. destruct (speed v) as [x|]; [|exists 0%nat; auto].
    destruct (isNaN x); [exists 1%nat; auto|].
    destruct (js_lt x 0); eexists; (split; [reflexivity|]); cbn; auto. }
  assert (Hco : exists n, length (courseErrors (course v)) = n /\ (n <= 1)%nat /\
                          Nat.eqb n 0 = courseOk (course v)).
  { unfold courseErrors, courseOk. destruct (course v) as [x|]; [|exists 0%nat; auto].
    destruct (isNaN x); [exists 1%nat; auto|].
    destruct (js_lt x 0 || js_gt x (2 * Math_PI));
      eexists; (split; [reflexivity|]); cbn; auto. }
  destruct Hpos as (n1 & L1 & B1 & E1), Hsp as (n2 & L2 & B2 & E2),
           Hco as (n3 & L3 & B3 & E3).
  assert (Hvalid : valid (validateVesselUpdate v) =
                   positionOk (position v) && speedOk (speed v) && courseOk (course v)).
  { unfold validateVesselUpdate. cbn [valid].
    rewrite !length_app, L1, L2, L3, <- E1, <- E2, <- E3.
    destruct n1, n2, n3; reflexivity. }
  split; [exact Hvalid|]. split.
  - unfold validateVesselUpdate. cbn [errors]. rewrite !length_app, L1, L2, L3. lia.
  - unfold validateVesselData, hasPosition. rewrite Hvalid.
    destruct (position v); reflexivity.
Qed.

(** ** The position-jump check *)

Section JumpCheck.
Context {M : JSMath}.
Variable options : Options.

(** X7. When [detectPositionJump] reports a jump there is a previous entry
    with a position and a timestamp, the distance from it is a number, the
    time since it is not zero or negative, and the implied speed, distance
    over elapsed seconds, exceeds 45 m/s (the maximum vessel speed of 30 m/s
    times the factor 1.5).  An update that is not later than the previous
    one is therefore never reported as a jump. *)
Theorem detectPositionJump_report
    (cur : VesselData) (prev : option PreviousPosition)
    (impliedSpeed maxAllowedSpeed distance timeDelta : float) :
  detectPositionJump cur prev = Jump impliedSpeed maxAllowedSpeed distance timeDelta ->
  exists p,
    prev = Some p /\
    truthy (pp_timestamp p) = true /\ truthy (timestamp cur) = true /\
    distance = haversineDistance (pp_position p) (position cur) /\
    isNaN distance = false /\
    timeDelta = (timestamp cur - pp_timestamp p) / 1000 /\
    js_le timeDelta 0 = false /\
    impliedSpeed = distance / timeDelta /\
    maxAllowedSpeed = 45 /\
    js_gt impliedSpeed 45 = true.
Proof.
  unfold detectPositionJump.
  destruct prev as [p|]; [|discriminate].
  destruct (pp_position p) eqn:Hpp; [|discriminate].
  destruct (truthy (pp_timestamp p)) eqn:Ht1; [|discriminate]. cbn [negb].
  destruct (position cur) eqn:Hpc; [|discriminate].
  destruct (truthy (timestamp cur)) eqn:Ht2; [|discriminate]. cbn [negb].
  cbv zeta.
  destruct (isNaN (haversineDistance _ _)) eqn:Hnan; [discriminate|].
  destruct (js_le _ 0) eqn:Hle; [discriminate|].
  destruct (js_gt _ _) eqn:Hgt; [|discriminate].
  intros [= <- <- <- <-]. exists p. rewrite Hpp. repeat split; auto; reflexivity.
Qed.

Lemma set_previousPositions_id (s : State) :
  set_previousPositions (previousPositions s) s = s.
Proof. destruct s. reflexivity. Qed.

Lemma set_collisions_id (s : State) : set_collisions (collisions s) s = s.
Proof. destruct s. reflexivity. Qed.

(** X8. [checkPositionJump] stores what it accepts and nothing else, for
    every vessel id other than ["__proto__"].  When it reports a jump the
    tracking table is left as it was, so the next update is still compared
    with the last accepted position.  When it reports no jump for a snapshot
    with a position, and the table is below the limit or already tracks the
    vessel, the vessel's entry afterwards is that snapshot's position and
    timestamp and no other entry has changed. *)
Theorem checkPositionJump_stores_accepted
    (h : Host) (vesselId : string) (cur : VesselData) (s : State) :
  is_Some (position cur) ->
  vesselId <> "__proto__"%string ->
  (size (previousPositions s) < DETECTION.VESSEL_TRACKING_LIMIT)%nat \/
    is_Some (previousPositions s !! vesselId) ->
  let r := checkPositionJump options h vesselId (Some cur) s in
  (fst r = true -> previousPositions (snd r) = previousPositions s) /\
  (fst r = false ->
     previousPositions (snd r) =
       <[vesselId := {| pp_position := position cur; pp_timestamp := timestamp cur |}]>
         (previousPositions s) /\
     previousPositions (snd r) !! vesselId =
       Some {| pp_position := position cur; pp_timestamp := timestamp cur |}).
Proof.
  intros [p Hp] Hname Hroom r. subst r. unfold checkPositionJump. cbv zeta.
  destruct (match readPrevious s vesselId with
            | TVEntry _ => _ | _ => _ end).
  { cbn [fst snd]. split; [reflexivity | discriminate]. }
  rewrite Hp.
  assert (Hguard : Nat.leb DETECTION.VESSEL_TRACKING_LIMIT (size (previousPositions s))
                   && negb (valueTruthy (readPrevious s vesselId)) = false).
  { destruct Hroom as [Hlt|[e Hknown]].
    - apply Nat.leb_gt in Hlt. rewrite Hlt. reflexivity.
    - unfold readPrevious. rewrite Hknown. apply andb_false_r. }
  rewrite Hguard, storePrevious_other by exact Hname.
  cbn [fst snd previousPositions set_previousPositions].
  split; [discriminate|]. intros _. split; [reflexivity|]. apply lookup_insert_eq.
Qed.
End JumpCheck.

(** The jump of the passing target from [Examples.jumpedFrom]: 113 km in one
    second. *)
Lemma detectPositionJump_report_witness :
  exists p i d t,
    detectPositionJump (M := RefMath.refMath) Examples.passingTarget
      (Some Examples.jumpedFrom) = Jump i 45 d t /\
    Some Examples.jumpedFrom = Some p /\
    js_le t 0 = false /\ js_gt i 45 = true.
Proof.
  destruct (detectPositionJump_report (M := RefMath.refMath) Examples.passingTarget
              (Some Examples.jumpedFrom)
              (haversineDistance (M := RefMath.refMath)
                 (pp_position Examples.jumpedFrom) (position Examples.passingTarget)
               / ((timestamp Examples.passingTarget
                   - pp_timestamp Examples.jumpedFrom) / 1000))
              45
              (haversineDistance (M := RefMath.refMath)
                 (pp_position Examples.jumpedFrom) (position Examples.passingTarget))
              ((timestamp Examples.passingTarget
                - pp_timestamp Examples.jumpedFrom) / 1000))
    as (p & Hp & _ & _ & _ & _ & _ & Ht & _ & _ & Hi).
  - vm_compute. reflexivity.
  - exists p. do 3 eexists. split; [vm_compute; reflexivity|].
    split; [exact Hp|]. split; [exact Ht | exact Hi].
Defined.

(** A first sighting: the passing target is stored in an empty table. *)
Lemma checkPositionJump_stores_accepted_witness :
  previousPositions
    (snd (checkPositionJump (M := RefMath.refMath) defaultOptions Examples.freshHost
            "230099999" (Some Examples.passingTarget) Examples.quietState))
    !! "230099999" =
  Some {| pp_position := position Examples.passingTarget;
          pp_timestamp := timestamp Examples.passingTarget |}.
Proof.
  refine (proj2 (proj2 (checkPositionJump_stores_accepted (M := RefMath.refMath)
            defaultOptions Examples.freshHost "230099999" Examples.passingTarget
            Examples.quietState _ _ _) eq_refl)).
  - eexists. reflexivity.
  - discriminate.
  - left. vm_compute. lia.
Defined.

(** ** Removal and the sweeps are idempotent *)

Section Idempotence.
Context {M : JSMath}.
Variable options : Options.

(** X9. [removeCollision] is idempotent: removing a vessel that has no
    record changes nothing and emits nothing, and removing a vessel twice is
    the same as removing it once, the second removal emitting nothing. *)
Theorem removeCollision_idempotent (vesselId : string) (s : State) :
  (collisions s !! vesselId = None -> removeCollision vesselId s = (s, [])) /\
  removeCollision vesselId (fst (removeCollision vesselId s)) =
    (fst (removeCollision vesselId s), []).
Proof.
  assert (Habsent : forall s0, collisions s0 !! vesselId = None ->
                               removeCollision vesselId s0 = (s0, [])).
  { intros s0 H. unfold removeCollision. rewrite H. reflexivity. }
  split; [apply Habsent|]. apply Habsent.
  rewrite removeCollision_collisions. apply lookup_delete_eq.
Qed.

Lemma filter_twice {A} (P : string * A -> Prop) `{!forall x, Decision (P x)}
    (m : gmap string A) :
  filter P (filter P m) = filter P m.
Proof.
  apply map_filter_id. intros i x Hix.
  apply map_lookup_filter_Some in Hix as [_ HP]. exact HP.
Qed.

(** X10. The periodic sweeps are idempotent: sweeping the tracking table or
    the threat table a second time, against the same clock and the same
    server data, changes nothing, and the second sweep of the threat table
    emits no notification. *)
Theorem sweeps_idempotent (h : Host) (s : State) :
  cleanupStalePositions options h (cleanupStalePositions options h s) =
    cleanupStalePositions options h s /\
  cleanupStaleCollisions options h (fst (cleanupStaleCollisions options h s)) =
    (fst (cleanupStaleCollisions options h s), []).
Proof.
  split.
  - pose proof (cleanupStalePositions_previousPositions options h s) as Hpp.
    set (s1 := cleanupStalePositions options h s) in *.
    unfold cleanupStalePositions at 1. cbv zeta.
    rewrite Hpp, filter_twice, <- Hpp, Nat.sub_diag. cbn [Nat.ltb Nat.leb].
    apply set_previousPositions_id.
  - pose proof (cleanupStaleCollisions_collisions options h s) as Hc.
    set (s1 := fst (cleanupStaleCollisions options h s)) in *.
    unfold cleanupStaleCollisions at 1. cbv zeta.
    rewrite Hc, filter_twice, <- Hc, Nat.sub_diag. cbn [Nat.ltb Nat.leb].
    rewrite set_collisions_id. reflexivity.
Qed.
End Idempotence.

(** ** An evaluation, gate by gate *)

Section GateSteps.
Context {M : JSMath}.
Variable options : Options.

(** A context the detector does not accept ends the call before anything is
    counted. *)
Lemma checkCollisionForVessel_invalid_context (h : Host) (ctx : string) (s : State) :
  validContext ctx = false ->
  checkCollisionForVessel options h ctx s = (InvalidContext, s, []).
Proof.
  unfold validContext, checkCollisionForVessel. intros Hv.
  destruct (String.eqb ctx EmptyString || negb (includes_dot ctx)); [reflexivity|].
  destruct (String.eqb (split_pop ctx) EmptyString || String.eqb (split_pop ctx) "vessels");
    [reflexivity | discriminate].
Qed.

(** For an accepted context the call is its head followed by one gate step. *)
Lemma checkCollisionForVessel_gateStep (h : Host) (ctx : string) (s : State) :
  validContext ctx = true ->
  exists o s' ev2,
    checkCollisionForVessel options h ctx s =
      (o, s', snd (trackAndCleanup options h s) ++ ev2) /\
    gateStep options h ctx (fst (trackAndCleanup options h s)) o s' ev2.
Proof.
  intros Hv. destruct (validContext_guards ctx Hv) as [Hc1 Hc2].
  unfold checkCollisionForVessel. rewrite Hc1, Hc2.
  destruct (trackAndCleanup options h s) as [s1 ev1]. cbn [fst snd].
  destruct (getVesselData h (selfFullContext s1)) as [sv|] eqn:Hself.
  2: { exists SelfNoData, s1, []. rewrite app_nil_r. split; [reflexivity|].
       constructor. exact Hself. }
  destruct (isDataFresh options h (Some sv)) eqn:Hsf; cbn [negb].
  2: { exists SelfStale, s1, []. rewrite app_nil_r. split; [reflexivity|].
       econstructor; eassumption. }
  destruct (validateVesselData (Some sv)) eqn:Hsval; cbn [negb].
  2: { exists SelfInvalid, s1, []. rewrite app_nil_r. split; [reflexivity|].
       econstructor; eassumption. }
  assert (Hready : selfReady options h s1 sv) by (unfold selfReady; auto).
  destruct (getVesselData h ctx) as [tv|] eqn:Htarget.
  2: { destruct (removeCollision (split_pop ctx) s1) as [s2 ev2] eqn:Hrm.
       exists TargetNoData, s2, ev2. split; [reflexivity|].
       change s2 with (fst (s2, ev2)). change ev2 with (snd (s2, ev2)) at 2.
       rewrite <- Hrm. econstructor; eassumption. }
  destruct (isDataFresh options h (Some tv)) eqn:Htf; cbn [negb].
  2: { destruct (removeCollision (split_pop ctx) _) as [s2 ev2] eqn:Hrm.
       exists TargetStale, s2, ev2. split; [reflexivity|].
       change s2 with (fst (s2, ev2)). change ev2 with (snd (s2, ev2)) at 2.
       rewrite <- Hrm. econstructor; eassumption. }
  destruct (validateVesselData (Some tv)) eqn:Htval; cbn [negb].
  2: { destruct (removeCollision (split_pop ctx) s1) as [s2 ev2] eqn:Hrm.
       exists TargetInvalid, s2, ev2. split; [reflexivity|].
       change s2 with (fst (s2, ev2)). change ev2 with (snd (s2, ev2)) at 2.
       rewrite <- Hrm. econstructor; eassumption. }
  assert (Htready : targetReady options h ctx tv) by (unfold targetReady; auto).
  destruct (checkPositionJump options h (split_pop ctx) (Some tv) s1)
    as [jump s2] eqn:Hjump.
  destruct jump.
  { exists Jumped, s2, []. rewrite app_nil_r. split; [reflexivity|].
    econstructor; eassumption. }
  fold (beyondRange options sv tv).
  destruct (beyondRange options sv tv) eqn:Hrange.
  { destruct (removeCollision (split_pop ctx) _) as [s3 ev2] eqn:Hrm.
    exists OutOfRange, s3, ev2. split; [reflexivity|].
    change s3 with (fst (s3, ev2)). change ev2 with (snd (s3, ev2)) at 2.
    rewrite <- Hrm. econstructor; eassumption. }
  destruct (classifyAndRecord options (split_pop ctx) sv tv s2) as [[o s3] ev2] eqn:Hcl.
  exists o, s3, ev2. split; [reflexivity|].
  eapply gate_evaluated; eassumption.
Qed.
End GateSteps.

(** ** What an evaluation does to the threat table *)

Section TableEffects.
Context {M : JSMath}.
Variable options : Options.

Lemma gateStep_target_record (h : Host) (ctx : string) (s1 s' : State)
    (o : Outcome) (ev : list Notification) :
  gateStep options h ctx s1 o s' ev ->
  split_pop ctx <> "__proto__"%string ->
  collisions s' !! split_pop ctx =
    match o with
    | Evaluated (Some c) =>
        Some {| threat_collision := c; threat_vesselId := split_pop ctx;
                threat_position :=
                  match getVesselData h ctx with
                  | Some tv => position tv
                  | None => None
                  end |}
    | Evaluated None | TargetNoData | TargetStale | TargetInvalid | OutOfRange => None
    | _ => collisions s1 !! split_pop ctx
    end.
Proof.
  intros Hstep Hname.
  destruct Hstep as [ | | | | | | sv tv s2 Hs Ht Hj | sv tv s2 Hs Ht Hj Hr
                      | sv tv s2 o s3 ev Hs Ht Hj Hr Hcl ];
    try reflexivity;
    try (rewrite removeCollision_collisions; apply lookup_delete_eq).
  - pose proof (checkPositionJump_collisions options h (split_pop ctx) (Some tv) s1)
      as [Hc _].
    rewrite Hj in Hc. cbn [snd] in Hc. rewrite Hc. reflexivity.
  - destruct Ht as (Htv & _ & _). rewrite Htv.
    destruct (classifyAndRecord_shape options (split_pop ctx) sv tv s2)
      as (c & st & Hshape). cbv zeta in Hshape.
    rewrite Hshape in Hcl. injection Hcl as <- <- <-.
    rewrite updateAlarmState_collisions.
    destruct c; cbn [collisions set_collisions].
    + rewrite assignOwn_other by exact Hname. apply lookup_insert_eq.
    + apply lookup_delete_eq.
Qed.

Lemma gateStep_other_records (h : Host) (ctx : string) (s1 s' : State)
    (o : Outcome) (ev : list Notification) (w : string) :
  gateStep options h ctx s1 o s' ev ->
  w <> split_pop ctx ->
  collisions s' !! w = collisions s1 !! w.
Proof.
  intros Hstep Hw.
  destruct Hstep as [ | | | | | | sv tv s2 Hs Ht Hj | sv tv s2 Hs Ht Hj Hr
                      | sv tv s2 o s3 ev Hs Ht Hj Hr Hcl ];
    try reflexivity;
    try (rewrite removeCollision_collisions; apply lookup_delete_ne; congruence);
    pose proof (checkPositionJump_collisions options h (split_pop ctx) (Some tv) s1)
      as [Hc _];
    rewrite Hj in Hc; cbn [snd] in Hc.
  - rewrite Hc. reflexivity.
  - rewrite removeCollision_collisions, lookup_delete_ne by congruence.
    cbn [collisions set_stats]. rewrite Hc. reflexivity.
  - destruct (classifyAndRecord_shape options (split_pop ctx) sv tv s2)
      as (c & st & Hshape). cbv zeta in Hshape.
    rewrite Hshape in Hcl. injection Hcl as <- <- <-.
    rewrite updateAlarmState_collisions.
    destruct c; cbn [collisions set_collisions set_stats].
    + rewrite assignOwn_lookup_ne by congruence. rewrite Hc. reflexivity.
    + rewrite lookup_delete_ne by congruence. rewrite Hc. reflexivity.
Qed.

Lemma sweep_drops_stale (h : Host) (w : string) (m : gmap string Threat) :
  collisionIsStale options h w = true ->
  filter (fun kv => collisionIsStale options h kv.1 = false) m !! w = None.
Proof.
  intros Hstale. apply map_lookup_filter_None_2. right.
  intros x _ Hkeep. cbn in Hkeep. congruence.
Qed.

(** X11. After an evaluation of an accepted context, for a vessel id other
    than ["__proto__"], the target's entry in
    the threat table is decided by the way the evaluation ended: a threat
    verdict leaves exactly the new record, with the vessel id and the
    target's position; a safe verdict, missing, stale or invalid target
    data, and a target out of range leave no record; an evaluation that
    ends at an own-vessel gate or at the jump gate leaves the entry as the
    head of the evaluation left it. *)
Theorem outcome_decides_target_record
    (h : Host) (ctx : string) (s s' : State) (o : Outcome) (ev : list Notification) :
  validContext ctx = true ->
  split_pop ctx <> "__proto__"%string ->
  checkCollisionForVessel options h ctx s = (o, s', ev) ->
  collisions s' !! split_pop ctx =
    match o with
    | Evaluated (Some c) =>
        Some {| threat_collision := c; threat_vesselId := split_pop ctx;
                threat_position :=
                  match getVesselData h ctx with
                  | Some tv => position tv
                  | None => None
                  end |}
    | Evaluated None | TargetNoData | TargetStale | TargetInvalid | OutOfRange => None
    | _ => collisions (fst (trackAndCleanup options h s)) !! split_pop ctx
    end.
Proof.
  intros Hv Hname Hcall.
  destruct (checkCollisionForVessel_gateStep options h ctx s Hv)
    as (o' & s'' & ev2 & Heq & Hstep).
  rewrite Hcall in Heq. inversion Heq; subst.
  apply (gateStep_target_record h ctx _ _ _ _ Hstep Hname).
Qed.

(** X12. An evaluation never changes the threat record of a vessel other
    than its target, with one exception: on the calls on which the cleanup
    is due (every 100th accepted call) the records of the vessels that have
    no fresh data on the server are removed. *)
Theorem other_records_are_kept
    (h : Host) (ctx : string) (s : State) (w : string) :
  w <> split_pop ctx ->
  collisions (snd (fst (checkCollisionForVessel options h ctx s))) !! w =
    if validContext ctx && cleanupDue s && collisionIsStale options h w
    then None
    else collisions s !! w.
Proof.
  intros Hw. destruct (validContext ctx) eqn:Hv.
  - destruct (checkCollisionForVessel_gateStep options h ctx s Hv)
      as (o & s' & ev2 & Heq & Hstep).
    rewrite Heq. cbn [fst snd andb].
    rewrite (gateStep_other_records h ctx _ _ _ _ w Hstep Hw).
    rewrite trackAndCleanup_collisions.
    destruct (cleanupDue s); cbn [andb]; [|reflexivity].
    destruct (collisionIsStale options h w) eqn:Hstale.
    + apply sweep_drops_stale. exact Hstale.
    + apply sweep_keeps_fresh. exact Hstale.
  - rewrite (checkCollisionForVessel_invalid_context options h ctx s Hv). reflexivity.
Qed.
End TableEffects.

(** The passing target with the alarm on: the evaluation ends with a CPA
    verdict and the table holds exactly that record for the vessel. *)
Lemma outcome_decides_target_record_witness :
  let r := checkCollisionForVessel (M := RefMath.refMath) defaultOptions
             Examples.freshHost "vessels.230099999"
             (Examples.alarmedState "230099999" Examples.passingTarget) in
  collisions (snd (fst r)) !! "230099999" =
    Some {| threat_collision :=
              cpaThreat (M := RefMath.refMath) Examples.ownVessel Examples.passingTarget
                Examples.passingCPA;
            threat_vesselId := "230099999";
            threat_position := position Examples.passingTarget |}.
Proof.
  cbv zeta.
  refine (outcome_decides_target_record (M := RefMath.refMath) defaultOptions
            Examples.freshHost "vessels.230099999"
            (Examples.alarmedState "230099999" Examples.passingTarget) _
            (Evaluated (Some (cpaThreat (M := RefMath.refMath) Examples.ownVessel
                                Examples.passingTarget Examples.passingCPA)))
            _ eq_refl _ _).
  - vm_compute. discriminate.
  - vm_compute. reflexivity.
Defined.

(** On the 100th call the record of a vessel the server no longer knows is
    swept although the call is about another vessel. *)
Lemma other_records_are_kept_witness :
  collisions (snd (fst (checkCollisionForVessel (M := RefMath.refMath) defaultOptions
                          Examples.freshHost "vessels.230099999"
                          Examples.sweepDueState))) !! "111000111" = None.
Proof.
  refine (other_records_are_kept (M := RefMath.refMath) defaultOptions
            Examples.freshHost "vessels.230099999" Examples.sweepDueState
            "111000111" _).
  vm_compute. discriminate.
Defined.

(** ** The notifications of a run *)

Section Traces.
Context {M : JSMath}.
Variable options : Options.

Lemma replayAlarm_app (a b : bool) (e1 e2 : list Notification) :
  replayAlarm a e1 = Some b -> replayAlarm a (e1 ++ e2) = replayAlarm b e2.
Proof.
  revert a. induction e1 as [|n e1 IH]; intros a; cbn.
  - intros [= ->]. reflexivity.
  - destruct n, a; try discriminate; apply IH.
Qed.

Lemma countAlarms_app (e1 e2 : list Notification) :
  countAlarms (e1 ++ e2) = (countAlarms e1 + countAlarms e2)%N.
Proof.
  induction e1 as [|n e1 IH]; cbn [countAlarms app]; [reflexivity|].
  destruct n; rewrite IH; lia.
Qed.

Lemma faithfulTrace_silent (s s' : State) :
  alarmActive s' = alarmActive s ->
  alarmsTriggered (stats s') = alarmsTriggered (stats s) ->
  faithfulTrace s [] s'.
Proof.
  intros Ha Hn. unfold faithfulTrace. cbn. rewrite Ha, Hn. repeat split. lia.
Qed.

Lemma faithfulTrace_trans (s s1 s2 : State) (e1 e2 : list Notification) :
  faithfulTrace s e1 s1 -> faithfulTrace s1 e2 s2 -> faithfulTrace s (e1 ++ e2) s2.
Proof.
  intros (R1 & C1 & N1) (R2 & C2 & N2). unfold faithfulTrace.
  rewrite (replayAlarm_app _ _ _ _ R1), forallb_app, C1, C2, countAlarms_app, N2, N1.
  repeat split; auto. lia.
Qed.

Lemma faithfulTrace_update (s : State) :
  faithfulTrace s (snd (updateAlarmState (hasCollisions s) s))
    (fst (updateAlarmState (hasCollisions s) s)).
Proof.
  unfold faithfulTrace, updateAlarmState, hasCollisions.
  destruct (Nat.ltb 0 (size (collisions s))) eqn:Hsize, (alarmActive s) eqn:Ha;
    cbn -[Nat.ltb]; rewrite ?Ha, ?Hsize; repeat split; try reflexivity; lia.
Qed.

(** Storing a new table and re-deriving the alarm. *)
Lemma faithfulTrace_install (s : State) (c : gmap string Threat) :
  faithfulTrace s
    (snd (updateAlarmState (hasCollisions (set_collisions c s)) (set_collisions c s)))
    (fst (updateAlarmState (hasCollisions (set_collisions c s)) (set_collisions c s))).
Proof.
  change (snd (updateAlarmState (hasCollisions (set_collisions c s)) (set_collisions c s)))
    with ([] ++ snd (updateAlarmState (hasCollisions (set_collisions c s))
                       (set_collisions c s))).
  apply (faithfulTrace_trans s (set_collisions c s)).
  - apply faithfulTrace_silent; reflexivity.
  - apply faithfulTrace_update.
Qed.

Lemma faithfulTrace_removeCollision (vid : string) (s : State) :
  faithfulTrace s (snd (removeCollision vid s)) (fst (removeCollision vid s)).
Proof.
  unfold removeCollision. destruct (collisions s !! vid).
  - apply faithfulTrace_install.
  - apply faithfulTrace_silent; reflexivity.
Qed.

Lemma faithfulTrace_cleanupStaleCollisions (h : Host) (s : State) :
  faithfulTrace s (snd (cleanupStaleCollisions options h s))
    (fst (cleanupStaleCollisions options h s)).
Proof.
  unfold cleanupStaleCollisions. cbv zeta. destruct (Nat.ltb 0 _).
  - apply faithfulTrace_install.
  - apply faithfulTrace_silent; reflexivity.
Qed.

Lemma cleanupStalePositions_quiet (h : Host) (s : State) :
  alarmActive (cleanupStalePositions options h s) = alarmActive s /\
  alarmsTriggered (stats (cleanupStalePositions options h s)) = alarmsTriggered (stats s).
Proof.
  unfold cleanupStalePositions. cbv zeta. destruct (Nat.ltb 0 _); split; reflexivity.
Qed.

Lemma faithfulTrace_trackAndCleanup (h : Host) (s : State) :
  faithfulTrace s (snd (trackAndCleanup options h s)) (fst (trackAndCleanup options h s)).
Proof.
  unfold trackAndCleanup. cbv zeta. destruct (N.eqb _ 0).
  - change (snd (cleanupStaleCollisions options h _))
      with ([] ++ snd (cleanupStaleCollisions options h
                         (cleanupStalePositions options h
                            (set_stats (bump_checksPerformed
                                          (stats (set_callCount (callCount s + 1) s)))
                               (set_callCount (callCount s + 1) s))))).
    eapply faithfulTrace_trans; [|apply faithfulTrace_cleanupStaleCollisions].
    destruct (cleanupStalePositions_quiet h
                (set_stats (bump_checksPerformed
                              (stats (set_callCount (callCount s + 1) s)))
                   (set_callCount (callCount s + 1) s))) as [Ha Hn].
    apply faithfulTrace_silent; [rewrite Ha | rewrite Hn]; reflexivity.
  - apply faithfulTrace_silent; reflexivity.
Qed.

Lemma checkPositionJump_quiet (h : Host) (vid : string) (cur : option VesselData)
    (s : State) :
  alarmActive (snd (checkPositionJump options h vid cur s)) = alarmActive s /\
  alarmsTriggered (stats (snd (checkPositionJump options h vid cur s))) =
    alarmsTriggered (stats s).
Proof.
  assert (Hstore : forall e s0,
            alarmActive (storePrevious vid e s0) = alarmActive s0 /\
            stats (storePrevious vid e s0) = stats s0).
  { intros e s0. unfold storePrevious. destruct (storesOwn _ _); auto. }
  destruct (cleanupStalePositions_quiet h s) as [Ha Hn].
  destruct (checkPositionJump_effect options h vid cur s)
    as [[_ ->] | [_ [-> | [-> | (c & _ & _ & [[-> _] | [-> _]])]]]];
    rewrite ?(proj1 (Hstore _ _)), ?(proj2 (Hstore _ _)); auto.
Qed.

Lemma checkGeometricCollision_quiet (sv : option VesselData) (tv : VesselData)
    (s : State) :
  exists st,
    snd (checkGeometricCollision options sv tv s) = set_stats st s /\
    alarmsTriggered st = alarmsTriggered (stats s).
Proof.
  assert (Hid : s = set_stats (stats s) s) by (destruct s; reflexivity).
  unfold checkGeometricCollision.
  destruct sv as [sv|]; [|exists (stats s); split; [exact Hid | reflexivity]].
  destruct (position sv), (position tv);
    try solve [exists (stats s); split; [exact Hid | reflexivity]].
  destruct (hasCourse sv && hasCourse tv);
    [exists (stats s); split; [exact Hid | reflexivity]|].
  cbv zeta. destruct (calculateDistance _ _) as [d|]; [|eexists; split; reflexivity].
  destruct (js_lt d _); eexists; split; reflexivity.
Qed.

Lemma faithfulTrace_classifyAndRecord (vid : string) (sv tv : VesselData) (s : State) :
  faithfulTrace s (snd (classifyAndRecord options vid sv tv s))
    (snd (fst (classifyAndRecord options vid sv tv s))).
Proof.
  pose proof (checkCPACollision_state options sv tv s) as Hs1.
  unfold classifyAndRecord.
  destruct (checkCPACollision options sv tv s) as [c s1]. cbn [snd] in Hs1. subst s1.
  assert (Hgeo : exists c' st,
             match c with
             | Some _ => (c, set_stats (bump_cpaCalculations (stats s)) s)
             | None => checkGeometricCollision options (Some sv) tv
                         (set_stats (bump_cpaCalculations (stats s)) s)
             end = (c', set_stats st s) /\
             alarmsTriggered st = alarmsTriggered (stats s)).
  { destruct c as [c|].
    - exists (Some c), (bump_cpaCalculations (stats s)). auto.
    - destruct (checkGeometricCollision_quiet (Some sv) tv
                  (set_stats (bump_cpaCalculations (stats s)) s)) as (st & Hst & Hn).
      destruct (checkGeometricCollision options (Some sv) tv _) as [c' s2].
      cbn [snd] in Hst. subst s2. exists c', st. auto. }
  destruct Hgeo as (c' & st & -> & Hn).
  set (s3 := match c' with
             | Some x => set_collisions _ (set_stats st s)
             | None => set_collisions _ (set_stats st s)
             end).
  assert (Hsilent : faithfulTrace s [] s3).
  { apply faithfulTrace_silent; subst s3; destruct c'; cbn; auto. }
  destruct (updateAlarmState (hasCollisions s3) s3) as [s4 ev] eqn:Hupd.
  cbn [fst snd].
  change ev with ([] ++ ev).
  apply (faithfulTrace_trans s s3); [exact Hsilent|].
  pose proof (faithfulTrace_update s3) as Hu. rewrite Hupd in Hu. exact Hu.
Qed.

Lemma faithfulTrace_gateStep (h : Host) (ctx : string) (s1 s' : State)
    (o : Outcome) (ev : list Notification) :
  gateStep options h ctx s1 o s' ev -> faithfulTrace s1 ev s'.
Proof.
  intros Hstep.
  destruct Hstep as [ | | | | sv tv Hs Ht Hf | | sv tv s2 Hs Ht Hj
                      | sv tv s2 Hs Ht Hj Hr | sv tv s2 o s3 ev Hs Ht Hj Hr Hcl ];
    try (apply faithfulTrace_silent; reflexivity);
    try apply faithfulTrace_removeCollision.
  - change (snd (removeCollision (split_pop ctx) _))
      with ([] ++ snd (removeCollision (split_pop ctx)
                         (set_stats (bump_skippedStaleData (stats s1)) s1))).
    eapply faithfulTrace_trans; [|apply faithfulTrace_removeCollision].
    apply faithfulTrace_silent; reflexivity.
  - destruct (checkPositionJump_quiet h (split_pop ctx) (Some tv) s1) as [Ha Hn].
    rewrite Hj in Ha, Hn. cbn [snd] in Ha, Hn. apply faithfulTrace_silent; assumption.
  - destruct (checkPositionJump_quiet h (split_pop ctx) (Some tv) s1) as [Ha Hn].
    rewrite Hj in Ha, Hn. cbn [snd] in Ha, Hn.
    change (snd (removeCollision (split_pop ctx) _))
      with ([] ++ snd (removeCollision (split_pop ctx)
                         (set_stats (bump_skippedOutOfRange (stats s2)) s2))).
    eapply faithfulTrace_trans; [|apply faithfulTrace_removeCollision].
    apply faithfulTrace_silent; assumption.
  - destruct (checkPositionJump_quiet h (split_pop ctx) (Some tv) s1) as [Ha Hn].
    rewrite Hj in Ha, Hn. cbn [snd] in Ha, Hn.
    pose proof (faithfulTrace_classifyAndRecord (split_pop ctx) sv tv s2) as Hc.
    rewrite Hcl in Hc. cbn [fst snd] in Hc.
    change ev with ([] ++ ev).
    apply (faithfulTrace_trans s1 s2); [apply faithfulTrace_silent; assumption | exact Hc].
Qed.

Lemma faithfulTrace_checkCollisionForVessel (h : Host) (ctx : string) (s : State) :
  faithfulTrace s (snd (checkCollisionForVessel options h ctx s))
    (snd (fst (checkCollisionForVessel options h ctx s))).
Proof.
  destruct (validContext ctx) eqn:Hv.
  - destruct (checkCollisionForVessel_gateStep options h ctx s Hv)
      as (o & s' & ev2 & Heq & Hstep).
    rewrite Heq. cbn [fst snd].
    eapply faithfulTrace_trans;
      [apply faithfulTrace_trackAndCleanup | apply (faithfulTrace_gateStep _ _ _ _ _ _ Hstep)].
  - rewrite (checkCollisionForVessel_invalid_context options h ctx s Hv).
    apply faithfulTrace_silent; reflexivity.
Qed.

Lemma faithfulTrace_runChecks (calls : list (Host * string)) (s : State) :
  faithfulTrace s (snd (runChecks options calls s)) (fst (runChecks options calls s)).
Proof.
  revert s. induction calls as [|[h ctx] rest IH]; intros s.
  - apply faithfulTrace_silent; reflexivity.
  - cbn [runChecks].
    pose proof (faithfulTrace_checkCollisionForVessel h ctx s) as H1.
    destruct (checkCollisionForVessel options h ctx s) as [[o s1] ev1].
    cbn [fst snd] in H1. specialize (IH s1).
    destruct (runChecks options rest s1) as [s2 ev2]. cbn [fst snd] in *.
    eapply faithfulTrace_trans; eassumption.
Qed.
End Traces.

(** ** Invariants of every run *)

Section RunInvariants.
Context {M : JSMath}.
Variable options : Options.

(** X13. In every state the detector can reach from its initial state the
    alarm is on exactly when the threat table holds a record. *)
Theorem reachable_alarm_agrees_with_table
    (self full : string) (t : float) (calls : list (Host * string)) :
  let s := fst (runChecks options calls (initialState self full t)) in
  alarmActive s = true <-> collisions s <> ∅.
Proof.
  cbv zeta.
  pose proof (runChecks_consistent options calls (initialState self full t)
                (initialState_consistent self full t)) as Hc.
  unfold alarmConsistent, hasCollisions in Hc. rewrite Hc, Nat.ltb_lt.
  rewrite <- map_size_non_empty_iff. lia.
Qed.

(** X14. Over any run from the initial state the notifications alternate,
    beginning with an alarm: an alarm notification is only ever emitted
    while the alarm is off, a normal notification only while it is on, and
    the alarm state at the end is the one the last notification announced
    (off when there was none). *)
Theorem notifications_alternate
    (self full : string) (t : float) (calls : list (Host * string)) :
  let r := runChecks options calls (initialState self full t) in
  replayAlarm false (snd r) = Some (alarmActive (fst r)).
Proof.
  cbv zeta.
  exact (proj1 (faithfulTrace_runChecks options calls (initialState self full t))).
Qed.

(** X15. Every alarm notification emitted in a run carries at least one
    threat record. *)
Theorem alarm_notifications_carry_threats
    (self full : string) (t : float) (calls : list (Host * string)) :
  forallb carriesThreats
    (snd (runChecks options calls (initialState self full t))) = true.
Proof.
  exact (proj1 (proj2 (faithfulTrace_runChecks options calls
                         (initialState self full t)))).
Qed.

(** X16. The [alarmsTriggered] counter is the number of alarm notifications
    emitted since the detector was created. *)
Theorem alarmsTriggered_counts_alarms
    (self full : string) (t : float) (calls : list (Host * string)) :
  let r := runChecks options calls (initialState self full t) in
  alarmsTriggered (stats (fst r)) = countAlarms (snd r).
Proof.
  cbv zeta.
  rewrite (proj2 (proj2 (faithfulTrace_runChecks options calls
                           (initialState self full t)))).
  reflexivity.
Qed.

Lemma classifyAndRecord_keyedById (vid : string) (sv tv : VesselData) (s : State) :
  keyedById s -> keyedById (snd (fst (classifyAndRecord options vid sv tv s))).
Proof.
  intros Hk. destruct (classifyAndRecord_shape options vid sv tv s) as (c & st & H).
  cbv zeta in H. rewrite H. cbn [fst snd]. unfold keyedById.
  rewrite updateAlarmState_collisions. intros k t0.
  destruct c; cbn [collisions set_collisions set_stats].
  - unfold assignOwn. destruct (storesOwn _ _); [|apply Hk].
    destruct (decide (vid = k)) as [<-|Hne].
    + rewrite lookup_insert_eq. intros [= <-]. reflexivity.
    + rewrite lookup_insert_ne by exact Hne. apply Hk.
  - intros Hl. apply lookup_delete_Some in Hl as [_ Hl]. apply (Hk _ _ Hl).
Qed.

Lemma checkCollisionForVessel_keyedById (h : Host) (ctx : string) (s : State) :
  keyedById s -> keyedById (snd (fst (checkCollisionForVessel options h ctx s))).
Proof.
  apply (checkCollisionForVessel_preserves options keyedById).
  - intros s0 st H. exact H.
  - intros s0 n H. exact H.
  - intros h0 s0 H. unfold keyedById. rewrite cleanupStalePositions_collisions. exact H.
  - intros h0 s0 H. unfold keyedById. rewrite cleanupStaleCollisions_collisions.
    intros k t0 Hl. apply map_lookup_filter_Some in Hl as [Hl _]. apply (H _ _ Hl).
  - intros vid s0 H. unfold keyedById. rewrite removeCollision_collisions.
    intros k t0 Hl. apply lookup_delete_Some in Hl as [_ Hl]. apply (H _ _ Hl).
  - intros h0 vid cur s0 H. unfold keyedById.
    destruct (checkPositionJump_collisions options h0 vid cur s0) as [-> _]. exact H.
  - intros vid sv tv s0 H. apply classifyAndRecord_keyedById. exact H.
Qed.

(** X17. In every reachable state each record of the threat table is filed
    under the vessel id it carries. *)
Theorem reachable_records_keyed_by_id
    (self full : string) (t : float) (calls : list (Host * string))
    (k : string) (rec : Threat) :
  collisions (fst (runChecks options calls (initialState self full t))) !! k = Some rec ->
  threat_vesselId rec = k.
Proof.
  assert (H : forall s, keyedById s -> keyedById (fst (runChecks options calls s))).
  { induction calls as [|[h ctx] rest IH]; intros s Hs; [exact Hs|].
    cbn [runChecks].
    pose proof (checkCollisionForVessel_keyedById h ctx s Hs) as H1.
    destruct (checkCollisionForVessel options h ctx s) as [[o s1] ev1].
    cbn [fst snd] in H1. specialize (IH s1 H1).
    destruct (runChecks options rest s1) as [s2 ev2]. exact IH. }
  apply (H (initialState self full t)).
  intros k0 t0 Hl. cbn in Hl. rewrite lookup_empty in Hl. discriminate.
Qed.
End RunInvariants.

(** A run of one call about the anchored target: the table then holds the
    target under its own id. *)
Lemma reachable_records_keyed_by_id_witness :
  exists rec,
    collisions
      (fst (runChecks (M := RefMath.refMath) defaultOptions
              [(Examples.server Examples.t0
                  [("vessels.self", Examples.ownVessel);
                   ("vessels.230099999", Examples.anchoredTarget)],
                "vessels.230099999")]
              (initialState "self" "vessels.self" Examples.t0))) !! "230099999"
      = Some rec /\
    threat_vesselId rec = "230099999".
Proof.
  eexists. split; [vm_compute; reflexivity|].
  refine (reachable_records_keyed_by_id (M := RefMath.refMath) defaultOptions
            "self" "vessels.self" Examples.t0
            [(Examples.server Examples.t0
                [("vessels.self", Examples.ownVessel);
                 ("vessels.230099999", Examples.anchoredTarget)],
              "vessels.230099999")] "230099999" _ _).
  vm_compute. reflexivity.
Defined.

(** ** The tracking table only holds usable entries *)

Section TrackedEntries.
Context {M : JSMath}.
Variable options : Options.

Lemma cleanupStalePositions_trackedWellFormed (h : Host) (s : State) :
  trackedWellFormed s -> trackedWellFormed (cleanupStalePositions options h s).
Proof.
  intros Hw k e. rewrite cleanupStalePositions_previousPositions.
  intros Hl. apply map_lookup_filter_Some in Hl as [Hl _]. apply (Hw _ _ Hl).
Qed.

Lemma checkPositionJump_trackedWellFormed (h : Host) (vid : string) (cur : VesselData)
    (s : State) :
  truthy (timestamp cur) = true ->
  trackedWellFormed s ->
  trackedWellFormed (snd (checkPositionJump options h vid (Some cur) s)).
Proof.
  intros Hts Hw.
  assert (Hins : forall m : gmap string PreviousPosition,
             (forall k e, m !! k = Some e ->
                          is_Some (pp_position e) /\ truthy (pp_timestamp e) = true) ->
             forall p, position cur = Some p ->
             forall k e,
               <[vid := {| pp_position := Some p; pp_timestamp := timestamp cur |}]> m
                 !! k = Some e ->
               is_Some (pp_position e) /\ truthy (pp_timestamp e) = true).
  { intros m Hm p Hp k e. destruct (decide (vid = k)) as [<-|Hne].
    - rewrite lookup_insert_eq. intros [= <-]. cbn. eauto.
    - rewrite lookup_insert_ne by exact Hne. apply Hm. }
  assert (Hstore : forall s0, trackedWellFormed s0 ->
            forall c, Some cur = Some c -> is_Some (position c) ->
            trackedWellFormed
              (storePrevious vid {| pp_position := position c;
                                    pp_timestamp := timestamp c |} s0)).
  { intros s0 Hs0 c [= <-] [p Hp]. unfold storePrevious.
    destruct (storesOwn _ _); [|exact Hs0]. rewrite Hp.
    unfold trackedWellFormed. cbn [previousPositions set_previousPositions].
    apply (Hins _ Hs0 p Hp). }
  pose proof (cleanupStalePositions_trackedWellFormed h s Hw) as Hw1.
  destruct (checkPositionJump_effect options h vid (Some cur) s)
    as [[_ ->] | [_ [-> | [-> | (c & Hc & Hpos & [[-> _] | [-> _]])]]]];
    auto.
Qed.

Lemma isDataFresh_truthy (h : Host) (v : VesselData) :
  isDataFresh options h (Some v) = true -> truthy (timestamp v) = true.
Proof.
  unfold isDataFresh. destruct (truthy (timestamp v)); [reflexivity | discriminate].
Qed.

Lemma gateStep_trackedWellFormed (h : Host) (ctx : string) (s1 s' : State)
    (o : Outcome) (ev : list Notification) :
  gateStep options h ctx s1 o s' ev ->
  trackedWellFormed s1 -> trackedWellFormed s'.
Proof.
  intros Hstep Hw. unfold trackedWellFormed in *.
  destruct Hstep as [ | | | | | | sv tv s2 Hs Ht Hj | sv tv s2 Hs Ht Hj Hr
                      | sv tv s2 o s3 ev Hs Ht Hj Hr Hcl ];
    try exact Hw;
    try (rewrite removeCollision_previousPositions; exact Hw);
    destruct Ht as (_ & Hfresh & _);
    pose proof (checkPositionJump_trackedWellFormed h (split_pop ctx) tv s1
                  (isDataFresh_truthy h tv Hfresh) Hw) as Hw2;
    rewrite Hj in Hw2; cbn [snd] in Hw2.
  - exact Hw2.
  - rewrite removeCollision_previousPositions. exact Hw2.
  - pose proof (classifyAndRecord_previousPositions options (split_pop ctx) sv tv s2)
      as Hpp.
    rewrite Hcl in Hpp. cbn [fst snd] in Hpp. rewrite Hpp. exact Hw2.
Qed.

Lemma trackAndCleanup_trackedWellFormed (h : Host) (s : State) :
  trackedWellFormed s -> trackedWellFormed (fst (trackAndCleanup options h s)).
Proof.
  intros Hw. unfold trackAndCleanup. cbv zeta. destruct (N.eqb _ 0); [|exact Hw].
  unfold trackedWellFormed. rewrite cleanupStaleCollisions_previousPositions.
  apply cleanupStalePositions_trackedWellFormed. exact Hw.
Qed.

Lemma checkCollisionForVessel_trackedWellFormed (h : Host) (ctx : string) (s : State) :
  trackedWellFormed s ->
  trackedWellFormed (snd (fst (checkCollisionForVessel options h ctx s))).
Proof.
  intros Hw. destruct (validContext ctx) eqn:Hv.
  - destruct (checkCollisionForVessel_gateStep options h ctx s Hv)
      as (o & s' & ev2 & Heq & Hstep).
    rewrite Heq. cbn [fst snd].
    apply (gateStep_trackedWellFormed _ _ _ _ _ _ Hstep).
    apply trackAndCleanup_trackedWellFormed. exact Hw.
  - rewrite (checkCollisionForVessel_invalid_context options h ctx s Hv). exact Hw.
Qed.

(** X18. In every reachable state each entry of the tracking table has a
    position and a timestamp that is neither 0 nor NaN: only snapshots that
    passed the freshness and validity gates are ever stored.  The guards of
    [detectPositionJump] and [cleanupStalePositions] against an entry
    without position or timestamp therefore never fire. *)
Theorem reachable_tracked_entries_usable
    (self full : string) (t : float) (calls : list (Host * string))
    (k : string) (e : PreviousPosition) :
  previousPositions (fst (runChecks options calls (initialState self full t))) !! k
    = Some e ->
  is_Some (pp_position e) /\ truthy (pp_timestamp e) = true.
Proof.
  assert (H : forall s, trackedWellFormed s ->
                        trackedWellFormed (fst (runChecks options calls s))).
  { induction calls as [|[h ctx] rest IH]; intros s Hs; [exact Hs|].
    cbn [runChecks].
    pose proof (checkCollisionForVessel_trackedWellFormed h ctx s Hs) as H1.
    destruct (checkCollisionForVessel options h ctx s) as [[o s1] ev1].
    cbn [fst snd] in H1. specialize (IH s1 H1).
    destruct (runChecks options rest s1) as [s2 ev2]. exact IH. }
  apply (H (initialState self full t)).
  intros k0 e0 Hl. cbn in Hl. rewrite lookup_empty in Hl. discriminate.
Qed.
End TrackedEntries.

(** A run of one call about the anchored target stores its position. *)
Lemma reachable_tracked_entries_usable_witness :
  exists e,
    previousPositions
      (fst (runChecks (M := RefMath.refMath) defaultOptions
              [(Examples.server Examples.t0
                  [("vessels.self", Examples.ownVessel);
                   ("vessels.230099999", Examples.anchoredTarget)],
                "vessels.230099999")]
              (initialState "self" "vessels.self" Examples.t0))) !! "230099999"
      = Some e /\
    is_Some (pp_position e) /\ truthy (pp_timestamp e) = true.
Proof.
  eexists. split; [vm_compute; reflexivity|].
  refine (reachable_tracked_entries_usable (M := RefMath.refMath) defaultOptions
            "self" "vessels.self" Examples.t0
            [(Examples.server Examples.t0
                [("vessels.self", Examples.ownVessel);
                 ("vessels.230099999", Examples.anchoredTarget)],
              "vessels.230099999")] "230099999" _ _).
  vm_compute. reflexivity.
Defined.

(** A run of two calls: the anchored target comes within the geometric
    threshold and the alarm is raised; its data then disappears from the
    server and the alarm is cleared. *)
Example run_raises_and_clears :
  let r := runChecks (M := RefMath.refMath) defaultOptions
             [(Examples.server Examples.t0
                 [("vessels.self", Examples.ownVessel);
                  ("vessels.230099999", Examples.anchoredTarget)],
               "vessels.230099999");
              (Examples.server Examples.t0 [("vessels.self", Examples.ownVessel)],
               "vessels.230099999")]
             (initialState "self" "vessels.self" Examples.t0) in
  List.map carriesThreats (snd r) = [true; true] /\
  countAlarms (snd r) = 1%N /\
  List.length (snd r) = 2%nat /\
  alarmActive (fst r) = false.
Proof. vm_compute. auto. Qed.

(** * The plugin around the detector *)

(** ** Configuration *)











(** ** Deltas *)

Section PluginRuns.
Context {M : JSMath}.

Lemma isOwnVessel_false (own : option string) (ctx : string) :
  isOwnVessel own ctx = false ->
  split_pop ctx <> "self"%string /\ (forall id, own = Some id -> split_pop ctx <> id).
Proof.
  unfold isOwnVessel. cbv zeta. intros H.
  apply orb_false_elim in H as [H _]. apply orb_false_elim in H as [H1 H2].
  split.
  - apply String.eqb_neq. exact H1.
  - intros id ->. apply String.eqb_neq. exact H2.
Qed.

Lemma checkCollisionForVessel_absent
    (o : Options) (h : Host) (ctx : string) (s : State) (w : string) :
  w <> split_pop ctx ->
  collisions s !! w = None ->
  collisions (snd (fst (checkCollisionForVessel o h ctx s))) !! w = None.
Proof.
  intros Hw Hnone. destruct (validContext ctx) eqn:Hv.
  - destruct (checkCollisionForVessel_gateStep o h ctx s Hv)
      as (oc & s' & ev2 & Heq & Hstep).
    rewrite Heq. cbn [fst snd].
    rewrite (gateStep_other_records o h ctx _ _ _ _ w Hstep Hw).
    rewrite trackAndCleanup_collisions.
    destruct (cleanupDue s); [|exact Hnone].
    apply map_lookup_filter_None_2. left. exact Hnone.
  - rewrite (checkCollisionForVessel_invalid_context o h ctx s Hv). exact Hnone.
Qed.

Lemma runChecks_absent (o : Options) (calls : list (Host * string)) (s : State) (w : string) :
  Forall (fun c => w <> split_pop c.2) calls ->
  collisions s !! w = None ->
  collisions (fst (runChecks o calls s)) !! w = None.
Proof.
  revert s. induction calls as [|[h ctx] rest IH]; intros s Hall Hnone; [exact Hnone|].
  apply Forall_cons in Hall as [Hw Hall]. cbn [snd] in Hw.
  cbn [runChecks].
  pose proof (checkCollisionForVessel_absent o h ctx s w Hw Hnone) as H1.
  destruct (checkCollisionForVessel o h ctx s) as [[oc s1] ev1]. cbn [fst snd] in H1.
  specialize (IH s1 Hall H1).
  destruct (runChecks o rest s1) as [s2 ev2]. exact IH.
Qed.

Lemma acceptedCall_not_own (own : option string) (delta : Delta) (ctx : string) :
  acceptedCall own delta = Some ctx -> isOwnVessel own ctx = false.
Proof.
  unfold acceptedCall.
  destruct (delta_updates delta) as [updates|]; [|discriminate].
  destruct (delta_context delta) as [c|]; [|discriminate].
  destruct (String.eqb c EmptyString); [discriminate|].
  destruct (isOwnVessel own c) eqn:Hown; [discriminate|].
  destruct (containsPosition updates); [|discriminate].
  intros [= <-]. exact Hown.
Qed.

Lemma acceptedCalls_not_own (own : option string) (deltas : list (Host * Delta)) :
  Forall (fun c => isOwnVessel own c.2 = false) (acceptedCalls own deltas).
Proof.
  induction deltas as [|[h delta] rest IH]; [constructor|].
  cbn [acceptedCalls]. destruct (acceptedCall own delta) as [ctx|] eqn:E; [|exact IH].
  constructor; [|exact IH]. cbn [snd]. exact (acceptedCall_not_own own delta ctx E).
Qed.

Lemma acceptedCalls_ownName (own : option string) (deltas : list (Host * Delta)) :
  Forall (fun d => ownNameDelta d.2 = true) deltas ->
  Forall (fun c => ownNameContext c.2 = true) (acceptedCalls own deltas).
Proof.
  induction deltas as [|[h delta] rest IH]; intros Hall; [constructor|].
  apply Forall_cons in Hall as [Hd Hall]. cbn [snd] in Hd.
  cbn [acceptedCalls]. destruct (acceptedCall own delta) as [ctx|] eqn:E; [|auto].
  constructor; [|auto]. cbn [snd].
  unfold acceptedCall in E. unfold ownNameDelta in Hd.
  destruct (delta_updates delta); [|discriminate].
  destruct (delta_context delta) as [c|]; [|discriminate].
  destruct (String.eqb c EmptyString); [discriminate|].
  destruct (isOwnVessel own c); [discriminate|].
  destruct (containsPosition _); [|discriminate].
  injection E as <-. exact Hd.
Qed.

(** What one delta does, in terms of the context it contributes. *)
Lemma processDeltaMessage_acceptedCall
    (h : Host) (delta : Delta) (o : Options) (s : State) (own : option string) :
  processDeltaMessage h delta {| detector := Some (o, s); ownVesselId := own |} =
    match acceptedCall own delta with
    | Some ctx =>
        ({| detector := Some (o, snd (fst (checkCollisionForVessel o h ctx s)));
            ownVesselId := own |},
         snd (checkCollisionForVessel o h ctx s))
    | None => ({| detector := Some (o, s); ownVesselId := own |}, [])
    end.
Proof.
  unfold processDeltaMessage, acceptedCall. cbn [detector ownVesselId].
  destruct (delta_updates delta) as [updates|]; [|reflexivity].
  destruct (delta_context delta) as [c|]; [|reflexivity].
  destruct (String.eqb c EmptyString); [reflexivity|].
  destruct (isOwnVessel own c); [reflexivity|].
  destruct (containsPosition updates); cbn [negb]; [|reflexivity].
  destruct (checkCollisionForVessel o h c s) as [[oc s1] ev1]. reflexivity.
Qed.

(** A stream of deltas is a run of the detector over the contexts that the
    filter of [processDeltaMessage] lets through. *)
Lemma runDeltas_runChecks
    (deltas : list (Host * Delta)) (o : Options) (s : State) (own : option string) :
  runDeltas deltas {| detector := Some (o, s); ownVesselId := own |} =
    ({| detector := Some (o, fst (runChecks o (acceptedCalls own deltas) s));
        ownVesselId := own |},
     snd (runChecks o (acceptedCalls own deltas) s)).
Proof.
  revert s. induction deltas as [|[h delta] rest IH]; intros s; [reflexivity|].
  cbn [runDeltas acceptedCalls]. rewrite processDeltaMessage_acceptedCall.
  destruct (acceptedCall own delta) as [ctx|].
  - rewrite IH. cbn [runChecks].
    destruct (checkCollisionForVessel o h ctx s) as [[oc s1] ev1]. cbn [fst snd].
    destruct (runChecks o (acceptedCalls own rest) s1) as [s2 ev2]. reflexivity.
  - rewrite IH. reflexivity.
Qed.

Lemma runDeltas_stopped (deltas : list (Host * Delta)) (p : Plugin) :
  detector p = None -> runDeltas deltas p = (p, []).
Proof.
  intros Hnone. induction deltas as [|[h delta] rest IH]; [reflexivity|].
  cbn [runDeltas]. unfold processDeltaMessage. rewrite Hnone. rewrite IH. reflexivity.
Qed.

Lemma plugin_start_started
    (h : Host) (selfId : option string) (raw : RawOptions) (p p0 : Plugin) :
  plugin_start h selfId raw p = (p0, None) ->
  exists own,
    p0 = {| detector := Some (mergedConfig raw,
                              initialState own ("vessels." +:+ own) (now h));
            ownVesselId := Some own |}.
Proof.
  unfold plugin_start. cbv zeta.
  destruct (negb (ov_valid (validateOptions raw))); [discriminate|].
  intros [= <-]. eexists. reflexivity.
Qed.

(** X20. The own vessel is never recorded as a threat: after a successful
    start and any stream of deltas the threat table of the detector holds no
    record under ["self"] and none under the own vessel's id, and the
    detector still runs with the configuration it was started with. *)
Theorem own_vessel_is_never_a_threat
    (h : Host) (selfId : option string) (raw : RawOptions) (p p0 : Plugin)
    (deltas : list (Host * Delta)) :
  plugin_start h selfId raw p = (p0, None) ->
  exists own s,
    fst (runDeltas deltas p0) =
      {| detector := Some (mergedConfig raw, s); ownVesselId := Some own |} /\
    collisions s !! "self" = None /\
    collisions s !! own = None.
Proof.
  intros Hstart. destruct (plugin_start_started h selfId raw p p0 Hstart) as [own ->].
  rewrite runDeltas_runChecks. cbn [fst].
  exists own, (fst (runChecks (mergedConfig raw) (acceptedCalls (Some own) deltas)
                      (initialState own ("vessels." +:+ own) (now h)))).
  split; [reflexivity|].
  pose proof (acceptedCalls_not_own (Some own) deltas) as Hall.
  split; apply runChecks_absent; try (cbn; apply lookup_empty);
    (eapply Forall_impl; [exact Hall|]); intros [hc ctx] Hown; cbn [snd] in *;
    apply isOwnVessel_false in Hown as [Hself Hid].
  - congruence.
  - intros E. exact (Hid own eq_refl (eq_sym E)).
Qed.

(** X21. A lifecycle never leaves the collision notification in alarm: when
    the plugin is stopped, the "Plugin stopped" notification, which sets it
    back to normal, is issued exactly when the last notification published
    since the start was an alarm.  After the stop no detector is left and
    every delta is ignored. *)
Theorem stop_clears_a_raised_alarm
    (h : Host) (selfId : option string) (raw : RawOptions) (p p0 : Plugin)
    (deltas later : list (Host * Delta)) :
  plugin_start h selfId raw p = (p0, None) ->
  let r := runDeltas deltas p0 in
  replayAlarm false (snd r) = Some (snd (plugin_stop (fst r))) /\
  runDeltas later (fst (plugin_stop (fst r))) = (stoppedPlugin, []).
Proof.
  intros Hstart. cbv zeta.
  destruct (plugin_start_started h selfId raw p p0 Hstart) as [own ->].
  rewrite runDeltas_runChecks. cbn [fst snd].
  unfold plugin_stop. cbn [detector fst snd].
  split.
  - exact (proj1 (faithfulTrace_runChecks (mergedConfig raw)
                    (acceptedCalls (Some own) deltas)
                    (initialState own ("vessels." +:+ own) (now h)))).
  - apply runDeltas_stopped. reflexivity.
Qed.

(** X22. What the status line can say while the plugin runs: either it
    announces an alarm, and then with at least one collision, the number
    of records in the threat table; or it reports the monitored vessels, and
    then no alarm is active and the threat table is empty.  The number of
    monitored vessels is at most the tracking limit of 1000 when no delta
    was about a vessel whose id is the name of a property of
    [Object.prototype]. *)
Theorem statusMessage_of_a_running_plugin
    (h : Host) (selfId : option string) (raw : RawOptions) (p p0 : Plugin)
    (deltas : list (Host * Delta)) :
  plugin_start h selfId raw p = (p0, None) ->
  let p1 := fst (runDeltas deltas p0) in
  exists s, detectorState p1 = Some s /\
    ((alarmActive s = true /\ (1 <= size (collisions s))%nat /\
      statusMessage p1 =
        "ALARM: " +:+ pretty (size (collisions s)) +:+ " collision(s) detected")
     \/
     (alarmActive s = false /\ collisions s = ∅ /\
      (Forall (fun d => ownNameDelta d.2 = true) deltas ->
       (size (previousPositions s) <= 1000)%nat) /\
      statusMessage p1 =
        "Monitoring " +:+ pretty (size (previousPositions s)) +:+ " vessel(s), "
          +:+ pretty (checksPerformed (stats s)) +:+ " checks performed")).
Proof.
  intros Hstart. cbv zeta.
  destruct (plugin_start_started h selfId raw p p0 Hstart) as [own ->].
  rewrite runDeltas_runChecks. cbn [fst].
  set (s0 := initialState own ("vessels." +:+ own) (now h)).
  set (calls := acceptedCalls (Some own) deltas).
  exists (fst (runChecks (mergedConfig raw) calls s0)).
  split; [reflexivity|].
  pose proof (runChecks_consistent (mergedConfig raw) calls s0
                (initialState_consistent _ _ _)) as Hc.
  assert (Hb : Forall (fun d => ownNameDelta d.2 = true) deltas ->
               (size (previousPositions (fst (runChecks (mergedConfig raw) calls s0)))
                <= 1000)%nat).
  { intros Hall.
    exact (proj1 (runChecks_bounded (mergedConfig raw) calls s0
                    (acceptedCalls_ownName (Some own) deltas Hall)
                    (initialState_plainTracking _ _ _))). }
  unfold alarmConsistent, hasCollisions in Hc.
  unfold statusMessage, getStatus.
  cbn [detector st_alarmActive st_activeCollisions st_trackedVessels st_stats].
  destruct (alarmActive (fst (runChecks (mergedConfig raw) calls s0))) eqn:Ha.
  - left. symmetry in Hc. apply Nat.ltb_lt in Hc.
    split; [reflexivity|]. split; [lia | reflexivity].
  - right. symmetry in Hc. apply Nat.ltb_ge in Hc.
    split; [reflexivity|]. split; [|split; [exact Hb | reflexivity]].
    apply map_size_empty_iff. lia.
Qed.
End PluginRuns.

(** A default configuration, started on a server that knows the own vessel
    and the anchored target; a delta of the target and one of the own vessel
    follow. *)
Lemma own_vessel_is_never_a_threat_witness :
  plugin_start Examples.anchorageHost None Examples.noOptions stoppedPlugin =
    (fst (plugin_start Examples.anchorageHost None Examples.noOptions stoppedPlugin), None) /\
  exists own s,
    fst (runDeltas (M := RefMath.refMath)
           [(Examples.anchorageHost, Examples.positionDelta "vessels.230099999");
            (Examples.anchorageHost, Examples.positionDelta "vessels.self")]
           (fst (plugin_start Examples.anchorageHost None Examples.noOptions stoppedPlugin))) =
      {| detector := Some (mergedConfig Examples.noOptions, s); ownVesselId := Some own |} /\
    collisions s !! "self" = None /\
    collisions s !! own = None.
Proof.
  split; [reflexivity|].
  apply (own_vessel_is_never_a_threat (M := RefMath.refMath)
           Examples.anchorageHost None Examples.noOptions stoppedPlugin).
  reflexivity.
Defined.

(** The same start; the delta of the anchored target raises the alarm, so
    the stop issues the clearing notification. *)
Lemma stop_clears_a_raised_alarm_witness :
  plugin_start Examples.anchorageHost None Examples.noOptions stoppedPlugin =
    (fst (plugin_start Examples.anchorageHost None Examples.noOptions stoppedPlugin), None) /\
  let r := runDeltas (M := RefMath.refMath)
             [(Examples.anchorageHost, Examples.positionDelta "vessels.230099999")]
             (fst (plugin_start Examples.anchorageHost None Examples.noOptions stoppedPlugin)) in
  replayAlarm false (snd r) = Some (snd (plugin_stop (fst r))) /\
  runDeltas (M := RefMath.refMath)
    [(Examples.anchorageHost, Examples.positionDelta "vessels.230099999")]
    (fst (plugin_stop (fst r))) = (stoppedPlugin, []).
Proof.
  split; [reflexivity|].
  apply (stop_clears_a_raised_alarm (M := RefMath.refMath)
           Examples.anchorageHost None Examples.noOptions stoppedPlugin).
  reflexivity.
Defined.

(** The same start and delta: the status line announces the alarm. *)
Lemma statusMessage_of_a_running_plugin_witness :
  plugin_start Examples.anchorageHost None Examples.noOptions stoppedPlugin =
    (fst (plugin_start Examples.anchorageHost None Examples.noOptions stoppedPlugin), None) /\
  let p1 := fst (runDeltas (M := RefMath.refMath)
                   [(Examples.anchorageHost, Examples.positionDelta "vessels.230099999")]
                   (fst (plugin_start Examples.anchorageHost None Examples.noOptions
                           stoppedPlugin))) in
  exists s, detectorState p1 = Some s /\
    ((alarmActive s = true /\ (1 <= size (collisions s))%nat /\
      statusMessage p1 =
        "ALARM: " +:+ pretty (size (collisions s)) +:+ " collision(s) detected")
     \/
     (alarmActive s = false /\ collisions s = ∅ /\
      (Forall (fun d => ownNameDelta d.2 = true)
         [(Examples.anchorageHost, Examples.positionDelta "vessels.230099999")] ->
       (size (previousPositions s) <= 1000)%nat) /\
      statusMessage p1 =
        "Monitoring " +:+ pretty (size (previousPositions s)) +:+ " vessel(s), "
          +:+ pretty (checksPerformed (stats s)) +:+ " checks performed")).
Proof.
  split; [reflexivity|].
  apply (statusMessage_of_a_running_plugin (M := RefMath.refMath)
           Examples.anchorageHost None Examples.noOptions stoppedPlugin).
  reflexivity.
Defined.

(** A lifecycle on that server: the target's delta raises the alarm, the
    status line says so, the own vessel's delta is ignored, and the stop
    issues the clearing notification. *)
Example lifecycle_raises_and_stops :
  let p0 := fst (plugin_start Examples.anchorageHost None Examples.noOptions stoppedPlugin) in
  let r := runDeltas (M := RefMath.refMath)
             [(Examples.anchorageHost, Examples.positionDelta "vessels.230099999");
              (Examples.anchorageHost, Examples.positionDelta "vessels.self")] p0 in
  countAlarms (snd r) = 1%N /\
  List.length (snd r) = 1%nat /\
  statusMessage (fst r) = "ALARM: 1 collision(s) detected"%string /\
  plugin_stop (fst r) = (stoppedPlugin, true) /\
  statusMessage (fst (plugin_stop (fst r))) = "Not running"%string.
Proof. vm_compute. auto. Qed.

(** A configuration with a safe passing distance of 0 is rejected and
    reported; one that leaves it out is accepted. *)
Example plugin_start_rejects_zero_distance :
  snd (plugin_start Examples.anchorageHost None
         {| raw_safePassingDistanceMeters := CfgNumber 0;
            raw_alarmHysteresisMeters := CfgUndefined;
            raw_timeWindowMinutes := CfgOther;
            raw_rangeNauticalMiles := CfgUndefined;
            raw_PosFreshBefore := CfgUndefined |} stoppedPlugin) =
    Some ("Configuration errors: safePassingDistanceMeters must be a positive number, "
          +:+ "timeWindowMinutes must be a positive number")%string /\
  snd (plugin_start Examples.anchorageHost None Examples.noOptions stoppedPlugin) = None.
Proof. vm_compute. auto. Qed.
